(** * The data schema of backend/grupoedetica/models.py

    The module declares the tables of a residential-property management
    site with the model classes of an object-relational mapper, and one
    custom field class, [UpperCaseCharField], whose [pre_save] hook
    uppercases a text attribute before it is stored.

    The development has five parts:
    - the Python values and the [pre_save] hook, translated statement by
      statement;
    - the class declarations of the module, as data ([models_py]), in the
      order and with the options they are written with;
    - the meaning the mapper and the database give to such declarations:
      building an instance, saving it (UPDATE or INSERT, with the NOT NULL,
      UNIQUE, PRIMARY KEY and FOREIGN KEY checks) and deleting it (the
      collector that follows CASCADE relations and stops on RESTRICT ones);
    - the methods of the module (the [__str__] of the classes, with the
      reads of related rows they make, and [cargar_tipo_estancia]),
      translated statement by statement over the same database;
    - the properties of the schema and of the methods, proved over every
      state that saves and deletes can reach from the empty database.

    The declarations are given their meaning as they are written, class by
    class.  One of them, the third relation of [Votacion] (line 251), names
    a class that the module never binds; [import_module] shows what
    executing the module does there.  For the tables, such a relation has
    no target table: its column is an integer column without a FOREIGN KEY
    constraint. *)

From Stdlib Require Import ZArith String List Bool Lia.
From stdpp Require Import base option list gmap strings pretty.

Local Open Scope Z_scope.

(** ** Python values and exceptions *)

(** The values an attribute of a model instance holds: [None], a [bool], an
    [int], a [str] or a [datetime.date] (by its ISO text).  A price is the only
    [float] of the schema and is given as the integer [0]; numbers are
    modelled by their integer value. *)
Inductive value : Type :=
| VNone
| VBool (b : bool)
| VInt (z : Z)
| VStr (s : string)
| VDate (iso : string).

#[global] Instance value_eq_dec : EqDecision value.
Proof. solve_decision. Defined.

Inductive exn : Type :=
| AttributeError
| NameError (name : string)
| TypeError
| ValueError
| ValidationError
| LookupError
| IntegrityError
| RestrictedError.

#[global] Instance exn_eq_dec : EqDecision exn.
Proof. solve_decision. Defined.

(** A computation that returns a value or raises. *)
Inductive result (A : Type) : Type :=
| Ok (a : A)
| Raise (e : exn).
Arguments Ok {A} a.
Arguments Raise {A} e.

#[global] Instance result_ret : MRet result := fun A a => Ok a.
#[global] Instance result_bind : MBind result := fun A B k r =>
  match r with
  | Ok a => k a
  | Raise e => Raise e
  end.

Definition is_ok {A : Type} (r : result A) : bool :=
  match r with Ok _ => true | Raise _ => false end.

(** A model instance is its attribute dictionary. *)
Abbreviation instance := (gmap string value).

(** [bool(value)]: the truth value Python's [if value:] tests. *)
Definition truthy (v : value) : bool :=
  match v with
  | VNone => false
  | VBool b => b
  | VInt z => negb (z =? 0)
  | VStr s => negb (bool_decide (s = ""%string))
  | VDate _ => true
  end.

(** [getattr(obj, name, default)] and [getattr(obj, name)]. *)
Definition getattr_default (inst : instance) (attname : string) (d : value) : value :=
  default d (inst !! attname).

Definition getattr (inst : instance) (attname : string) : result value :=
  match inst !! attname with
  | Some v => Ok v
  | None => Raise AttributeError
  end.

Definition setattr (inst : instance) (attname : string) (v : value) : instance :=
  <[attname := v]> inst.

(** ** The [pre_save] hooks *)

Section PreSave.

(** [str.upper] is the runtime's (full Unicode case mapping); the hook is
    translated over it. *)
Variable str_upper : string -> string.

(** [value.upper()]: only a [str] has the method. *)
Definition upper (v : value) : result value :=
  match v with
  | VStr s => Ok (VStr (str_upper s))
  | _ => Raise AttributeError
  end.

(** [Field.pre_save], which [CharField] inherits:
    [return getattr(model_instance, self.attname)]. *)
Definition Field_pre_save (attname : string) (model_instance : instance)
    (add : bool) : result value * instance :=
  (getattr model_instance attname, model_instance).

(** [UpperCaseCharField.pre_save] (models.py, lines 17-24).  The second
    component is the instance after the call. *)
Definition UpperCaseCharField_pre_save (attname : string)
    (model_instance : instance) (add : bool) : result value * instance :=
  let value := getattr_default model_instance attname VNone in
  if truthy value then
    match upper value with
    | Ok value' => (Ok value', setattr model_instance attname value')
    | Raise e => (Raise e, model_instance)
    end
  else Field_pre_save attname model_instance add.

End PreSave.

(** [str.upper] on the ASCII letters, the other bytes kept: an instance of
    the runtime's function to evaluate the hooks with. *)
Definition ascii_upper_char (c : Ascii.ascii) : Ascii.ascii :=
  let n := Ascii.nat_of_ascii c in
  if (Nat.leb 97 n && Nat.leb n 122)%bool then Ascii.ascii_of_nat (n - 32) else c.

Fixpoint ascii_upper (s : string) : string :=
  match s with
  | EmptyString => EmptyString
  | String c s' => String (ascii_upper_char c) (ascii_upper s')
  end.

(** ** The declarations of the module *)

Inductive on_delete_t : Type := CASCADE | RESTRICT.

#[global] Instance on_delete_eq_dec : EqDecision on_delete_t.
Proof. solve_decision. Defined.

(** The field classes the module uses.  A relation names its target class by
    the identifier written in the source. *)
Inductive field_kind : Type :=
| AutoField
| CharField (max_length : nat)
| UpperCaseCharField (max_length : nat)
| TextField
| IntegerField
| FloatField
| BooleanField
| DateField
| ForeignKey (to : string) (on_delete : on_delete_t)
| OneToOneField (to : string) (on_delete : on_delete_t) (related_name : string).

#[global] Instance field_kind_eq_dec : EqDecision field_kind.
Proof. solve_decision. Defined.

Record field : Type := Field {
  f_name : string;
  f_kind : field_kind;
  f_null : bool;
  f_blank : bool;
  f_unique : bool;
  f_primary_key : bool;
  f_default : option value
}.

#[global] Instance field_eq_dec : EqDecision field.
Proof. solve_decision. Defined.

Record model : Type := Model {
  m_name : string;
  m_fields : list field;
  m_unique_together : list (list string)
}.

#[global] Instance model_eq_dec : EqDecision model.
Proof. solve_decision. Defined.

(** A field with the options left at their defaults ([null=False],
    [blank=False], [unique=False], [primary_key=False], no default). *)
Definition fld (n : string) (k : field_kind) : field :=
  Field n k false false false false None.

Definition with_null (f : field) : field :=
  Field (f_name f) (f_kind f) true (f_blank f) (f_unique f) (f_primary_key f) (f_default f).
Definition with_blank (f : field) : field :=
  Field (f_name f) (f_kind f) (f_null f) true (f_unique f) (f_primary_key f) (f_default f).
Definition with_unique (f : field) : field :=
  Field (f_name f) (f_kind f) (f_null f) (f_blank f) true (f_primary_key f) (f_default f).
Definition with_primary_key (f : field) : field :=
  Field (f_name f) (f_kind f) (f_null f) (f_blank f) (f_unique f) true (f_default f).
Definition with_default (v : value) (f : field) : field :=
  Field (f_name f) (f_kind f) (f_null f) (f_blank f) (f_unique f) (f_primary_key f) (Some v).

Module Decl.
Local Open Scope string_scope.

Definition TipoEstancia : model :=
  Model "TipoEstancia" [ fld "nombre" (CharField 25) ] [].

Definition Estancia : model :=
  Model "Estancia"
    [ fld "tipo" (ForeignKey "TipoEstancia" RESTRICT);
      fld "superficie" IntegerField;
      with_null (with_blank (fld "superficie_cubierta" IntegerField));
      with_default (VInt 1) (fld "numero_ventanas" IntegerField) ] [].

Definition Cliente : model :=
  Model "Cliente"
    [ fld "user" (OneToOneField "User" CASCADE "cliente");
      fld "telefono" (CharField 15);
      with_unique (fld "dni" (CharField 10)) ] [].

Definition TipoBase : model :=
  Model "TipoBase"
    [ fld "nombre" (CharField 50);
      fld "metros_habitables" IntegerField;
      fld "metros_construidos" IntegerField ] [].

Definition EstanciaTipoBase : model :=
  Model "EstanciaTipoBase"
    [ with_default (VInt 1) (fld "numero" IntegerField);
      fld "tipo_base" (ForeignKey "TipoBase" RESTRICT);
      fld "estancia" (ForeignKey "Estancia" RESTRICT) ]
    [ [ "tipo_base"; "estancia" ] ].

Definition Portal : model :=
  Model "Portal" [ with_primary_key (fld "numero" IntegerField) ] [].

Definition DocumentoPortalPromocion : model :=
  Model "DocumentoPortalPromocion"
    [ with_unique (fld "titulo" (CharField 100));
      with_unique (fld "ruta_documento" (CharField 255));
      with_null (fld "descripcion" TextField);
      fld "portal" (ForeignKey "Portal" RESTRICT);
      fld "fecha_creacion" DateField ] [].

Definition TipoBasePortal : model :=
  Model "TipoBasePortal"
    [ fld "portal" (ForeignKey "Portal" RESTRICT);
      fld "tipo_base" (ForeignKey "TipoBase" RESTRICT);
      fld "letra" (CharField 1) ] [].

Definition DocumentoTipoBasePortal : model :=
  Model "DocumentoTipoBasePortal"
    [ with_unique (fld "titulo" (CharField 100));
      with_unique (fld "ruta_documento" (CharField 255));
      fld "descripcion" TextField;
      fld "inmueble_tipo_portal" (ForeignKey "TipoBasePortal" RESTRICT) ] [].

Definition Inmueble_letra : field := fld "letra" (UpperCaseCharField 3).

Definition Inmueble : model :=
  Model "Inmueble"
    [ fld "piso" IntegerField;
      Inmueble_letra;
      fld "id_trastero" IntegerField;
      fld "superficie_trastero" IntegerField;
      fld "tipo" (ForeignKey "TipoBasePortal" RESTRICT);
      fld "propietario" (ForeignKey "Cliente" RESTRICT);
      with_default (VBool false) (fld "compra_venta_firmada" BooleanField) ] [].

Definition DocumentoInmueble : model :=
  Model "DocumentoInmueble"
    [ with_unique (fld "titulo" (CharField 100));
      with_unique (fld "ruta_documento" (CharField 255));
      fld "descripcion" TextField;
      fld "inmueble" (ForeignKey "Inmueble" RESTRICT) ] [].

Definition PlazaGaraje : model :=
  Model "PlazaGaraje"
    [ fld "largo" IntegerField;
      fld "ancho" IntegerField;
      fld "inmueble" (ForeignKey "Inmueble" RESTRICT);
      fld "portal" (ForeignKey "Portal" RESTRICT) ] [].

Definition TipoVotacion : model :=
  Model "TipoVotacion" [ fld "nombre" (CharField 20) ] [].

(** Line 251 names the class [InmuebleTipoPortal]. *)
Definition Votacion : model :=
  Model "Votacion"
    [ fld "nombre" (CharField 50);
      fld "descripcion" (CharField 50);
      fld "tipo" (ForeignKey "TipoVotacion" RESTRICT);
      fld "portal" (ForeignKey "Portal" RESTRICT);
      fld "inmueble_tipo_portal" (ForeignKey "InmuebleTipoPortal" RESTRICT) ] [].

Definition OpcionVoto : model :=
  Model "OpcionVoto"
    [ fld "opcion" (CharField 100);
      fld "votacion" (ForeignKey "Votacion" RESTRICT) ] [].

Definition ClienteOpcionVoto : model :=
  Model "ClienteOpcionVoto"
    [ fld "cliente" (ForeignKey "Cliente" RESTRICT);
      fld "opcion_voto" (ForeignKey "OpcionVoto" RESTRICT) ]
    [ [ "cliente"; "opcion_voto" ] ].

Definition ConfiguracionInmueble : model :=
  Model "ConfiguracionInmueble"
    [ fld "nombre" (CharField 50);
      fld "descripcion" TextField;
      fld "fecha_limite" DateField ] [].

Definition OpcionConfiguracion : model :=
  Model "OpcionConfiguracion"
    [ with_default (VInt 0) (fld "precio" FloatField);
      fld "opcion" (CharField 100);
      fld "configuracion" (ForeignKey "ConfiguracionInmueble" RESTRICT);
      with_default (VBool false) (fld "predeterminada" BooleanField) ] [].

Definition OpcionConfiguracionSeleccionada : model :=
  Model "OpcionConfiguracionSeleccionada"
    [ fld "ruta_documento" (CharField 100);
      with_null (fld "inmueble" (ForeignKey "Inmueble" RESTRICT));
      with_null (fld "opcion_configuracion" (ForeignKey "OpcionConfiguracion" RESTRICT)) ] [].

Definition DocumentoConfiguracionInmueble : model :=
  Model "DocumentoConfiguracionInmueble"
    [ with_unique (fld "titulo" (CharField 100));
      fld "ruta_documento" (CharField 100);
      fld "descripcion" TextField;
      fld "opcion_configuracion_inmueble"
        (ForeignKey "OpcionConfiguracionSeleccionada" RESTRICT) ] [].

(** [django.contrib.auth.models.User], imported on line 2: the account
    table of the framework, with the columns this module reads
    ([first_name], [last_name]) and its unique login name. *)
Definition User : model :=
  Model "User"
    [ with_unique (fld "username" (CharField 150));
      with_blank (fld "first_name" (CharField 150));
      with_blank (fld "last_name" (CharField 150)) ] [].
End Decl.

(** The class statements of models.py, in source order. *)
Definition models_py : list model :=
  [ Decl.TipoEstancia; Decl.Estancia; Decl.Cliente; Decl.TipoBase;
    Decl.EstanciaTipoBase; Decl.Portal; Decl.DocumentoPortalPromocion;
    Decl.TipoBasePortal; Decl.DocumentoTipoBasePortal; Decl.Inmueble;
    Decl.DocumentoInmueble; Decl.PlazaGaraje; Decl.TipoVotacion;
    Decl.Votacion; Decl.OpcionVoto; Decl.ClienteOpcionVoto;
    Decl.ConfiguracionInmueble; Decl.OpcionConfiguracion;
    Decl.OpcionConfiguracionSeleccionada; Decl.DocumentoConfiguracionInmueble ].

(** The tables of the site: the imported account table and the module's. *)
Definition site : list model := Decl.User :: models_py.


(** ** What the mapper derives from a declaration *)

(** The target and the deletion rule of a relation ([OneToOneField] is a
    [ForeignKey] with a unique column). *)
Definition relation (k : field_kind) : option (string * on_delete_t) :=
  match k with
  | ForeignKey to on_delete => Some (to, on_delete)
  | OneToOneField to on_delete _ => Some (to, on_delete)
  | _ => None
  end.

Definition is_one_to_one (k : field_kind) : bool :=
  match k with OneToOneField _ _ _ => true | _ => false end.

Definition is_auto (k : field_kind) : bool :=
  match k with AutoField => true | _ => false end.

(** The attribute and column of a field: [name], and [name_id] for a
    relation, which stores the primary key of the row it points to. *)
Definition attname (f : field) : string :=
  match relation (f_kind f) with
  | Some _ => f_name f +:+ "_id"
  | None => f_name f
  end.

(** A class that declares no primary key gets the automatic [id] column,
    in front of its own fields. *)
Definition auto_id : field := with_primary_key (fld "id" AutoField).

Definition all_fields (m : model) : list field :=
  if existsb f_primary_key (m_fields m) then m_fields m else auto_id :: m_fields m.

Definition pk_field (m : model) : field :=
  default auto_id (List.find f_primary_key (all_fields m)).

Definition pk_attname (m : model) : string := attname (pk_field m).

Definition non_pks (m : model) : list field :=
  List.filter (fun f => negb (f_primary_key f)) (all_fields m).

Definition is_unique (f : field) : bool :=
  f_unique f || f_primary_key f || is_one_to_one (f_kind f).

Definition column_of (m : model) (n : string) : string :=
  match List.find (fun f => bool_decide (f_name f = n)) (all_fields m) with
  | Some f => attname f
  | None => n
  end.

(** The uniqueness constraints of a table, each a list of columns: one per
    unique column (primary key, [unique=True], one-to-one) and one per entry
    of [unique_together]. *)
Definition constraints (m : model) : list (list string) :=
  map (fun f => [attname f]) (List.filter is_unique (all_fields m))
  ++ map (map (column_of m)) (m_unique_together m).

Definition empty_strings_allowed (k : field_kind) : bool :=
  match k with
  | CharField _ | UpperCaseCharField _ | TextField => true
  | _ => false
  end.

(** [Field.get_default]: the declared default, else [None] for a nullable
    field or one that cannot hold an empty string, else the empty string. *)
Definition get_default (f : field) : value :=
  match f_default f with
  | Some v => v
  | None =>
      if negb (empty_strings_allowed (f_kind f)) || f_null f then VNone
      else VStr ""
  end.

(** [Model.__init__] with keyword arguments, the keywords being attribute
    names: an attribute per field, from its keyword or from the field's
    default. *)
Definition kwarg (kwargs : list (string * value)) (a : string) : option value :=
  snd <$> List.find (fun kv => bool_decide (kv.1 = a)) kwargs.

Definition init (m : model) (kwargs : list (string * value)) : result instance :=
  if forallb (fun kv => bool_decide (kv.1 ∈ map attname (all_fields m))) kwargs
  then Ok (list_to_map
             (map (fun f => (attname f, default (get_default f) (kwarg kwargs (attname f))))
                  (all_fields m)))
  else Raise TypeError.

(** ** Rows, tables and the database *)

Abbreviation row := (gmap string value).
Abbreviation database := (gmap string (list (gmap string value))).

(** A table is the bag of its rows; the order of the list is not observable. *)
Definition table (db : database) (name : string) : list row := db !!! name.

Definition has_pk (pk : string) (v : value) (r : row) : Prop := r !! pk = Some v.

#[global] Instance has_pk_dec pk v r : Decision (has_pk pk v r).
Proof. unfold has_pk. apply _. Defined.

Definition pk_int (pk : string) (r : row) : Z :=
  match r !! pk with Some (VInt z) => z | _ => 0 end.

(** The id the database gives a row inserted without one: one more than the
    largest in the table. *)
Definition next_id (pk : string) (rows : list row) : Z :=
  1 + foldr (fun r acc => Z.max (pk_int pk r) acc) 0 rows.

(** The values of the columns of a constraint, if none is NULL (a NULL never
    conflicts). *)
Definition key_of (cols : list string) (r : row) : option (list value) :=
  mapM (fun c => match r !! c with
                 | Some VNone | None => None
                 | Some v => Some v
                 end) cols.

Definition conflicts (cols : list string) (r r' : row) : Prop :=
  is_Some (key_of cols r) ∧ key_of cols r = key_of cols r'.

#[global] Instance conflicts_dec cols r r' : Decision (conflicts cols r r').
Proof. unfold conflicts. apply _. Defined.

Definition not_null_ok (m : model) (r : row) : bool :=
  forallb (fun f => f_null f
                    || bool_decide (is_Some (r !! attname f) ∧ r !! attname f ≠ Some VNone))
          (all_fields m).

Definition unique_ok (m : model) (r : row) (others : list row) : bool :=
  forallb (fun cols => bool_decide (Forall (fun r' => ¬ conflicts cols r r') others))
          (constraints m).

(** ** Conversions of [get_prep_value] *)

(** [int(value)].  A [str] argument is a numeral to parse; the tables are
    modelled with typed numbers and every [str] is answered as [int] answers
    one that is no numeral. *)
Definition to_int (v : value) : result value :=
  match v with
  | VNone => Ok VNone
  | VInt z => Ok (VInt z)
  | VBool b => Ok (VInt (if b then 1 else 0))
  | VStr _ => Raise ValueError
  | VDate _ => Raise TypeError
  end.

(** [CharField.to_python]: a [str] or [None] as it is, else [str(value)]
    (the ISO text of a date). *)
Definition to_str (v : value) : result value :=
  match v with
  | VNone => Ok VNone
  | VStr s => Ok (VStr s)
  | VInt z => Ok (VStr (pretty z))
  | VBool b => Ok (VStr (if b then "True" else "False"))
  | VDate d => Ok (VStr d)
  end.

(** [BooleanField.to_python]. *)
Definition to_bool (v : value) : result value :=
  match v with
  | VNone => Ok VNone
  | VBool b => Ok (VBool b)
  | VInt z =>
      if z =? 1 then Ok (VBool true)
      else if z =? 0 then Ok (VBool false) else Raise ValidationError
  | VStr s =>
      if bool_decide (s ∈ ["t"; "True"; "1"]%string) then Ok (VBool true)
      else if bool_decide (s ∈ ["f"; "False"; "0"]%string) then Ok (VBool false)
      else Raise ValidationError
  | VDate _ => Raise ValidationError
  end.

(** [DateField.to_python]; a [str] is a date to parse, answered as one that
    does not parse. *)
Definition to_date (v : value) : result value :=
  match v with
  | VNone => Ok VNone
  | VDate d => Ok (VDate d)
  | VStr _ => Raise ValidationError
  | _ => Raise TypeError
  end.

Definition prep_scalar (k : field_kind) (v : value) : result value :=
  match k with
  | CharField _ | UpperCaseCharField _ | TextField => to_str v
  | BooleanField => to_bool v
  | DateField => to_date v
  | _ => to_int v
  end.

(** ** Saving and deleting *)

Section Engine.

Variable str_upper : string -> string.

(** The registered models: a table per class. *)
Variable S : list model.

Definition find_model (name : string) : option model :=
  List.find (fun m => bool_decide (m_name m = name)) S.

(** [Field.get_prep_value]: a relation converts with the primary key of its
    target class (an integer key when the target names no registered
    class). *)
Definition get_prep_value (f : field) (v : value) : result value :=
  match relation (f_kind f) with
  | Some (to, _) =>
      match find_model to with
      | Some tm => prep_scalar (f_kind (pk_field tm)) v
      | None => prep_scalar (f_kind f) v
      end
  | None => prep_scalar (f_kind f) v
  end.

(** What a field's [pre_save] returns for the value the attribute holds. *)
Definition hook_value (f : field) (v : value) : result value :=
  match f_kind f with
  | UpperCaseCharField _ => if truthy v then upper str_upper v else Ok v
  | _ => Ok v
  end.

(** The hook of each field class. *)
Definition pre_save (f : field) (model_instance : instance) (add : bool)
    : result value * instance :=
  match f_kind f with
  | UpperCaseCharField _ =>
      UpperCaseCharField_pre_save str_upper (attname f) model_instance add
  | _ => Field_pre_save (attname f) model_instance add
  end.

(** The column values of a save: each field's [pre_save], in field order on
    the one instance, then [get_prep_value]. *)
Fixpoint prepare (fs : list field) (inst : instance) (add : bool)
    : result (row * instance) :=
  match fs with
  | [] => Ok (∅, inst)
  | f :: fs' =>
      let '(r, inst1) := pre_save f inst add in
      v ← r;
      v' ← get_prep_value f v;
      '(cols, inst2) ← prepare fs' inst1 add;
      Ok (<[attname f := v']> cols, inst2)
  end.

(** The same columns as an association list, each read from the attribute
    of its own field. *)
Definition stored_value (inst : instance) (f : field) : result value :=
  v0 ← getattr inst (attname f);
  v1 ← hook_value f v0;
  get_prep_value f v1.

Fixpoint stored_values (fs : list field) (inst : instance)
    : result (list (string * value)) :=
  match fs with
  | [] => Ok []
  | f :: fs' =>
      v ← stored_value inst f;
      l ← stored_values fs' inst;
      Ok ((attname f, v) :: l)
  end.

(** The stored value of a field, from the value the instance holds. *)
Definition stored_from (inst : instance) (f : field) (r : row) : Prop :=
  ∃ v0 v1 v', inst !! attname f = Some v0
    ∧ hook_value f v0 = Ok v1
    ∧ get_prep_value f v1 = Ok v'
    ∧ r !! attname f = Some v'.

(** The references of a row: target table and key, for each relation whose
    column is not NULL. *)
Definition fk_refs (m : model) (r : row) : list (string * value) :=
  omap (fun f =>
    match relation (f_kind f), r !! attname f with
    | Some (to, _), Some v => if decide (v = VNone) then None else Some (to, v)
    | _, _ => None
    end) (all_fields m).

(** The FOREIGN KEY check: a reference is the primary key of a row of the
    target table.  A target that names no registered class has no table, and
    its column no constraint. *)
Definition ref_ok (db : database) (tv : string * value) : Prop :=
  match find_model tv.1 with
  | Some tm => Exists (has_pk (pk_attname tm) tv.2) (table db tv.1)
  | None => True
  end.

#[global] Instance ref_ok_dec db tv : Decision (ref_ok db tv).
Proof. unfold ref_ok. destruct (find_model tv.1); apply _. Defined.

Definition fk_ok (db : database) (m : model) (r : row) : bool :=
  forallb (fun tv => bool_decide (ref_ok db tv)) (fk_refs m r).

Definition checks (db : database) (m : model) (r : row) (others : list row) : bool :=
  not_null_ok m r && unique_ok m r others && fk_ok db m r.

(** INSERT.  Without a primary key value the automatic field is left out and
    the database numbers the row. *)
Definition db_insert (db : database) (m : model) (inst : instance)
    : result (database * instance) :=
  let pk := pk_attname m in
  let rows := table db (m_name m) in
  let pk_set := bool_decide (getattr_default inst pk VNone ≠ VNone) in
  let fields :=
    if pk_set then all_fields m
    else List.filter (fun f => negb (is_auto (f_kind f))) (all_fields m) in
  '(cols, inst') ← prepare fields inst true;
  let '(r, inst'') :=
    if negb pk_set && is_auto (f_kind (pk_field m))
    then (<[pk := VInt (next_id pk rows)]> cols,
          setattr inst' pk (VInt (next_id pk rows)))
    else (cols, inst') in
  if checks db m r rows then Ok (<[m_name m := r :: rows]> db, inst'')
  else Raise IntegrityError.

(** [Model.save]: with a primary key value and without [force_insert], an
    UPDATE of the row with that key; when there is none (or no key), an
    INSERT.  The hooks run for the UPDATE attempt and again for the INSERT
    that follows a failed one. *)
Definition save (db : database) (name : string) (inst : instance)
    (force_insert : bool) : result (database * instance) :=
  match find_model name with
  | None => Raise LookupError
  | Some m =>
      let pk := pk_attname m in
      let rows := table db name in
      let pk_val := getattr_default inst pk VNone in
      if bool_decide (pk_val ≠ VNone) && negb force_insert then
        pkv ← get_prep_value (pk_field m) pk_val;
        '(cols, inst1) ← prepare (non_pks m) inst false;
        if bool_decide (Exists (has_pk pk pkv) rows) then
          let r := <[pk := pkv]> cols in
          let others := filter (fun r' => ¬ has_pk pk pkv r') rows in
          if checks db m r others then Ok (<[name := r :: others]> db, inst1)
          else Raise IntegrityError
        else db_insert db m inst1
      else db_insert db m inst
  end.

(** [Model.objects.create] with keyword arguments: a forced INSERT. *)
Definition create (db : database) (name : string) (kwargs : list (string * value))
    : result (database * instance) :=
  match find_model name with
  | None => Raise LookupError
  | Some m => inst ← init m kwargs; save db name inst true
  end.

(** A row of the database: the table it is in and its primary key. *)
Abbreviation key := (string * value)%type.

Definition collected (C : list key) (m : model) (r : row) : Prop :=
  match r !! pk_attname m with
  | Some v => (m_name m, v) ∈ C
  | None => False
  end.

#[global] Instance collected_dec C m r : Decision (collected C m r).
Proof. unfold collected. destruct (r !! pk_attname m); apply _. Defined.

(** Row [r] of class [m] points at row [k] through a relation whose
    deletion rule is [od]. *)
Definition refers (od : on_delete_t) (m : model) (r : row) (k : key) : Prop :=
  Exists (fun f => relation (f_kind f) = Some (k.1, od) ∧ r !! attname f = Some k.2)
         (all_fields m).

#[global] Instance refers_dec od m r k : Decision (refers od m r k).
Proof. unfold refers. apply _. Defined.

Definition referrers (od : on_delete_t) (db : database) (k : key) : list key :=
  m ← S;
  r ← table db (m_name m);
  if decide (refers od m r k)
  then match r !! pk_attname m with Some v => [(m_name m, v)] | None => [] end
  else [].

(** One round of the collector: the rows that point at a collected row
    through a CASCADE relation are collected too. *)
Definition cascade_step (db : database) (C : list key) : list key :=
  C ++ list_difference (remove_dups (C ≫= referrers CASCADE db)) C.

(** The keys of all the rows, and their number at most. *)
Definition keys (db : database) : list key :=
  m ← S;
  r ← table db (m_name m);
  match r !! pk_attname m with Some v => [(m_name m, v)] | None => [] end.

Definition db_size (db : database) : nat :=
  foldr (fun m n => (length (table db (m_name m)) + n)%nat) 0%nat S.

(** The collection: as many rounds as there are rows, and one more; a round
    that collects nothing new ends it, and each round before collects a
    row. *)
Definition collect (db : database) (k : key) : list key :=
  Nat.iter (Datatypes.S (db_size db)) (cascade_step db) [k].

(** A set of rows that no row outside points at through a CASCADE
    relation. *)
Definition closed (db : database) (C : list key) : Prop :=
  ∀ y x, y ∈ C -> x ∈ referrers CASCADE db y -> x ∈ C.

(** The rows left out of the collection that point at a collected row, by
    the deletion rule of the relation they point through. *)
Definition blockers (od : on_delete_t) (db : database) (C : list key)
    : list (string * row) :=
  m ← S;
  r ← table db (m_name m);
  if decide (¬ collected C m r ∧ Exists (refers od m r) C)
  then [(m_name m, r)] else [].

Definition remove (C : list key) (db : database) : database :=
  map_imap (fun n rows =>
    Some (match find_model n with
          | Some m => filter (fun r => ¬ collected C m r) rows
          | None => rows
          end)) db.

(** [Model.delete]: collect along the CASCADE relations; a row outside the
    collection that points at it through a RESTRICT relation stops the
    deletion ([RestrictedError]), and the database refuses to leave any
    other reference dangling; else the collected rows go.  An instance
    without a primary key value cannot be deleted. *)
Definition delete (db : database) (name : string) (pk : value) : result database :=
  match find_model name with
  | None => Raise LookupError
  | Some _ =>
      if decide (pk = VNone) then Raise ValueError
      else
        let C := collect db (name, pk) in
        match blockers RESTRICT db C, blockers CASCADE db C with
        | [], [] => Ok (remove C db)
        | _ :: _, _ => Raise RestrictedError
        | [], _ :: _ => Raise IntegrityError
        end
  end.

(** The states of the database: empty at first, then changed by saves and
    deletes that succeed. *)
Inductive reachable : database -> Prop :=
| reach_empty : reachable ∅
| reach_save db name inst force_insert db' inst' :
    reachable db ->
    save db name inst force_insert = Ok (db', inst') ->
    reachable db'
| reach_delete db name pk db' :
    reachable db ->
    delete db name pk = Ok db' ->
    reachable db'.

(** A script of operations, run from a state; it stops at the first that
    raises. *)
Inductive op : Type :=
| Create (name : string) (kwargs : list (string * value))
| Save (name : string) (inst : instance) (force_insert : bool)
| Delete (name : string) (pk : value).

Definition run_op (db : database) (o : op) : result database :=
  match o with
  | Create name kwargs => p ← create db name kwargs; Ok p.1
  | Save name inst force_insert => p ← save db name inst force_insert; Ok p.1
  | Delete name pk => delete db name pk
  end.

Fixpoint run (ops : list op) (db : database) : result database :=
  match ops with
  | [] => Ok db
  | o :: ops' => db' ← run_op db o; run ops' db'
  end.

End Engine.

(** ** Executing the module *)

(** The class statements run in order; a relation evaluates the name of its
    target when the class body runs, and the class name is bound after it. *)
Definition unbound (ns : list string) (c : model) : option string :=
  fst <$> List.find (fun tr => negb (bool_decide (tr.1 ∈ ns)))
                    (omap (fun f => relation (f_kind f)) (m_fields c)).

Fixpoint exec_classes (ns : list string) (classes : list model)
    : result (list string) :=
  match classes with
  | [] => Ok ns
  | c :: cs =>
      match unbound ns c with
      | Some n => Raise (NameError n)
      | None => exec_classes (m_name c :: ns) cs
      end
  end.

(** The two imports bind [models] and [User]. *)
Definition import_module : result (list string) :=
  exec_classes ["models"; "User"]%string models_py.

(** ** The text of a building *)

(** [str(value)], as an f-string formats it. *)
Definition py_str (v : value) : string :=
  match v with
  | VNone => "None"
  | VBool b => if b then "True" else "False"
  | VInt z => pretty z
  | VStr s => s
  | VDate d => d
  end.

(** [Portal.__str__] (lines 139-140): the text "Portal " and [self.id]. *)
Definition Portal_str (self : instance) : result string :=
  id ← getattr self "id";
  Ok ("Portal " +:+ py_str id).

(** ** The invariant of the tables *)

(** The Python type of a stored value against the class of its column. *)
Definition has_type (k : field_kind) (v : value) : Prop :=
  match v with
  | VNone => True
  | VStr _ => empty_strings_allowed k = true
  | VBool _ => k = BooleanField
  | VDate _ => k = DateField
  | VInt _ => empty_strings_allowed k = false ∧ k ≠ BooleanField ∧ k ≠ DateField
  end.

(** No two rows of the list agree on the columns [cols]. *)
Fixpoint distinct_on (cols : list string) (rows : list row) : Prop :=
  match rows with
  | [] => True
  | r :: rs => Forall (fun r' => ¬ conflicts cols r r') rs ∧ distinct_on cols rs
  end.

(** What the engine relies on in a class: no two fields share a column, one
    field is the primary key, and an automatic field is the primary key. *)
Definition wf_model (m : model) : bool :=
  bool_decide (NoDup (map attname (all_fields m)))
  && bool_decide (List.filter f_primary_key (all_fields m) = [pk_field m])
  && forallb (fun f => implb (is_auto (f_kind f)) (f_primary_key f)) (all_fields m).

Section Invariant.

Variable S : list model.

(** The class whose conversion a column's values went through. *)
Definition col_kind (f : field) : field_kind :=
  match relation (f_kind f) with
  | Some (to, _) =>
      match find_model S to with
      | Some tm => f_kind (pk_field tm)
      | None => f_kind f
      end
  | None => f_kind f
  end.

(** A row has a value of the right type in every column, NULL only where
    the field allows it. *)
Definition row_ok (m : model) (r : row) : Prop :=
  ∀ f, f ∈ all_fields m ->
    ∃ v, r !! attname f = Some v ∧ has_type (col_kind f) v
         ∧ (f_null f = false -> v ≠ VNone).

Definition table_ok (m : model) (rows : list row) : Prop :=
  Forall (row_ok m) rows ∧ ∀ cols, cols ∈ constraints m -> distinct_on cols rows.

Definition db_ok (db : database) : Prop :=
  ∀ name m, find_model S name = Some m -> table_ok m (table db name).

(** Every reference of every row is the key of a row of its target table. *)
Definition refs_ok (db : database) : Prop :=
  ∀ name m (r : row), find_model S name = Some m -> r ∈ table db name ->
    Forall (ref_ok S db) (fk_refs m r).

End Invariant.

(** ** A run of the site *)

(** Two accounts and their owners, a building with a unit of the first
    owner, a room in a floor plan, a document, a vote with two options, one
    of them chosen by the first owner, a customization with one option, and
    a second room. *)
Definition demo_script : list op :=
  let s := VStr in
  [ Create "User" [("username", s "ana")];
    Create "User" [("username", s "benito")];
    Create "Cliente" [("user_id", VInt 1); ("telefono", s "600100200"); ("dni", s "1X")];
    Create "Cliente" [("user_id", VInt 2); ("telefono", s "600100300"); ("dni", s "2Y")];
    Create "Portal" [("numero", VInt 7)];
    Create "TipoBase" [("nombre", s "A3"); ("metros_habitables", VInt 80);
                       ("metros_construidos", VInt 95)];
    Create "TipoBasePortal" [("portal_id", VInt 7); ("tipo_base_id", VInt 1);
                             ("letra", s "A")];
    Create "Inmueble" [("piso", VInt 1); ("letra", s "bc"); ("id_trastero", VInt 4);
                       ("superficie_trastero", VInt 6); ("tipo_id", VInt 1);
                       ("propietario_id", VInt 1)];
    Create "TipoEstancia" [("nombre", s "Dormitorio")];
    Create "Estancia" [("tipo_id", VInt 1); ("superficie", VInt 12)];
    Create "EstanciaTipoBase" [("tipo_base_id", VInt 1); ("estancia_id", VInt 1)];
    Create "DocumentoPortalPromocion"
      [("titulo", s "Plano"); ("ruta_documento", s "/docs/plano.pdf");
       ("portal_id", VInt 7); ("fecha_creacion", VDate "2021-03-01")];
    Create "TipoVotacion" [("nombre", s "Portal")];
    Create "Votacion" [("nombre", s "Color"); ("descripcion", s "Color del portal");
                       ("tipo_id", VInt 1); ("portal_id", VInt 7);
                       ("inmueble_tipo_portal_id", VInt 1)];
    Create "OpcionVoto" [("opcion", s "Blanco"); ("votacion_id", VInt 1)];
    Create "OpcionVoto" [("opcion", s "Gris"); ("votacion_id", VInt 1)];
    Create "ClienteOpcionVoto" [("cliente_id", VInt 1); ("opcion_voto_id", VInt 1)];
    Create "ConfiguracionInmueble"
      [("nombre", s "Suelos"); ("descripcion", s "Tipo de suelo");
       ("fecha_limite", VDate "2021-06-30")];
    Create "OpcionConfiguracion" [("opcion", s "Tarima"); ("configuracion_id", VInt 1)];
    Create "Estancia" [("tipo_id", VInt 1); ("superficie", VInt 9)] ]%string.

Definition state_of (r : result database) : database :=
  match r with Ok db => db | Raise _ => ∅ end.

Definition demo_db : database := state_of (run ascii_upper site demo_script ∅).

Definition db_of (r : result (database * instance)) : database :=
  match r with Ok p => p.1 | Raise _ => ∅ end.

Definition inst_of (r : result (database * instance)) : instance :=
  match r with Ok p => p.2 | Raise _ => ∅ end.

(** A second unit of the first owner, not saved yet. *)
Definition demo_inmueble : instance :=
  list_to_map
    [ ("id", VNone); ("piso", VInt 2); ("letra", VStr "d"); ("id_trastero", VInt 5);
      ("superficie_trastero", VInt 6); ("tipo_id", VInt 1); ("propietario_id", VInt 1);
      ("compra_venta_firmada", VBool false) ]%string.

(** The same unit under a key that no row has: its save tries an UPDATE and
    falls back to an INSERT. *)
Definition demo_inmueble_keyed : instance :=
  list_to_map
    [ ("id", VInt 9); ("piso", VInt 2); ("letra", VStr "d"); ("id_trastero", VInt 5);
      ("superficie_trastero", VInt 6); ("tipo_id", VInt 1); ("propietario_id", VInt 1);
      ("compra_venta_firmada", VBool false) ]%string.

(** The run continued: a selection and the document of it, and a third
    account, with its names, and its owner. *)
Definition demo_documents : list op :=
  let s := VStr in
  [ Create "OpcionConfiguracionSeleccionada"
      [("ruta_documento", s "/sel/1.pdf"); ("inmueble_id", VInt 1);
       ("opcion_configuracion_id", VInt 1)];
    Create "DocumentoConfiguracionInmueble"
      [("titulo", s "Suelo"); ("ruta_documento", s "/docs/suelo.pdf");
       ("descripcion", s "Tarima");
       ("opcion_configuracion_inmueble_id", VInt 1)];
    Create "User" [("username", s "carla"); ("first_name", s "Carla");
                   ("last_name", s "Ruiz")];
    Create "Cliente" [("user_id", VInt 3); ("telefono", s "600100400");
                      ("dni", s "3Z")] ]%string.

Definition demo_db_documents : database :=
  state_of (run ascii_upper site demo_documents demo_db).

(** The row at a place of a table (the last saved row is at place 0). *)
Definition row_at (db : database) (name : string) (i : nat) : row :=
  default ∅ (table db name !! i).

(** ** Fetching rows *)

(** What a query raises beside the built-in exceptions: the [DoesNotExist]
    and the [MultipleObjectsReturned] of a class, and the
    [RelatedObjectDoesNotExist] of a relation attribute that holds no
    object. *)
Inductive error : Type :=
| Builtin (e : exn)
| DoesNotExist (model : string)
| MultipleObjectsReturned (model : string)
| RelatedObjectDoesNotExist (model : string) (accessor : string).

#[global] Instance error_eq_dec : EqDecision error.
Proof. solve_decision. Defined.

(** A computation that reads the database: it returns or raises. *)
Inductive outcome (A : Type) : Type :=
| Returns (a : A)
| Raises (e : error).
Arguments Returns {A} a.
Arguments Raises {A} e.

#[global] Instance outcome_ret : MRet outcome := fun A a => Returns a.
#[global] Instance outcome_bind : MBind outcome := fun A B k r =>
  match r with
  | Returns a => k a
  | Raises e => Raises e
  end.

Definition lift {A : Type} (r : result A) : outcome A :=
  match r with
  | Ok a => Returns a
  | Raise e => Raises (Builtin e)
  end.

(** [Model.from_db]: the instance of a fetched row, an attribute per field
    of the class and no other. *)
Definition from_db (m : model) (r : row) : instance :=
  list_to_map (map (fun f => (attname f, default VNone (r !! attname f)))
                   (all_fields m)).

(** [Model.objects.get] on one column: the one row that holds the value. *)
Definition objects_get (db : database) (m : model) (col : string) (v : value)
    : outcome instance :=
  match filter (has_pk col v) (table db (m_name m)) with
  | [] => Raises (DoesNotExist (m_name m))
  | [r] => Returns (from_db m r)
  | _ :: _ :: _ => Raises (MultipleObjectsReturned (m_name m))
  end.

Definition field_named (m : model) (name : string) : option field :=
  List.find (fun f => bool_decide (f_name f = name)) (all_fields m).

Section Fetch.

Variable S : list model.

(** Reading the attribute of a relation ([self.tipo]) on an instance that
    has not cached the object: [None] for an empty nullable relation,
    [RelatedObjectDoesNotExist] for an empty one that is not nullable, else
    the object of the target class whose primary key the column holds,
    fetched from the database.  The attribute is defined for the names of
    the relations of the class; any other name is answered with
    [AttributeError]. *)
Definition related (db : database) (m : model) (name : string) (self : instance)
    : outcome (option instance) :=
  match field_named m name with
  | None => Raises (Builtin AttributeError)
  | Some f =>
      match relation (f_kind f) with
      | None => Raises (Builtin AttributeError)
      | Some (to, _) =>
          v ← lift (getattr self (attname f));
          if decide (v = VNone) then
            if f_null f then Returns None
            else Raises (RelatedObjectDoesNotExist (m_name m) name)
          else
            match find_model S to with
            | None => Raises (Builtin LookupError)
            | Some tm =>
                pk ← lift (prep_scalar (f_kind (pk_field tm)) v);
                rel_obj ← objects_get db tm (pk_attname tm) pk;
                Returns (Some rel_obj)
            end
      end
  end.

(** Reading the reverse attribute of a one-to-one relation on an instance
    [self] of the target class [tm] ([user.cliente], the [related_name] of
    the relation [name] of class [m]): the one object of [m] that points at
    [self]; [RelatedObjectDoesNotExist] when [self] has no key or no object
    points at it. *)
Definition reverse_related (db : database) (m : model) (name : string)
    (tm : model) (accessor : string) (self : instance) : outcome instance :=
  match field_named m name with
  | None => Raises (Builtin AttributeError)
  | Some f =>
      related_pk ← lift (getattr self (pk_attname tm));
      if decide (related_pk = VNone)
      then Raises (RelatedObjectDoesNotExist (m_name tm) accessor)
      else
        v ← lift (get_prep_value S f related_pk);
        match objects_get db m (attname f) v with
        | Returns rel_obj => Returns rel_obj
        | Raises (DoesNotExist _) =>
            Raises (RelatedObjectDoesNotExist (m_name tm) accessor)
        | Raises e => Raises e
        end
  end.

End Fetch.

(** ** The texts of the instances *)

(** [str(obj)] demands a [str] of [__str__]. *)
Definition str_result (v : value) : outcome string :=
  match v with
  | VStr s => Returns s
  | _ => Raises (Builtin TypeError)
  end.

(** An f-string field that holds the object of a relation: the object by
    its [__str__], and [None] by its name. *)
Definition format_related (str_ : instance -> outcome string) (o : option instance)
    : outcome string :=
  match o with
  | Some obj => str_ obj
  | None => Returns "None"%string
  end.

(** An attribute of the object of a relation ([self.user.first_name]). *)
Definition getattr_related (o : option instance) (name : string) : outcome value :=
  match o with
  | Some obj => lift (getattr obj name)
  | None => Raises (Builtin AttributeError)
  end.

(** [value == 0]. *)
Definition eq_zero (v : value) : bool :=
  match v with
  | VInt z => z =? 0
  | VBool b => negb b
  | _ => false
  end.

(** [TipoEstancia.__str__] (lines 39-40). *)
Definition TipoEstancia_str (self : instance) : outcome string :=
  nombre ← lift (getattr self "nombre");
  str_result nombre.

(** [Estancia.__str__] (lines 61-62). *)
Definition Estancia_str (db : database) (self : instance) : outcome string :=
  tipo ← related site db Decl.Estancia "tipo" self;
  s_tipo ← format_related TipoEstancia_str tipo;
  superficie ← lift (getattr self "superficie");
  Returns (s_tipo +:+ " (" +:+ py_str superficie +:+ " m2)").

(** [Cliente.__str__] (lines 80-81). *)
Definition Cliente_str (db : database) (self : instance) : outcome string :=
  user ← related site db Decl.Cliente "user" self;
  first_name ← getattr_related user "first_name";
  user' ← related site db Decl.Cliente "user" self;
  last_name ← getattr_related user' "last_name";
  dni ← lift (getattr self "dni");
  Returns (py_str first_name +:+ " " +:+ py_str last_name +:+ " - " +:+ py_str dni).

(** [TipoBase.__str__] (lines 101-102). *)
Definition TipoBase_str (self : instance) : outcome string :=
  nombre ← lift (getattr self "nombre");
  metros_habitables ← lift (getattr self "metros_habitables");
  Returns (py_str nombre +:+ " (" +:+ py_str metros_habitables +:+ " m2)").

(** [TipoBasePortal.__str__] (lines 181-182). *)
Definition TipoBasePortal_str (db : database) (self : instance) : outcome string :=
  tipo_base ← related site db Decl.TipoBasePortal "tipo_base" self;
  s_tipo_base ← format_related TipoBase_str tipo_base;
  portal ← related site db Decl.TipoBasePortal "portal" self;
  s_portal ← format_related (fun obj => lift (Portal_str obj)) portal;
  Returns (s_tipo_base +:+ " - " +:+ s_portal).

(** [Inmueble.to_str_inmuebles_propietario] (lines 220-224). *)
Definition Inmueble_to_str_inmuebles_propietario (db : database) (self : instance)
    : outcome string :=
  piso ← lift (getattr self "piso");
  if eq_zero piso then
    tipo ← related site db Decl.Inmueble "tipo" self;
    s_tipo ← format_related (TipoBasePortal_str db) tipo;
    letra ← lift (getattr self "letra");
    Returns (s_tipo +:+ " - Bajo " +:+ py_str letra)
  else
    tipo ← related site db Decl.Inmueble "tipo" self;
    s_tipo ← format_related (TipoBasePortal_str db) tipo;
    piso' ← lift (getattr self "piso");
    letra ← lift (getattr self "letra");
    Returns (s_tipo +:+ " - " +:+ py_str piso' +:+ "º " +:+ py_str letra).

(** [Inmueble.__str__] (lines 215-219). *)
Definition Inmueble_str (db : database) (self : instance) : outcome string :=
  piso ← lift (getattr self "piso");
  if eq_zero piso then
    tipo ← related site db Decl.Inmueble "tipo" self;
    s_tipo ← format_related (TipoBasePortal_str db) tipo;
    letra ← lift (getattr self "letra");
    propietario ← related site db Decl.Inmueble "propietario" self;
    s_propietario ← format_related (Cliente_str db) propietario;
    Returns (s_tipo +:+ " - Bajo " +:+ py_str letra +:+ "    " +:+ s_propietario)
  else
    tipo ← related site db Decl.Inmueble "tipo" self;
    s_tipo ← format_related (TipoBasePortal_str db) tipo;
    piso' ← lift (getattr self "piso");
    letra ← lift (getattr self "letra");
    propietario ← related site db Decl.Inmueble "propietario" self;
    s_propietario ← format_related (Cliente_str db) propietario;
    Returns (s_tipo +:+ " - " +:+ py_str piso' +:+ "º " +:+ py_str letra
             +:+ "    " +:+ s_propietario).


(** [user.cliente]: the reverse of [Cliente.user], under the name its
    [related_name] gives it (line 76). *)
Definition User_cliente (db : database) (user : instance) : outcome instance :=
  reverse_related site db Decl.Cliente "user" Decl.User "cliente" user.

(** ** Seeding the room types *)


Section Seed.

Variable str_upper : string -> string.



End Seed.


(** Membership in a list that computes to a literal. *)
Ltac in_list := vm_compute; solve [repeat constructor].

(** * Properties *)

(** ** The result monad and the lists of rows *)

Lemma bind_Ok {A B : Type} (r : result A) (k : A -> result B) (b : B) :
  r ≫= k = Ok b -> ∃ a, r = Ok a ∧ k a = Ok b.
Proof. destruct r as [a|e]; [eauto | discriminate]. Qed.

Lemma distinct_on_sublist cols (l1 l2 : list row) :
  sublist l1 l2 -> distinct_on cols l2 -> distinct_on cols l1.
Proof.
  induction 1 as [|r l1 l2 Hs IH|r l1 l2 Hs IH]; simpl; [done| |].
  - intros [Hr Hd]. split; [|by apply IH].
    apply Forall_forall. intros r' Hin.
    rewrite Forall_forall in Hr. apply Hr. by eapply elem_of_sublist.
  - intros [_ Hd]. by apply IH.
Qed.

Lemma conflicts_sym cols (r r' : row) : conflicts cols r r' -> conflicts cols r' r.
Proof. unfold conflicts. intros [Hs He]. split; [by rewrite <- He | done]. Qed.

(** Two rows at different places of a [distinct_on] list do not conflict. *)
Lemma distinct_on_lookup cols (rows : list row) i j r1 r2 :
  distinct_on cols rows ->
  rows !! i = Some r1 -> rows !! j = Some r2 ->
  conflicts cols r1 r2 -> i = j.
Proof.
  revert i j. induction rows as [|r rs IH]; intros i j Hd Hi Hj Hc; [done|].
  destruct Hd as [Hr Hd]. rewrite Forall_forall in Hr.
  destruct i as [|i], j as [|j]; simpl in *; simplify_eq; [done| | |].
  - exfalso. eapply Hr; [|exact Hc]. by eapply list_elem_of_lookup_2.
  - exfalso. eapply Hr; [|exact (conflicts_sym _ _ _ Hc)].
    by eapply list_elem_of_lookup_2.
  - f_equal. by eapply IH.
Qed.

Lemma key_of_Some cols (r : row) :
  (∀ c, c ∈ cols -> ∃ v, r !! c = Some v ∧ v ≠ VNone) -> is_Some (key_of cols r).
Proof.
  intros H. apply mapM_is_Some, Forall_forall. intros c Hc.
  destruct (H c Hc) as (v & Hl & Hv). simpl. rewrite Hl. by destruct v.
Qed.

Lemma mapM_ext_in {A B : Type} (f g : A -> option B) (l : list A) :
  (∀ x, x ∈ l -> f x = g x) -> mapM f l = mapM g l.
Proof.
  induction l as [|x l IH]; intros H; [done|].
  simpl. rewrite (H x) by apply list_elem_of_here. rewrite IH; [done|].
  intros y Hy. apply H. by apply list_elem_of_further.
Qed.

Lemma key_of_ext cols (r r' : row) :
  (∀ c, c ∈ cols -> r !! c = r' !! c) -> key_of cols r = key_of cols r'.
Proof.
  intros H. apply mapM_ext_in. intros c Hc. by rewrite (H c Hc).
Qed.

(** Two rows conflict on a list of columns exactly when they hold the same
    non-NULL value in each. *)
Lemma conflicts_iff cols (r r' : row) :
  conflicts cols r r'
  ↔ ∀ c, c ∈ cols -> ∃ v, r !! c = Some v ∧ r' !! c = Some v ∧ v ≠ VNone.
Proof.
  unfold conflicts, key_of. split.
  - intros [[k Hk] He]. rewrite Hk in He. symmetry in He.
    apply mapM_Some in Hk, He. revert k Hk He.
    induction cols as [|c0 cols IH]; intros k Hk He c Hc.
    { by apply elem_of_nil in Hc. }
    inversion Hk as [|? v ? k' Hv Hk']; subst.
    inversion He as [|? ? ? ? Hv' He']; subst.
    apply elem_of_cons in Hc as [->|Hc]; [|by eapply IH].
    exists v. destruct (r !! c0) as [[]|], (r' !! c0) as [[]|]; by simplify_eq.
  - intros H. split.
    + apply key_of_Some. intros c Hc. destruct (H c Hc) as (v & ? & _ & ?). eauto.
    + apply key_of_ext. intros c Hc. destruct (H c Hc) as (v & -> & -> & _). done.
Qed.

Lemma pk_int_le_next pk (rows : list row) (r : row) :
  r ∈ rows -> pk_int pk r < next_id pk rows.
Proof.
  unfold next_id. induction rows as [|r0 rows IH]; intros Hin.
  { by apply elem_of_nil in Hin. }
  simpl. apply elem_of_cons in Hin as [->|Hin]; [lia|].
  specialize (IH Hin). lia.
Qed.

(** The id the database gives is the id of no row of the table. *)
Lemma next_id_fresh pk (rows : list row) (r r' : row) :
  r !! pk = Some (VInt (next_id pk rows)) -> r' ∈ rows -> ¬ conflicts [pk] r r'.
Proof.
  intros Hr Hin Hc.
  destruct (proj1 (conflicts_iff _ _ _) Hc pk) as (v & Hv & Hv' & _); [apply list_elem_of_here|].
  pose proof (pk_int_le_next pk rows r' Hin) as Hlt.
  unfold pk_int in Hlt. rewrite Hv' in Hlt. rewrite Hr in Hv. simplify_eq. lia.
Qed.

(** ** The engine keeps the invariant *)

Lemma prep_scalar_type k v v' : prep_scalar k v = Ok v' -> has_type k v'.
Proof.
  destruct k, v; simpl; intros H; repeat case_match; simplify_eq; simpl; done.
Qed.

Lemma wf_model_NoDup m : wf_model m = true -> NoDup (map attname (all_fields m)).
Proof.
  unfold wf_model. rewrite !andb_true_iff. intros [[H _] _].
  by apply bool_decide_eq_true in H.
Qed.

Lemma wf_model_pk m f :
  wf_model m = true -> f ∈ all_fields m -> f_primary_key f = true -> f = pk_field m.
Proof.
  unfold wf_model. rewrite !andb_true_iff. intros [[_ H] _] Hin Hpk.
  apply bool_decide_eq_true in H.
  assert (In f (List.filter f_primary_key (all_fields m))) as Hf.
  { apply filter_In. split; [by apply list_elem_of_In | done]. }
  rewrite H in Hf. destruct Hf as [<-|[]]. done.
Qed.

Lemma wf_model_pk_in m :
  wf_model m = true -> pk_field m ∈ all_fields m ∧ f_primary_key (pk_field m) = true.
Proof.
  unfold wf_model. rewrite !andb_true_iff. intros [[_ H] _].
  apply bool_decide_eq_true in H.
  assert (In (pk_field m) (List.filter f_primary_key (all_fields m))) as Hf.
  { rewrite H. by left. }
  apply filter_In in Hf as [Hin Hpk]. split; [by apply list_elem_of_In | done].
Qed.

Lemma wf_model_auto m f :
  wf_model m = true -> f ∈ all_fields m -> is_auto (f_kind f) = true -> f = pk_field m.
Proof.
  intros Hwf Hin Ha. apply wf_model_pk; [done..|].
  unfold wf_model in Hwf. rewrite !andb_true_iff in Hwf. destruct Hwf as [_ H].
  rewrite forallb_forall in H. specialize (H f). rewrite Ha in H. simpl in H.
  apply H. by apply list_elem_of_In.
Qed.

Lemma attname_inj_in m f g :
  wf_model m = true -> f ∈ all_fields m -> g ∈ all_fields m ->
  attname f = attname g -> f = g.
Proof.
  intros Hwf Hf Hg He. apply wf_model_NoDup in Hwf.
  apply list_elem_of_lookup in Hf as [i Hi]. apply list_elem_of_lookup in Hg as [j Hj].
  assert (i = j) as ->; [|congruence].
  eapply NoDup_lookup; [exact Hwf| |];
    rewrite list_lookup_fmap; [by rewrite Hi | by rewrite Hj, He].
Qed.

Lemma NoDup_map_filter {A B : Type} (g : A -> B) (p : A -> bool) (l : list A) :
  NoDup (map g l) -> NoDup (map g (List.filter p l)).
Proof.
  induction l as [|x l IH]; simpl; [done|].
  intros Hnd. apply NoDup_cons in Hnd as [Hx Hnd].
  destruct (p x); simpl; [|by apply IH].
  apply NoDup_cons. split; [|by apply IH].
  intros Hin. apply Hx. apply list_elem_of_In, in_map_iff.
  apply list_elem_of_In, in_map_iff in Hin as (y & Hy & Hin).
  apply filter_In in Hin as [Hin _]. eauto.
Qed.

Lemma keys_length (S : list model) db : (length (keys S db) ≤ db_size S db)%nat.
Proof.
  unfold keys, db_size. induction S as [|m S' IH]; [done|].
  rewrite bind_cons, length_app. simpl foldr.
  assert (length (table db (m_name m) ≫=
                    (fun r : row => match r !! pk_attname m with
                                    | Some v => [(m_name m, v)]
                                    | None => []
                                    end))
          ≤ length (table db (m_name m)))%nat as Hle;
    [|apply Nat.add_le_mono; [exact Hle|exact IH]].
  induction (table db (m_name m)) as [|r rows IHr]; [done|].
  rewrite bind_cons, length_app.
  change (length (r :: rows)) with (1 + length rows)%nat.
  apply Nat.add_le_mono; [|exact IHr]. destruct (r !! pk_attname m); simpl; lia.
Qed.

Section EngineFacts.

Variable str_upper : string -> string.
Variable S : list model.
Hypothesis S_wf : Forall (fun m => wf_model m = true) S.

Lemma find_model_Some name m :
  find_model S name = Some m -> m ∈ S ∧ m_name m = name.
Proof.
  unfold find_model. intros H. apply find_some in H as [Hin Hn].
  apply bool_decide_eq_true in Hn. split; [by apply list_elem_of_In | done].
Qed.

Lemma find_model_wf name m : find_model S name = Some m -> wf_model m = true.
Proof.
  intros H. apply find_model_Some in H as [Hin _].
  rewrite Forall_forall in S_wf. by apply S_wf.
Qed.

Lemma get_prep_value_type f v v' :
  get_prep_value S f v = Ok v' -> has_type (col_kind S f) v'.
Proof.
  unfold get_prep_value, col_kind.
  destruct (relation (f_kind f)) as [[to od]|]; [|apply prep_scalar_type].
  destruct (find_model S to); apply prep_scalar_type.
Qed.

(** What a hook returns and what it leaves alone. *)
Lemma pre_save_value f inst add v inst1 :
  pre_save str_upper f inst add = (Ok v, inst1) ->
  ∃ v0, inst !! attname f = Some v0 ∧ hook_value str_upper f v0 = Ok v
        ∧ ∀ a, a ≠ attname f -> inst1 !! a = inst !! a.
Proof.
  unfold pre_save, hook_value, UpperCaseCharField_pre_save, Field_pre_save,
    getattr_default, getattr, setattr.
  destruct (inst !! attname f) as [v0|] eqn:Hv0; simpl;
    destruct (f_kind f); simpl; intros H; simplify_eq; eauto.
  destruct (truthy v0) eqn:Ht.
  - destruct (upper str_upper v0) as [w|e] eqn:Hu; simplify_eq.
    exists v0. rewrite Ht. split_and!; [done..|].
    intros a Ha. by rewrite lookup_insert_ne.
  - exists v0. rewrite Ht. by simplify_eq.
Qed.

(** The columns a successful [prepare] computes, field by field. *)
Lemma prepare_cols fs inst add cols inst' :
  prepare str_upper S fs inst add = Ok (cols, inst') ->
  NoDup (map attname fs) ->
  ∀ f, f ∈ fs ->
    ∃ v0 v1 v', inst !! attname f = Some v0
      ∧ hook_value str_upper f v0 = Ok v1
      ∧ get_prep_value S f v1 = Ok v'
      ∧ cols !! attname f = Some v'.
Proof.
  revert inst cols. induction fs as [|f0 fs IH]; intros inst cols Hp Hnd f Hf.
  { by apply elem_of_nil in Hf. }
  simpl in Hp. destruct (pre_save str_upper f0 inst add) as [r inst1] eqn:Hps.
  apply bind_Ok in Hp as (v & -> & Hp).
  apply bind_Ok in Hp as (v' & Hv' & Hp).
  apply bind_Ok in Hp as ([cols0 inst2] & Hrec & Hp).
  simpl in Hp. simplify_eq.
  apply pre_save_value in Hps as (v0 & Hv0 & Hh & Hframe).
  apply NoDup_cons in Hnd as [Hnotin Hnd].
  apply elem_of_cons in Hf as [->|Hf].
  - exists v0, v, v'. by rewrite lookup_insert_eq.
  - assert (attname f ≠ attname f0) as Hne.
    { intros He. apply Hnotin. rewrite <- He. apply list_elem_of_In, in_map.
      by apply list_elem_of_In. }
    destruct (IH _ _ Hrec Hnd f Hf) as (w0 & w1 & w' & Hw0 & Hw1 & Hw' & Hc).
    exists w0, w1, w'. rewrite Hframe in Hw0 by done.
    by rewrite lookup_insert_ne.
Qed.

Lemma prepare_lookup fs inst add cols inst' :
  prepare str_upper S fs inst add = Ok (cols, inst') ->
  NoDup (map attname fs) ->
  ∀ f, f ∈ fs -> ∃ v, cols !! attname f = Some v ∧ has_type (col_kind S f) v.
Proof.
  intros Hp Hnd f Hf.
  destruct (prepare_cols _ _ _ _ _ Hp Hnd f Hf) as (v0 & v1 & v' & _ & _ & Hv' & Hc).
  exists v'. split; [done|]. by eapply get_prep_value_type.
Qed.

Lemma not_null_ok_spec m (r : row) f :
  not_null_ok m r = true -> f ∈ all_fields m -> f_null f = false ->
  ∃ v, r !! attname f = Some v ∧ v ≠ VNone.
Proof.
  unfold not_null_ok. rewrite forallb_forall. intros H Hin Hn.
  specialize (H f (proj1 (list_elem_of_In _ _) Hin)).
  rewrite Hn in H. simpl in H. apply bool_decide_eq_true in H as [[v Hv] Hne].
  exists v. split; [done|]. congruence.
Qed.

Lemma unique_ok_spec m (r : row) others cols :
  unique_ok m r others = true -> cols ∈ constraints m ->
  Forall (fun r' => ¬ conflicts cols r r') others.
Proof.
  unfold unique_ok. rewrite forallb_forall. intros H Hin.
  specialize (H cols (proj1 (list_elem_of_In _ _) Hin)).
  by apply bool_decide_eq_true in H.
Qed.

(** A checked row put in front of rows of the table gives a table that
    satisfies the invariant. *)
Lemma table_ok_cons db m (r : row) others rows :
  table_ok S m rows -> sublist others rows ->
  checks S db m r others = true ->
  (∀ f, f ∈ all_fields m -> ∃ v, r !! attname f = Some v ∧ has_type (col_kind S f) v) ->
  table_ok S m (r :: others).
Proof.
  intros [Hrows Hd] Hsub Hc Hr.
  unfold checks in Hc. rewrite !andb_true_iff in Hc. destruct Hc as [[Hnn Hu] _].
  split.
  - constructor.
    + intros f Hf. destruct (Hr f Hf) as (v & Hv & Ht).
      exists v. split_and!; [done..|].
      intros Hn. destruct (not_null_ok_spec _ _ _ Hnn Hf Hn) as (w & Hw & Hne).
      congruence.
    + rewrite Forall_forall in Hrows. apply Forall_forall. intros r' Hin.
      apply Hrows. by eapply elem_of_sublist.
  - intros cols Hcols. simpl. split.
    + by eapply unique_ok_spec.
    + eapply distinct_on_sublist; [exact Hsub|]. by apply Hd.
Qed.

Lemma db_insert_shape db m inst db' inst' :
  wf_model m = true ->
  db_insert str_upper S db m inst = Ok (db', inst') ->
  ∃ r, db' = <[m_name m := r :: table db (m_name m)]> db
       ∧ checks S db m r (table db (m_name m)) = true
       ∧ (∀ f, f ∈ all_fields m ->
           ∃ v, r !! attname f = Some v ∧ has_type (col_kind S f) v)
       ∧ (∀ f, f ∈ all_fields m -> is_auto (f_kind f) = false ->
           stored_from str_upper S inst f r).
Proof.
  intros Hwf. unfold db_insert.
  set (rows := table db (m_name m)).
  set (pk_set := bool_decide (getattr_default inst (pk_attname m) VNone ≠ VNone)).
  intros H. apply bind_Ok in H as ([cols inst1] & Hp & H). simpl in H.
  pose proof (wf_model_NoDup _ Hwf) as Hnd.
  destruct pk_set; simpl in H.
  - destruct (checks S db m cols rows) eqn:Hc; [|discriminate]. simplify_eq.
    exists cols. split_and!; [done..| |].
    + by eapply prepare_lookup.
    + intros f Hf _. by eapply prepare_cols.
  - assert (NoDup (map attname
              (List.filter (fun f => negb (is_auto (f_kind f))) (all_fields m)))) as Hnd'.
    { by apply NoDup_map_filter. }
    pose proof (prepare_lookup _ _ _ _ _ Hp Hnd') as Hl.
    pose proof (prepare_cols _ _ _ _ _ Hp Hnd') as Hcols.
    assert (∀ f, f ∈ all_fields m -> is_auto (f_kind f) = false ->
              f ∈ List.filter (fun f => negb (is_auto (f_kind f))) (all_fields m)) as Hin.
    { intros f Hf Hfa. apply list_elem_of_In, filter_In.
      split; [by apply list_elem_of_In | by rewrite Hfa]. }
    destruct (is_auto (f_kind (pk_field m))) eqn:Hauto; simpl in H.
    + match type of H with (if checks _ _ _ ?r _ then _ else _) = _ =>
        destruct (checks S db m r rows) eqn:Hc; [|discriminate]; exists r end.
      simplify_eq.
      assert (∀ f, f ∈ all_fields m -> is_auto (f_kind f) = false ->
                attname f ≠ pk_attname m) as Hne.
      { intros f Hf Hfa He. unfold pk_attname in He.
        apply (attname_inj_in m) in He;
          [|done|done|by apply wf_model_pk_in]. subst f. congruence. }
      split_and!; [done..| |].
      * intros f Hf. destruct (is_auto (f_kind f)) eqn:Hfa.
        -- assert (f = pk_field m) as -> by by eapply wf_model_auto.
           eexists. unfold pk_attname. rewrite lookup_insert_eq. split; [done|].
           unfold col_kind. destruct (f_kind (pk_field m)); simpl in *; done.
        -- destruct (Hl f (Hin f Hf Hfa)) as (v & Hv & Ht).
           exists v. split; [|done]. rewrite lookup_insert_ne; [done|].
           intros He. by eapply Hne.
      * intros f Hf Hfa.
        destruct (Hcols f (Hin f Hf Hfa)) as (v0 & v1 & v' & ? & ? & ? & ?).
        exists v0, v1, v'. split_and!; [done..|].
        rewrite lookup_insert_ne; [done|]. intros He. by eapply Hne.
    + destruct (checks S db m cols rows) eqn:Hc; [|discriminate]. simplify_eq.
      exists cols. split_and!; [done..| |].
      * intros f Hf. apply Hl.
        apply list_elem_of_In, filter_In. split; [by apply list_elem_of_In|].
        destruct (is_auto (f_kind f)) eqn:Hfa; [|done].
        assert (f = pk_field m) as -> by by eapply wf_model_auto. congruence.
      * intros f Hf Hfa. apply Hcols. by apply Hin.
Qed.

Lemma init_lookup m kwargs inst f :
  wf_model m = true -> init m kwargs = Ok inst -> f ∈ all_fields m ->
  inst !! attname f = Some (default (get_default f) (kwarg kwargs (attname f))).
Proof.
  intros Hwf. unfold init. destruct (forallb _ kwargs); [|discriminate].
  intros [= <-] Hf. apply elem_of_list_to_map_1.
  - rewrite <- list_fmap_compose. simpl.
    apply wf_model_NoDup in Hwf. exact Hwf.
  - apply list_elem_of_fmap. exists f. done.
Qed.

Lemma create_eq db name kwargs m :
  find_model S name = Some m ->
  create str_upper S db name kwargs
  = (inst ← init m kwargs; db_insert str_upper S db m inst).
Proof.
  intros Hm. unfold create, save. rewrite Hm.
  destruct (init m kwargs) as [inst|e]; simpl; [|done].
  by rewrite andb_false_r.
Qed.

(** What a successful [create] does: a checked row in front of the table,
    each column stored from the keyword or the default of its field. *)
Lemma create_shape db name kwargs db' inst' m :
  find_model S name = Some m ->
  create str_upper S db name kwargs = Ok (db', inst') ->
  ∃ inst r, init m kwargs = Ok inst
    ∧ db' = <[name := r :: table db name]> db
    ∧ checks S db m r (table db name) = true
    ∧ ∀ f, f ∈ all_fields m -> is_auto (f_kind f) = false ->
        inst !! attname f = Some (default (get_default f) (kwarg kwargs (attname f)))
        ∧ stored_from str_upper S inst f r.
Proof.
  intros Hm. rewrite (create_eq _ _ _ _ Hm). intros H.
  apply bind_Ok in H as (inst & Hi & H).
  pose proof (find_model_wf _ _ Hm) as Hwf.
  destruct (find_model_Some _ _ Hm) as [_ Hname].
  apply db_insert_shape in H as (r & -> & Hc & _ & Hst); [|done].
  rewrite Hname in *. exists inst, r. split_and!; [done..|].
  intros f Hf Hfa. split; [by eapply init_lookup | by apply Hst].
Qed.

(** What a successful save does to the database: the table of the class is
    a checked row in front of rows it already had. *)
Lemma save_shape db name inst force_insert db' inst' :
  save str_upper S db name inst force_insert = Ok (db', inst') ->
  ∃ m r others,
    find_model S name = Some m
    ∧ db' = <[name := r :: others]> db
    ∧ sublist others (table db name)
    ∧ checks S db m r others = true
    ∧ (∀ f, f ∈ all_fields m ->
        ∃ v, r !! attname f = Some v ∧ has_type (col_kind S f) v)
    ∧ (∀ t : row, t ∈ table db name ->
        t ∈ others ∨ t !! pk_attname m = r !! pk_attname m).
Proof.
  unfold save. destruct (find_model S name) as [m|] eqn:Hm; [|discriminate].
  pose proof (find_model_wf _ _ Hm) as Hwf.
  destruct (find_model_Some _ _ Hm) as [_ Hname].
  assert (∀ inst0, db_insert str_upper S db m inst0 = Ok (db', inst') ->
    ∃ m0 r others, Some m = Some m0 ∧ db' = <[name := r :: others]> db
      ∧ sublist others (table db name) ∧ checks S db m0 r others = true
      ∧ (∀ f, f ∈ all_fields m0 ->
          ∃ v, r !! attname f = Some v ∧ has_type (col_kind S f) v)
      ∧ (∀ t : row, t ∈ table db name ->
          t ∈ others ∨ t !! pk_attname m0 = r !! pk_attname m0)) as Hins.
  { intros inst0 H. apply db_insert_shape in H as (r & -> & Hc & Hr & _); [|done].
    rewrite Hname in *. exists m, r, (table db name). split_and!; eauto. }
  destruct (bool_decide _ && negb force_insert); [|by apply Hins].
  intros H. apply bind_Ok in H as (pkv & Hpkv & H).
  apply bind_Ok in H as ([cols inst1] & Hp & H). simpl in H.
  destruct (bool_decide (Exists _ _)); [|by eapply Hins].
  match type of H with (if checks _ _ _ ?r ?o then _ else _) = _ =>
    destruct (checks S db m r o) eqn:Hc; [|discriminate]; exists m, r, o end.
  simplify_eq. split_and!; [done..|apply sublist_filter|done| |].
  2:{ intros t Ht. destruct (decide (has_pk (pk_attname m) pkv t)) as [Hpk|Hpk].
      - right. rewrite lookup_insert_eq. exact Hpk.
      - left. apply list_elem_of_filter. by split. }
  intros f Hf. destruct (f_primary_key f) eqn:Hpk.
  - assert (f = pk_field m) as -> by by eapply wf_model_pk.
    exists pkv. unfold pk_attname. rewrite lookup_insert_eq. split; [done|].
    by eapply get_prep_value_type.
  - assert (NoDup (map attname (non_pks m))) as Hnd.
    { apply NoDup_map_filter. by apply wf_model_NoDup. }
    destruct (prepare_lookup _ _ _ _ _ Hp Hnd f) as (v & Hv & Ht).
    { apply list_elem_of_In, filter_In. split; [by apply list_elem_of_In|].
      by rewrite Hpk. }
    exists v. split; [|done]. rewrite lookup_insert_ne; [done|].
    unfold pk_attname. intros He.
    apply (attname_inj_in m) in He; [|done|by apply wf_model_pk_in|done].
    subst f. destruct (wf_model_pk_in _ Hwf). congruence.
Qed.

Lemma table_insert_eq (db : database) name rows : table (<[name := rows]> db) name = rows.
Proof. unfold table. apply lookup_total_insert_eq. Qed.

Lemma table_insert_ne (db : database) name name' rows :
  name ≠ name' -> table (<[name := rows]> db) name' = table db name'.
Proof. intros H. unfold table. by apply lookup_total_insert_ne. Qed.

Lemma save_db_ok db name inst force_insert db' inst' :
  db_ok S db ->
  save str_upper S db name inst force_insert = Ok (db', inst') ->
  db_ok S db'.
Proof.
  intros Hok H. apply save_shape in H as (m & r & others & Hm & -> & Hsub & Hc & Hr & _).
  intros n m' Hm'. destruct (decide (name = n)) as [<-|Hne].
  - rewrite table_insert_eq. simplify_eq.
    eapply table_ok_cons; [by apply Hok|done..].
  - rewrite table_insert_ne by done. by apply Hok.
Qed.

Lemma table_remove C db name :
  sublist (table (remove S C db) name) (table db name).
Proof.
  unfold table, remove. rewrite !lookup_total_alt, map_lookup_imap.
  destruct (db !! name) as [rows|]; simpl; [|done].
  destruct (find_model S name); [apply sublist_filter | done].
Qed.

Lemma table_ok_sublist m (l1 l2 : list row) :
  sublist l1 l2 -> table_ok S m l2 -> table_ok S m l1.
Proof.
  intros Hs [Hr Hd]. split.
  - rewrite Forall_forall in Hr. apply Forall_forall. intros r Hin.
    apply Hr. by eapply elem_of_sublist.
  - intros cols Hc. eapply distinct_on_sublist; [done|]. by apply Hd.
Qed.

Lemma delete_shape db name pk db' :
  delete S db name pk = Ok db' ->
  db' = remove S (collect S db (name, pk)) db
  ∧ ∀ od, blockers S od db (collect S db (name, pk)) = [].
Proof.
  unfold delete. destruct (find_model S name); [|discriminate].
  destruct (decide (pk = VNone)); [discriminate|].
  destruct (blockers S RESTRICT db _) eqn:H1; [|discriminate].
  destruct (blockers S CASCADE db _) eqn:H2; [|discriminate].
  intros [= <-]. split; [done|]. by intros [].
Qed.

Lemma delete_db_ok db name pk db' :
  db_ok S db -> delete S db name pk = Ok db' -> db_ok S db'.
Proof.
  intros Hok H. apply delete_shape in H as [-> _].
  intros n m Hm. eapply table_ok_sublist; [apply table_remove|]. by apply Hok.
Qed.

Lemma empty_db_ok : db_ok S ∅.
Proof.
  intros n m _. unfold table. rewrite lookup_total_empty.
  split; [constructor | done].
Qed.

(** Every state the database can be in satisfies the invariant. *)
Lemma reachable_db_ok db : reachable str_upper S db -> db_ok S db.
Proof.
  induction 1 as [|db name inst fi db' inst' _ IH Hs|db name pk db' _ IH Hd].
  - apply empty_db_ok.
  - by eapply save_db_ok.
  - by eapply delete_db_ok.
Qed.

(** ** When an INSERT succeeds *)

Lemma checks_intro db m (r : row) others :
  not_null_ok m r = true ->
  (∀ cols, cols ∈ constraints m -> Forall (fun r' => ¬ conflicts cols r r') others) ->
  Forall (ref_ok S db) (fk_refs m r) ->
  checks S db m r others = true.
Proof.
  intros Hnn Hu Hfk. unfold checks. rewrite Hnn. simpl.
  apply andb_true_iff. split.
  - unfold unique_ok. apply forallb_forall. intros cols Hin.
    apply bool_decide_eq_true. apply Hu. by apply list_elem_of_In.
  - unfold fk_ok. apply forallb_forall. intros tv Hin.
    apply bool_decide_eq_true. rewrite Forall_forall in Hfk.
    apply Hfk. by apply list_elem_of_In.
Qed.

Lemma pre_save_ok f inst add v0 v1 :
  inst !! attname f = Some v0 -> hook_value str_upper f v0 = Ok v1 ->
  ∃ inst1, pre_save str_upper f inst add = (Ok v1, inst1)
           ∧ ∀ a, a ≠ attname f -> inst1 !! a = inst !! a.
Proof.
  unfold pre_save, hook_value, UpperCaseCharField_pre_save, Field_pre_save,
    getattr_default, getattr, setattr.
  intros Hv0. rewrite Hv0. simpl.
  destruct (f_kind f); intros H; simplify_eq; eauto.
  destruct (truthy v0); [|simplify_eq; eauto].
  rewrite H. eexists. split; [done|]. intros a Ha. by rewrite lookup_insert_ne.
Qed.

Lemma stored_values_ext fs (inst inst1 : instance) :
  (∀ f, f ∈ fs -> inst1 !! attname f = inst !! attname f) ->
  stored_values str_upper S fs inst1 = stored_values str_upper S fs inst.
Proof.
  induction fs as [|f fs IH]; intros H; [done|].
  simpl. unfold stored_value, getattr. rewrite (H f) by apply list_elem_of_here.
  rewrite IH; [done|]. intros g Hg. apply H. by apply list_elem_of_further.
Qed.

(** [prepare] computes the columns [stored_values] lists. *)
Lemma prepare_stored fs inst add l :
  NoDup (map attname fs) ->
  stored_values str_upper S fs inst = Ok l ->
  ∃ inst', prepare str_upper S fs inst add = Ok (list_to_map l, inst').
Proof.
  revert inst l. induction fs as [|f fs IH]; intros inst l Hnd H; simpl in H.
  { simplify_eq. by eexists. }
  apply NoDup_cons in Hnd as [Hnotin Hnd].
  apply bind_Ok in H as (v & Hv & H). apply bind_Ok in H as (l' & Hl' & H).
  simpl in H. simplify_eq.
  unfold stored_value in Hv.
  apply bind_Ok in Hv as (v0 & Hv0 & Hv). apply bind_Ok in Hv as (v1 & Hv1 & Hv).
  unfold getattr in Hv0. destruct (inst !! attname f) as [w|] eqn:Hw; simplify_eq.
  destruct (pre_save_ok f inst add _ _ Hw Hv1) as (inst1 & Hps & Hframe).
  destruct (IH inst1 l' Hnd) as (inst' & Hp).
  { rewrite <- Hl'. apply stored_values_ext. intros g Hg. apply Hframe.
    intros He. apply Hnotin. rewrite <- He. apply list_elem_of_In, in_map.
    by apply list_elem_of_In. }
  exists inst'. simpl. rewrite Hps. simpl. rewrite Hv. simpl. rewrite Hp. done.
Qed.

(** [create] on a class with the automatic key, the key not given: the row
    is stored under the next id when it passes the checks. *)
Lemma create_auto_ok db name m kwargs l refs :
  find_model S name = Some m ->
  is_auto (f_kind (pk_field m)) = true ->
  (inst ← init m kwargs; Ok (getattr_default inst (pk_attname m) VNone)) = Ok VNone ->
  (inst ← init m kwargs;
   stored_values str_upper S
     (List.filter (fun f => negb (is_auto (f_kind f))) (all_fields m)) inst) = Ok l ->
  (∀ n, not_null_ok m (<[pk_attname m := VInt n]> (list_to_map l)) = true) ->
  (∀ n, fk_refs m (<[pk_attname m := VInt n]> (list_to_map l)) = refs) ->
  Forall (ref_ok S db) refs ->
  (∀ n colset, colset ∈ constraints m -> colset ≠ [pk_attname m] ->
     Forall (fun r' => ¬ conflicts colset (<[pk_attname m := VInt n]> (list_to_map l)) r')
            (table db name)) ->
  ∃ inst',
    create str_upper S db name kwargs
    = Ok (<[name := <[pk_attname m := VInt (next_id (pk_attname m) (table db name))]>
                      (list_to_map l)
                    :: table db name]> db, inst').
Proof.
  intros Hm Hauto Hpk Hl Hnn Hrefs Hfk Hu.
  destruct (find_model_Some _ _ Hm) as [_ Hname].
  pose proof (find_model_wf _ _ Hm) as Hwf.
  rewrite (create_eq _ _ _ _ Hm).
  destruct (init m kwargs) as [inst|e]; simpl in *; [|discriminate].
  simplify_eq.
  destruct (prepare_stored _ inst true l
              (NoDup_map_filter _ _ _ (wf_model_NoDup _ Hwf)) Hl) as (inst1 & Hp).
  eexists. unfold db_insert.
  rewrite Hpk.
  rewrite bool_decide_eq_false_2 by (intros H; by apply H).
  rewrite Hp. simpl. rewrite Hauto. simpl.
  rewrite checks_intro; [done|apply Hnn| |by rewrite Hrefs].
  intros colset Hin.
  destruct (decide (colset = [pk_attname m])) as [->|Hne]; [|by apply Hu].
  apply Forall_forall. intros r' Hr'.
  eapply next_id_fresh; [|done]. by rewrite lookup_insert_eq.
Qed.

(** The columns of the row a successful [create] stores, from the keywords. *)
Lemma create_row db name kwargs db' inst' m :
  find_model S name = Some m ->
  create str_upper S db name kwargs = Ok (db', inst') ->
  ∃ r, db' = <[name := r :: table db name]> db
    ∧ checks S db m r (table db name) = true
    ∧ ∀ f a v0 v1 v',
        f ∈ all_fields m -> is_auto (f_kind f) = false -> attname f = a ->
        default (get_default f) (kwarg kwargs a) = v0 ->
        hook_value str_upper f v0 = Ok v1 ->
        get_prep_value S f v1 = Ok v' ->
        r !! a = Some v'.
Proof.
  intros Hm H. apply (create_shape _ _ _ _ _ _ Hm) in H as (inst & r & _ & -> & Hc & Hst).
  exists r. split_and!; [done..|].
  intros f a v0 v1 v' Hf Hfa <- <- Hh Hp.
  destruct (Hst f Hf Hfa) as (Hi & w0 & w1 & w' & Hw0 & Hw1 & Hw' & Hr).
  rewrite Hi in Hw0. simplify_eq. congruence.
Qed.

(** The rows of a table of a state that satisfies the invariant are
    pairwise distinct on the columns of each constraint whose fields are
    all NOT NULL. *)
Lemma db_ok_distinct db name m cols i j (r1 r2 : row) :
  db_ok S db -> find_model S name = Some m -> cols ∈ constraints m ->
  forallb (fun c => existsb (fun f => bool_decide (attname f = c) && negb (f_null f))
                            (all_fields m)) cols = true ->
  table db name !! i = Some r1 -> table db name !! j = Some r2 ->
  (∀ c, c ∈ cols -> r1 !! c = r2 !! c) -> i = j.
Proof.
  intros Hok Hm Hcols Hnn Hi Hj He.
  destruct (Hok _ _ Hm) as [Hrows Hd].
  eapply distinct_on_lookup; [by apply Hd|done..|].
  apply conflicts_iff. intros c Hc.
  rewrite forallb_forall in Hnn.
  specialize (Hnn c (proj1 (list_elem_of_In _ _) Hc)).
  apply existsb_exists in Hnn as (f & Hf & Hfc).
  apply andb_true_iff in Hfc as [Ha Hn]. apply bool_decide_eq_true in Ha.
  apply negb_true_iff in Hn. apply list_elem_of_In in Hf.
  rewrite Forall_forall in Hrows.
  destruct (Hrows r1 (list_elem_of_lookup_2 _ _ _ Hi) f Hf) as (v & Hv & _ & Hne).
  exists v. rewrite <- (He c Hc), <- Ha. split_and!; [done..|by apply Hne].
Qed.

(** Every row of such a table holds a non-NULL value in a NOT NULL column. *)
Lemma db_ok_column db name m f (r : row) :
  db_ok S db -> find_model S name = Some m -> f ∈ all_fields m ->
  r ∈ table db name ->
  ∃ v, r !! attname f = Some v ∧ has_type (col_kind S f) v
       ∧ (f_null f = false -> v ≠ VNone).
Proof.
  intros Hok Hm Hf Hr. destruct (Hok _ _ Hm) as [Hrows _].
  rewrite Forall_forall in Hrows. by apply Hrows.
Qed.

(** ** The collector *)

Lemma elem_of_referrers od db k x :
  x ∈ referrers S od db k
  ↔ ∃ m r, m ∈ S ∧ r ∈ table db (m_name m) ∧ refers od m r k
           ∧ r !! pk_attname m = Some x.2 ∧ x.1 = m_name m.
Proof.
  unfold referrers. rewrite list_elem_of_bind. split.
  - intros (m & Hx & Hm). apply list_elem_of_bind in Hx as (r & Hx & Hr).
    destruct (decide (refers od m r k)) as [Href|]; [|by apply elem_of_nil in Hx].
    destruct (r !! pk_attname m) as [v|] eqn:Hv; [|by apply elem_of_nil in Hx].
    apply list_elem_of_singleton in Hx as ->. exists m, r. by split_and!.
  - intros (m & r & Hm & Hr & Href & Hv & Hn). exists m. split; [|done].
    apply list_elem_of_bind. exists r. split; [|done].
    rewrite decide_True by done. rewrite Hv.
    apply list_elem_of_singleton. destruct x; simpl in *; by subst.
Qed.

Lemma elem_of_cascade_step db C x :
  x ∈ cascade_step S db C
  ↔ x ∈ C ∨ ∃ y, y ∈ C ∧ x ∈ referrers S CASCADE db y.
Proof.
  unfold cascade_step.
  rewrite elem_of_app, list_elem_of_difference, elem_of_remove_dups, list_elem_of_bind.
  split.
  - intros [?|[(y & ? & ?) _]]; [by left | right; eauto].
  - intros [?|(y & ? & ?)]; [by left|].
    destruct (decide (x ∈ C)); [by left | right; split; eauto].
Qed.

Lemma elem_of_collect_seed db k : k ∈ collect S db k.
Proof.
  unfold collect. generalize (Datatypes.S (db_size S db)). intros n.
  induction n as [|n IH]; simpl; [apply list_elem_of_here|].
  apply elem_of_cascade_step. by left.
Qed.

Lemma elem_of_collect_step db k x :
  x ∈ referrers S CASCADE db k -> x ∈ collect S db k.
Proof.
  intros Hx. unfold collect. generalize (db_size S db). intros n.
  induction n as [|n IH].
  - simpl. apply elem_of_cascade_step. right. exists k.
    split; [by apply list_elem_of_singleton | done].
  - change (x ∈ cascade_step S db (Nat.iter (Datatypes.S n) (cascade_step S db) [k])).
    apply elem_of_cascade_step. by left.
Qed.

(** A property of the seed that every cascading referrer inherits holds of
    all that is collected. *)
Lemma collect_ind (P : string * value -> Prop) db k :
  P k ->
  (∀ y x, P y -> x ∈ referrers S CASCADE db y -> P x) ->
  ∀ x, x ∈ collect S db k -> P x.
Proof.
  intros Hk Hstep. unfold collect. generalize (Datatypes.S (db_size S db)). intros n.
  induction n as [|n IH]; simpl; intros x Hx.
  - apply list_elem_of_singleton in Hx as ->. done.
  - apply elem_of_cascade_step in Hx as [Hx|(y & Hy & Hx)]; [by apply IH|].
    eapply Hstep; [|exact Hx]. by apply IH.
Qed.

(** *** The rounds are enough *)

Lemma referrers_keys od db y x : x ∈ referrers S od db y -> x ∈ keys S db.
Proof.
  unfold referrers, keys. rewrite !list_elem_of_bind.
  intros (m & Hx & Hm). exists m. split; [|done].
  apply list_elem_of_bind in Hx as (r & Hx & Hr).
  apply list_elem_of_bind. exists r. split; [|done].
  by destruct (decide (refers od m r y)); [|apply elem_of_nil in Hx].
Qed.

Lemma cascade_step_NoDup db C : NoDup C -> NoDup (cascade_step S db C).
Proof.
  intros HC. unfold cascade_step. apply NoDup_app. split_and!; [done| |].
  - intros x Hx Hx'. apply list_elem_of_difference in Hx' as [_ Hn]. done.
  - apply NoDup_list_difference, NoDup_remove_dups.
Qed.

Lemma cascade_step_closed db C : closed S db C -> cascade_step S db C = C.
Proof.
  intros Hc. unfold cascade_step.
  assert (list_difference (remove_dups (C ≫= referrers S CASCADE db)) C = []) as ->;
    [|by rewrite app_nil_r].
  destruct (list_difference _ C) as [|x l] eqn:Hd; [done|].
  assert (x ∈ list_difference (remove_dups (C ≫= referrers S CASCADE db)) C) as Hx
    by (rewrite Hd; apply list_elem_of_here).
  apply list_elem_of_difference in Hx as [Hx Hn]. exfalso. apply Hn.
  apply elem_of_remove_dups, list_elem_of_bind in Hx as (y & Hx & Hy).
  by eapply Hc.
Qed.

Lemma cascade_step_grows db C :
  closed S db C ∨ (length C < length (cascade_step S db C))%nat.
Proof.
  unfold cascade_step. rewrite length_app.
  destruct (list_difference (remove_dups (C ≫= referrers S CASCADE db)) C)
    as [|x l] eqn:Hd; [left|right; simpl; lia].
  intros y x Hy Hx. destruct (decide (x ∈ C)) as [|Hn]; [done|].
  assert (x ∈ list_difference (remove_dups (C ≫= referrers S CASCADE db)) C) as Hin.
  { apply list_elem_of_difference. split; [|done].
    apply elem_of_remove_dups, list_elem_of_bind. eauto. }
  rewrite Hd in Hin. by apply elem_of_nil in Hin.
Qed.

Lemma rounds_closed_or_long db k n :
  closed S db (Nat.iter n (cascade_step S db) [k])
  ∨ (n < length (Nat.iter n (cascade_step S db) [k]))%nat.
Proof.
  induction n as [|n IH]; [right; simpl; lia|].
  simpl. destruct IH as [Hc|Hl].
  - left. by rewrite (cascade_step_closed _ _ Hc).
  - destruct (cascade_step_grows db (Nat.iter n (cascade_step S db) [k])) as [Hc|Hg].
    + left. by rewrite (cascade_step_closed _ _ Hc).
    + right. lia.
Qed.

Lemma rounds_bounded db k n :
  (length (Nat.iter n (cascade_step S db) [k]) ≤ Datatypes.S (db_size S db))%nat.
Proof.
  transitivity (length (k :: keys S db)); [|simpl; pose proof (keys_length S db); lia].
  apply submseteq_length, NoDup_submseteq.
  - induction n as [|n IH]; simpl; [apply NoDup_singleton|].
    by apply cascade_step_NoDup.
  - induction n as [|n IH]; simpl; intros x Hx.
    + apply list_elem_of_singleton in Hx as ->. apply list_elem_of_here.
    + apply elem_of_cascade_step in Hx as [Hx|(y & _ & Hx)]; [by apply IH|].
      apply list_elem_of_further. by eapply referrers_keys.
Qed.

(** The collection is closed: every row that points through a CASCADE
    relation at a collected row is collected. *)
Lemma collect_closed db k : closed S db (collect S db k).
Proof.
  unfold collect.
  destruct (rounds_closed_or_long db k (Datatypes.S (db_size S db))) as [Hc|Hl];
    [done|].
  pose proof (rounds_bounded db k (Datatypes.S (db_size S db))). lia.
Qed.

Lemma elem_of_blockers od db C n r :
  (n, r) ∈ blockers S od db C
  ↔ ∃ m, m ∈ S ∧ n = m_name m ∧ r ∈ table db (m_name m)
         ∧ ¬ collected C m r ∧ Exists (refers od m r) C.
Proof.
  unfold blockers. rewrite list_elem_of_bind. split.
  - intros (m & Hx & Hm). apply list_elem_of_bind in Hx as (r' & Hx & Hr).
    destruct (decide _) as [[Hnc Hex]|]; [|by apply elem_of_nil in Hx].
    apply list_elem_of_singleton in Hx. simplify_eq. exists m. by split_and!.
  - intros (m & Hm & -> & Hr & Hnc & Hex). exists m. split; [|done].
    apply list_elem_of_bind. exists r. split; [|done].
    rewrite decide_True by done. by apply list_elem_of_singleton.
Qed.

(** A row left out of the collection that points at it through a RESTRICT
    relation stops the deletion. *)
Lemma delete_restricted db name pk tm n r :
  find_model S name = Some tm -> pk ≠ VNone ->
  (n, r) ∈ blockers S RESTRICT db (collect S db (name, pk)) ->
  delete S db name pk = Raise RestrictedError.
Proof.
  intros Hm Hpk Hb. unfold delete. rewrite Hm, decide_False by done.
  destruct (blockers S RESTRICT db _); [by apply elem_of_nil in Hb | done].
Qed.

Lemma delete_ok db name pk tm :
  find_model S name = Some tm -> pk ≠ VNone ->
  (∀ od n r, (n, r) ∉ blockers S od db (collect S db (name, pk))) ->
  delete S db name pk = Ok (remove S (collect S db (name, pk)) db).
Proof.
  intros Hm Hpk Hb. unfold delete. rewrite Hm, decide_False by done.
  destruct (blockers S RESTRICT db _) as [|[n r] l] eqn:H1.
  - destruct (blockers S CASCADE db _) as [|[n r] l] eqn:H2; [done|].
    exfalso. apply (Hb CASCADE n r). rewrite H2. apply list_elem_of_here.
  - exfalso. apply (Hb RESTRICT n r). rewrite H1. apply list_elem_of_here.
Qed.

Lemma table_remove_eq C db name m :
  find_model S name = Some m ->
  table (remove S C db) name = filter (fun r => ¬ collected C m r) (table db name).
Proof.
  intros Hm. unfold table, remove. rewrite !lookup_total_alt, map_lookup_imap.
  destruct (db !! name) as [rows|]; simpl; [by rewrite Hm | done].
Qed.

Lemma table_remove_other C db name :
  (∀ m, find_model S name = Some m ->
        ∀ r, r ∈ table db name -> ¬ collected C m r) ->
  table (remove S C db) name = table db name.
Proof.
  intros H. destruct (find_model S name) as [m|] eqn:Hm.
  - rewrite (table_remove_eq _ _ _ _ Hm).
    specialize (H m eq_refl). induction (table db name) as [|r rows IH]; [done|].
    rewrite filter_cons, decide_True by (apply H; apply list_elem_of_here).
    f_equal. apply IH. intros r' Hr'. apply H. by apply list_elem_of_further.
  - unfold table, remove. rewrite !lookup_total_alt, map_lookup_imap.
    destruct (db !! name) as [rows|]; simpl; [by rewrite Hm | done].
Qed.

(** A second row with the value a row already holds in a unique column
    cannot be created. *)
Lemma create_duplicate_fails db name m f col kwargs v (r0 : row) :
  find_model S name = Some m ->
  f ∈ all_fields m -> is_auto (f_kind f) = false -> attname f = col ->
  [col] ∈ constraints m ->
  kwarg kwargs col = Some v -> v ≠ VNone ->
  hook_value str_upper f v = Ok v -> get_prep_value S f v = Ok v ->
  r0 ∈ table db name -> r0 !! col = Some v ->
  is_ok (create str_upper S db name kwargs) = false.
Proof.
  intros Hm Hf Hfa Hcol Hcons Hk Hv Hh Hp Hr0 Hr0c.
  destruct (create _ _ _ _ kwargs) as [[db' inst']|e] eqn:Hcr; [exfalso|done].
  apply (create_row _ _ _ _ _ _ Hm) in Hcr as (r & -> & Hchk & Hrow).
  assert (r !! col = Some v) as Hrc.
  { eapply (Hrow f col v v v); [done..|by rewrite Hk|done|done]. }
  unfold checks in Hchk. rewrite !andb_true_iff in Hchk.
  destruct Hchk as [[_ Hu] _].
  pose proof (unique_ok_spec _ _ _ [col] Hu Hcons) as Hall.
  rewrite Forall_forall in Hall. eapply Hall; [exact Hr0|].
  apply conflicts_iff. intros a Ha. apply list_elem_of_singleton in Ha as ->.
  exists v. by split_and!.
Qed.

(** ** The value a save stores for a field *)

Lemma pre_save_after f inst add v inst1 :
  pre_save str_upper f inst add = (Ok v, inst1) -> inst1 !! attname f = Some v.
Proof.
  unfold pre_save, UpperCaseCharField_pre_save, Field_pre_save,
    getattr_default, getattr, setattr.
  destruct (inst !! attname f) as [v0|] eqn:Hv0; simpl;
    destruct (f_kind f); simpl; intros H; simplify_eq; try done.
  destruct (truthy v0).
  - destruct (upper str_upper v0) as [w|e]; simplify_eq. by rewrite lookup_insert_eq.
  - by simplify_eq.
Qed.

Lemma prepare_frame fs inst add cols inst' a :
  prepare str_upper S fs inst add = Ok (cols, inst') ->
  a ∉ map attname fs -> inst' !! a = inst !! a.
Proof.
  revert inst cols. induction fs as [|f0 fs IH]; intros inst cols Hp Ha.
  { simpl in Hp. by simplify_eq. }
  simpl in Hp. destruct (pre_save str_upper f0 inst add) as [r inst1] eqn:Hps.
  apply bind_Ok in Hp as (v & -> & Hp).
  apply bind_Ok in Hp as (v' & _ & Hp).
  apply bind_Ok in Hp as ([cols0 inst2] & Hrec & Hp).
  simpl in Hp. simplify_eq.
  apply pre_save_value in Hps as (_ & _ & _ & Hframe).
  apply not_elem_of_cons in Ha as [Hne Ha].
  rewrite (IH _ _ Hrec Ha). by apply Hframe.
Qed.

(** The attribute of each field after [prepare]: what its hook returned. *)
Lemma prepare_inst fs inst add cols inst' :
  prepare str_upper S fs inst add = Ok (cols, inst') ->
  NoDup (map attname fs) ->
  ∀ f, f ∈ fs ->
    ∃ v0 v1, inst !! attname f = Some v0
      ∧ hook_value str_upper f v0 = Ok v1
      ∧ inst' !! attname f = Some v1.
Proof.
  revert inst cols. induction fs as [|f0 fs IH]; intros inst cols Hp Hnd f Hf.
  { by apply elem_of_nil in Hf. }
  simpl in Hp. destruct (pre_save str_upper f0 inst add) as [r inst1] eqn:Hps.
  apply bind_Ok in Hp as (v & -> & Hp).
  apply bind_Ok in Hp as (v' & _ & Hp).
  apply bind_Ok in Hp as ([cols0 inst2] & Hrec & Hp).
  simpl in Hp. simplify_eq.
  pose proof (pre_save_after _ _ _ _ _ Hps) as Hafter.
  apply pre_save_value in Hps as (v0 & Hv0 & Hh & Hframe).
  apply NoDup_cons in Hnd as [Hnotin Hnd].
  apply elem_of_cons in Hf as [->|Hf].
  - exists v0, v. split_and!; [done..|].
    by rewrite (prepare_frame _ _ _ _ _ _ Hrec).
  - assert (attname f ≠ attname f0) as Hne.
    { intros He. apply Hnotin. rewrite <- He. apply list_elem_of_In, in_map.
      by apply list_elem_of_In. }
    destruct (IH _ _ Hrec Hnd f Hf) as (w0 & w1 & Hw0 & Hw1 & Hw').
    exists w0, w1. rewrite Hframe in Hw0 by done. done.
Qed.

(** The column of a field that is not the primary key, after a save: the
    value of the attribute through the hook, and through the hook once more
    when the save fell back from an UPDATE that found no row to an INSERT. *)
Lemma save_stored db name inst force_insert db' inst' m f :
  save str_upper S db name inst force_insert = Ok (db', inst') ->
  find_model S name = Some m -> f ∈ all_fields m -> f_primary_key f = false ->
  ∃ (r : row) others v0 v1,
    db' = <[name := r :: others]> db
    ∧ inst !! attname f = Some v0
    ∧ hook_value str_upper f v0 = Ok v1
    ∧ ((∃ v', get_prep_value S f v1 = Ok v' ∧ r !! attname f = Some v')
       ∨ (∃ v2 v', hook_value str_upper f v1 = Ok v2
                   ∧ get_prep_value S f v2 = Ok v' ∧ r !! attname f = Some v')).
Proof.
  intros H Hm Hf Hpk. unfold save in H. rewrite Hm in H.
  pose proof (find_model_wf _ _ Hm) as Hwf.
  destruct (find_model_Some _ _ Hm) as [_ Hname].
  assert (is_auto (f_kind f) = false) as Hfa.
  { destruct (is_auto (f_kind f)) eqn:Ha; [|done].
    rewrite (wf_model_auto _ _ Hwf Hf Ha) in Hpk.
    destruct (wf_model_pk_in _ Hwf). congruence. }
  assert (attname f ≠ pk_attname m) as Hne.
  { intros He. unfold pk_attname in He.
    apply (attname_inj_in m) in He; [|done|done|by apply wf_model_pk_in].
    subst f. destruct (wf_model_pk_in _ Hwf). congruence. }
  assert (f ∈ non_pks m) as Hnp.
  { apply list_elem_of_In, filter_In. split; [by apply list_elem_of_In|].
    by rewrite Hpk. }
  assert (NoDup (map attname (non_pks m))) as Hnd.
  { apply NoDup_map_filter. by apply wf_model_NoDup. }
  destruct (bool_decide _ && negb force_insert).
  - apply bind_Ok in H as (pkv & _ & H).
    apply bind_Ok in H as ([cols inst1] & Hp & H). simpl in H.
    destruct (bool_decide (Exists _ _)).
    + match type of H with (if checks _ _ _ ?r ?o then _ else _) = _ =>
        destruct (checks S db m r o); [|discriminate]; exists r, o end.
      simplify_eq.
      destruct (prepare_cols _ _ _ _ _ Hp Hnd f Hnp) as (v0 & v1 & v' & ? & ? & ? & ?).
      exists v0, v1. split_and!; [done..|]. left. exists v'.
      by rewrite lookup_insert_ne.
    + apply db_insert_shape in H as (r & -> & _ & _ & Hst); [|done].
      destruct (Hst f Hf Hfa) as (w0 & w1 & w' & Hw0 & Hw1 & Hw' & Hr).
      destruct (prepare_inst _ _ _ _ _ Hp Hnd f Hnp) as (v0 & v1 & Hv0 & Hv1 & Hi).
      rewrite Hname. exists r, (table db name), v0, v1. split_and!; [done..|].
      right. exists w1, w'. rewrite Hi in Hw0. by simplify_eq.
  - apply db_insert_shape in H as (r & -> & _ & _ & Hst); [|done].
    destruct (Hst f Hf Hfa) as (v0 & v1 & v' & ? & ? & ? & ?).
    rewrite Hname. exists r, (table db name), v0, v1. split_and!; [done..|].
    left. by exists v'.
Qed.

(** ** References stay valid *)

Lemma elem_of_fk_refs m (r : row) tv :
  tv ∈ fk_refs m r
  ↔ ∃ f od, f ∈ all_fields m ∧ relation (f_kind f) = Some (tv.1, od)
            ∧ r !! attname f = Some tv.2 ∧ tv.2 ≠ VNone.
Proof.
  unfold fk_refs. rewrite list_elem_of_omap. split.
  - intros (f & Hf & H).
    destruct (relation (f_kind f)) as [[to od]|] eqn:Hrel; [|done].
    destruct (r !! attname f) as [v|] eqn:Hv; [|done].
    destruct (decide (v = VNone)); simplify_eq. exists f, od. by split_and!.
  - intros (f & od & Hf & Hrel & Hv & Hne). exists f. split; [done|].
    rewrite Hrel, Hv. rewrite decide_False by done. by destruct tv.
Qed.

Lemma fk_ok_spec db m (r : row) :
  fk_ok S db m r = true -> Forall (ref_ok S db) (fk_refs m r).
Proof.
  unfold fk_ok. rewrite forallb_forall. intros H. apply Forall_forall.
  intros tv Hin. apply list_elem_of_In in Hin.
  specialize (H tv Hin). by apply bool_decide_eq_true in H.
Qed.

Lemma save_refs_ok db name inst force_insert db' inst' :
  refs_ok S db ->
  save str_upper S db name inst force_insert = Ok (db', inst') ->
  refs_ok S db'.
Proof.
  intros Hok H.
  apply save_shape in H as (m & r & others & Hm & -> & Hsub & Hc & _ & Hkeep).
  assert (∀ tv, ref_ok S db tv -> ref_ok S (<[name := r :: others]> db) tv) as Hmono.
  { intros [to v]. unfold ref_ok. simpl.
    destruct (find_model S to) as [tm|] eqn:Htm; [|done].
    destruct (decide (name = to)) as [<-|Hne];
      [|by rewrite table_insert_ne].
    rewrite table_insert_eq. simplify_eq.
    rewrite !Exists_exists. intros (t & Ht & Hpk).
    destruct (Hkeep t Ht) as [Hin|Heq].
    - exists t. split; [by apply list_elem_of_further | done].
    - exists r. split; [by apply list_elem_of_here|].
      unfold has_pk in *. congruence. }
  unfold checks in Hc. rewrite !andb_true_iff in Hc. destruct Hc as [_ Hfk].
  apply fk_ok_spec in Hfk.
  intros n m' r' Hm' Hr'. eapply Forall_impl; [|exact Hmono].
  destruct (decide (name = n)) as [<-|Hne].
  - rewrite table_insert_eq in Hr'. simplify_eq.
    apply elem_of_cons in Hr' as [->|Hr']; [done|].
    eapply Hok; [done|]. by eapply elem_of_sublist.
  - rewrite table_insert_ne in Hr' by done. by eapply Hok.
Qed.

Lemma elem_of_table_remove C db name m (r : row) :
  find_model S name = Some m ->
  r ∈ table (remove S C db) name ↔ r ∈ table db name ∧ ¬ collected C m r.
Proof.
  intros Hm. rewrite (table_remove_eq _ _ _ _ Hm), list_elem_of_filter.
  split; intros [? ?]; by split.
Qed.

Lemma delete_refs_ok db name pk db' :
  refs_ok S db -> delete S db name pk = Ok db' -> refs_ok S db'.
Proof.
  intros Hok H. apply delete_shape in H as [-> Hnb].
  set (C := collect S db (name, pk)) in *.
  intros n m r Hm Hr. apply (elem_of_table_remove _ _ _ _ _ Hm) in Hr as [Hr Hnc].
  pose proof (Hok _ _ _ Hm Hr) as Hrefs.
  rewrite Forall_forall in Hrefs. apply Forall_forall. intros [to v] Htv.
  specialize (Hrefs _ Htv). unfold ref_ok in *. simpl in *.
  destruct (find_model S to) as [tm|] eqn:Htm; [|done].
  rewrite Exists_exists in *. destruct Hrefs as (t & Ht & Hpk).
  exists t. split; [|done].
  apply (elem_of_table_remove _ _ _ _ _ Htm). split; [done|].
  unfold collected. unfold has_pk in Hpk. rewrite Hpk.
  destruct (find_model_Some _ _ Htm) as [_ ->].
  intros HinC.
  apply elem_of_fk_refs in Htv as (f & od & Hf & Hrel & Hv & Hne). simpl in *.
  destruct (find_model_Some _ _ Hm) as [HmS Hname].
  assert ((n, r) ∈ blockers S od db C) as Hb.
  { apply elem_of_blockers. exists m. rewrite Hname. split_and!; [done..|].
    apply Exists_exists. exists (to, v). split; [done|].
    unfold refers. apply Exists_exists. exists f. by split_and!. }
  rewrite Hnb in Hb. by apply elem_of_nil in Hb.
Qed.

Lemma empty_refs_ok : refs_ok S ∅.
Proof.
  intros n m r _ Hr. unfold table in Hr. rewrite lookup_total_empty in Hr.
  by apply elem_of_nil in Hr.
Qed.

(** In every state the database can be in, every reference points at a
    row. *)
Lemma reachable_refs_ok db : reachable str_upper S db -> refs_ok S db.
Proof.
  induction 1 as [|db name inst fi db' inst' _ IH Hs|db name pk db' _ IH Hd].
  - apply empty_refs_ok.
  - by eapply save_refs_ok.
  - by eapply delete_refs_ok.
Qed.

(** ** Scripts reach states *)

Lemma run_reachable ops db db' :
  reachable str_upper S db -> run str_upper S ops db = Ok db' ->
  reachable str_upper S db'.
Proof.
  revert db. induction ops as [|o ops IH]; intros db Hr H; simpl in H.
  { by simplify_eq. }
  apply bind_Ok in H as (db1 & Ho & H). apply (IH db1); [|done].
  destruct o as [name kwargs|name inst fi|name pk]; simpl in Ho.
  - apply bind_Ok in Ho as ([db2 inst'] & Hc & Ho). simpl in Ho. simplify_eq.
    unfold create in Hc. destruct (find_model S name); [|discriminate].
    apply bind_Ok in Hc as (inst & _ & Hs). by eapply reach_save.
  - apply bind_Ok in Ho as ([db2 inst'] & Hs & Ho). simpl in Ho. simplify_eq.
    by eapply reach_save.
  - by eapply reach_delete.
Qed.

End EngineFacts.

(** * The schema of the site *)

Lemma site_wf : Forall (fun m => wf_model m = true) site.
Proof. repeat (constructor; [vm_compute; reflexivity|]). constructor. Qed.

Lemma site_find m : m ∈ site -> find_model site (m_name m) = Some m.
Proof.
  revert m. apply Forall_forall.
  repeat (constructor; [vm_compute; reflexivity|]). constructor.
Qed.

(** Every state of the site satisfies the invariant of the tables, and in
    every state the references point at rows. *)
Lemma site_reachable_ok str_upper db : reachable str_upper site db -> db_ok site db.
Proof. apply reachable_db_ok. exact site_wf. Qed.

Lemma site_reachable_refs_ok str_upper db :
  reachable str_upper site db -> refs_ok site db.
Proof. apply reachable_refs_ok. exact site_wf. Qed.

Lemma is_ok_state_of (r : result database) : is_ok r = true -> r = Ok (state_of r).
Proof. by destruct r. Qed.

Lemma is_ok_db_of (r : result (database * instance)) :
  is_ok r = true -> r = Ok (db_of r, inst_of r).
Proof. by destruct r as [[]|]. Qed.

Lemma row_at_elem db name i :
  (i <? length (table db name))%nat = true -> row_at db name i ∈ table db name.
Proof.
  intros H. apply Nat.ltb_lt in H. unfold row_at.
  destruct (table db name !! i) as [r|] eqn:Hr.
  - by eapply list_elem_of_lookup_2.
  - apply lookup_ge_None in Hr. lia.
Qed.

Lemma demo_run : run ascii_upper site demo_script ∅ = Ok demo_db.
Proof. apply is_ok_state_of. vm_compute. reflexivity. Qed.

Lemma demo_reachable : reachable ascii_upper site demo_db.
Proof.
  eapply run_reachable; [apply reach_empty | exact demo_run].
Qed.

Section Site.

Variable str_upper : string -> string.

Lemma save_force_eq db name inst m :
  find_model site name = Some m ->
  save str_upper site db name inst true = db_insert str_upper site db m inst.
Proof. intros Hm. unfold save. rewrite Hm. by rewrite andb_false_r. Qed.

(** ** The uppercase field *)

(** C2.  When the [letra] attribute of an [Inmueble] instance is a non-empty
    string, the [pre_save] hook of the field returns its uppercase and sets
    the attribute to it; the row a forced INSERT of the instance stores holds
    the uppercase in its [letra] column, and so does the row of any save,
    [str.upper] leaving an uppercase string as it is. *)
Theorem Inmueble_letra_saved_uppercase (inst : instance) (s : string) (add : bool) :
  inst !! "letra" = Some (VStr s) -> s ≠ ""%string ->
  pre_save str_upper Decl.Inmueble_letra inst add
    = (Ok (VStr (str_upper s)), <["letra" := VStr (str_upper s)]> inst)
  ∧ UpperCaseCharField_pre_save str_upper "letra" inst add
    = (Ok (VStr (str_upper s)), <["letra" := VStr (str_upper s)]> inst)
  ∧ (∀ db db' inst',
       save str_upper site db "Inmueble" inst true = Ok (db', inst') ->
       ∃ r : row, table db' "Inmueble" = r :: table db "Inmueble"
                  ∧ r !! "letra" = Some (VStr (str_upper s)))
  ∧ ((∀ t, str_upper (str_upper t) = str_upper t) ->
     ∀ db force_insert db' inst',
       save str_upper site db "Inmueble" inst force_insert = Ok (db', inst') ->
       ∃ (r : row) others, table db' "Inmueble" = r :: others
                           ∧ r !! "letra" = Some (VStr (str_upper s))).
Proof.
  intros Hl Hs.
  assert (UpperCaseCharField_pre_save str_upper "letra" inst add
          = (Ok (VStr (str_upper s)), <["letra" := VStr (str_upper s)]> inst)) as Hps.
  { unfold UpperCaseCharField_pre_save, getattr_default. rewrite Hl. simpl.
    by rewrite bool_decide_eq_false_2. }
  assert (Decl.Inmueble_letra ∈ all_fields Decl.Inmueble) as Hin by in_list.
  assert (hook_value str_upper Decl.Inmueble_letra (VStr s) = Ok (VStr (str_upper s)))
    as Hhook.
  { unfold hook_value. simpl. by rewrite bool_decide_eq_false_2. }
  assert (∀ t v', get_prep_value site Decl.Inmueble_letra (VStr t) = Ok v' ->
                  v' = VStr t) as Hprep.
  { intros t v' H. vm_compute in H. by simplify_eq. }
  split_and!; [exact Hps | exact Hps | |].
  - intros db db' inst' Hsave.
    rewrite (save_force_eq _ _ _ Decl.Inmueble) in Hsave by reflexivity.
    apply db_insert_shape in Hsave as (r & -> & _ & _ & Hst); [|by vm_compute].
    exists r. split; [by rewrite table_insert_eq|].
    destruct (Hst Decl.Inmueble_letra Hin eq_refl) as (v0 & v1 & v' & H0 & H1 & H2 & H3).
    change (attname Decl.Inmueble_letra) with "letra"%string in *.
    rewrite Hl in H0. simplify_eq. rewrite Hhook in H1. simplify_eq.
    by rewrite (Hprep _ _ H2) in H3.
  - intros Hidem db fi db' inst' Hsave.
    destruct (save_stored str_upper site site_wf _ _ _ _ _ _ Decl.Inmueble
                Decl.Inmueble_letra Hsave eq_refl Hin eq_refl)
      as (r & others & v0 & v1 & -> & H0 & H1 & Hst).
    change (attname Decl.Inmueble_letra) with "letra"%string in *.
    rewrite Hl in H0. simplify_eq. rewrite Hhook in H1. simplify_eq.
    exists r, others. split; [by rewrite table_insert_eq|].
    destruct Hst as [(v' & H2 & H3)|(v2 & v' & Hh2 & H2 & H3)].
    + by rewrite (Hprep _ _ H2) in H3.
    + assert (v2 = VStr (str_upper s)) as ->.
      { unfold hook_value in Hh2. simpl in Hh2.
        destruct (bool_decide (str_upper s = ""%string)); simpl in Hh2;
          simplify_eq; [done|]. by rewrite Hidem. }
      by rewrite (Hprep _ _ H2) in H3.
Qed.


End Site.

Lemma ascii_upper_char_idem c :
  ascii_upper_char (ascii_upper_char c) = ascii_upper_char c.
Proof. by destruct c as [[] [] [] [] [] [] [] []]. Qed.

Lemma ascii_upper_idem t : ascii_upper (ascii_upper t) = ascii_upper t.
Proof.
  induction t as [|c t IH]; [done|].
  simpl. by rewrite ascii_upper_char_idem, IH.
Qed.

Lemma Inmueble_letra_saved_uppercase_witness :
  demo_inmueble !! "letra" = Some (VStr "d")
  ∧ "d"%string ≠ ""%string
  ∧ pre_save ascii_upper Decl.Inmueble_letra demo_inmueble true
    = (Ok (VStr "D"), <["letra" := VStr "D"]> demo_inmueble)
  ∧ (∃ r : row,
       table (db_of (save ascii_upper site demo_db "Inmueble" demo_inmueble true))
             "Inmueble"
       = r :: table demo_db "Inmueble"
       ∧ r !! "letra" = Some (VStr "D"))
  ∧ (∃ (r : row) others,
       table (db_of (save ascii_upper site demo_db "Inmueble" demo_inmueble_keyed
                       false)) "Inmueble"
       = r :: others
       ∧ r !! "letra" = Some (VStr "D")).
Proof.
  assert (demo_inmueble !! "letra" = Some (VStr "d")) as Hl by reflexivity.
  assert (demo_inmueble_keyed !! "letra" = Some (VStr "d")) as Hl' by reflexivity.
  assert ("d"%string ≠ ""%string) as Hs by done.
  destruct (Inmueble_letra_saved_uppercase ascii_upper demo_inmueble "d" true Hl Hs)
    as (H1 & _ & H3 & _).
  destruct (Inmueble_letra_saved_uppercase ascii_upper demo_inmueble_keyed "d" true
              Hl' Hs) as (_ & _ & _ & H4).
  split_and!; [exact Hl | exact Hs | exact H1 | |].
  - apply (H3 demo_db _
             (inst_of (save ascii_upper site demo_db "Inmueble" demo_inmueble true))).
    apply is_ok_db_of. vm_compute. reflexivity.
  - apply (H4 ascii_upper_idem demo_db false _
             (inst_of (save ascii_upper site demo_db "Inmueble" demo_inmueble_keyed
                         false))).
    apply is_ok_db_of. vm_compute. reflexivity.
Defined.


(** ** The relations of a vote *)

(** C3.  A [Votacion] declares a relation to [TipoVotacion] and one to
    [Portal], both registered classes; its third relation names the class
    [InmuebleTipoPortal], which no statement of the module binds, where the
    module's other relations to the unit type of a building name
    [TipoBasePortal]: executing the module raises [NameError] there. *)
Theorem Votacion_inmueble_tipo_portal_unbound :
  map (fun f => (f_name f, relation (f_kind f))) (m_fields Decl.Votacion)
  = [ ("nombre", None); ("descripcion", None);
      ("tipo", Some ("TipoVotacion", RESTRICT));
      ("portal", Some ("Portal", RESTRICT));
      ("inmueble_tipo_portal", Some ("InmuebleTipoPortal", RESTRICT)) ]%string
  ∧ find_model site "TipoVotacion" = Some Decl.TipoVotacion
  ∧ find_model site "Portal" = Some Decl.Portal
  ∧ find_model site "TipoBasePortal" = Some Decl.TipoBasePortal
  ∧ find_model site "InmuebleTipoPortal" = None
  ∧ Forall (fun m => m_name m ≠ "InmuebleTipoPortal"%string) site
  ∧ omap (fun f => relation (f_kind f)) (m_fields Decl.DocumentoTipoBasePortal)
    = [ ("TipoBasePortal", RESTRICT) ]%string
  ∧ import_module = Raise (NameError "InmuebleTipoPortal").
Proof.
  split_and!; try reflexivity.
  repeat (constructor; [done|]). constructor.
Qed.

(** ** Cast votes *)

Section Votes.

Variable str_upper : string -> string.


End Votes.


(** ** Rooms of a floor plan, buildings and documents *)

Section Tables.

Variable str_upper : string -> string.

Lemma int_column (k : field_kind) (v : value) :
  has_type k v -> v ≠ VNone -> empty_strings_allowed k = false ->
  k ≠ BooleanField -> k ≠ DateField -> ∃ z, v = VInt z.
Proof. destruct v; simpl; intros; try done; try congruence. by eexists. Qed.

(** C5.  In every state of the database no two rows of [EstanciaTipoBase]
    hold the same floor plan and the same room, and every row holds an
    integer in [numero]; an instance built without [numero] has it at 1,
    and so has the row stored for it. *)
Theorem EstanciaTipoBase_unique_pair_numero (db : database) :
  reachable str_upper site db ->
  (∀ i j (r1 r2 : row),
     table db "EstanciaTipoBase" !! i = Some r1 ->
     table db "EstanciaTipoBase" !! j = Some r2 ->
     r1 !! "tipo_base_id" = r2 !! "tipo_base_id" ->
     r1 !! "estancia_id" = r2 !! "estancia_id" ->
     i = j)
  ∧ (∀ r : row, r ∈ table db "EstanciaTipoBase" -> ∃ z, r !! "numero" = Some (VInt z))
  ∧ (∀ kwargs inst,
       kwarg kwargs "numero" = None ->
       init Decl.EstanciaTipoBase kwargs = Ok inst ->
       inst !! "numero" = Some (VInt 1))
  ∧ (∀ tb e (rtb re : row),
       rtb ∈ table db "TipoBase" -> rtb !! "id" = Some (VInt tb) ->
       re ∈ table db "Estancia" -> re !! "id" = Some (VInt e) ->
       (∀ r : row, r ∈ table db "EstanciaTipoBase" ->
          ¬ (r !! "tipo_base_id" = Some (VInt tb) ∧ r !! "estancia_id" = Some (VInt e))) ->
       ∃ db' inst' (r : row),
         create str_upper site db "EstanciaTipoBase"
           [("tipo_base_id", VInt tb); ("estancia_id", VInt e)] = Ok (db', inst')
         ∧ table db' "EstanciaTipoBase" = r :: table db "EstanciaTipoBase"
         ∧ r !! "numero" = Some (VInt 1)
         ∧ r !! "tipo_base_id" = Some (VInt tb)
         ∧ r !! "estancia_id" = Some (VInt e)).
Proof.
  intros Hreach. pose proof (site_reachable_ok _ _ Hreach) as Hok.
  assert (find_model site "EstanciaTipoBase" = Some Decl.EstanciaTipoBase) as Hm
    by reflexivity.
  split_and!.
  - intros i j r1 r2 Hi Hj Hc Ho.
    eapply (db_ok_distinct site db _ _ ["tipo_base_id"; "estancia_id"]%string);
      [exact Hok|exact Hm| |reflexivity|exact Hi|exact Hj|].
    + in_list.
    + intros c Hin. set_unfold. destruct Hin as [->|[->|[]]]; done.
  - intros r Hr.
    destruct (db_ok_column site db _ _
                (with_default (VInt 1) (fld "numero" IntegerField)) r Hok Hm)
      as (v & Hv & Ht & Hnn); [in_list|done|].
    destruct (int_column _ _ Ht (Hnn eq_refl)) as [z ->]; try done.
    by exists z.
  - intros kwargs inst Hk Hi.
    pose proof (init_lookup _ _ _ (with_default (VInt 1) (fld "numero" IntegerField))
                  (find_model_wf _ site_wf _ _ Hm) Hi) as Hl.
    change (attname _) with "numero"%string in Hl.
    rewrite Hl, Hk; [done|]. in_list.
  - intros tb e rtb re Hrtb Htb Hre He Hfree.
    destruct (create_auto_ok str_upper site site_wf db "EstanciaTipoBase"
                Decl.EstanciaTipoBase
                [("tipo_base_id", VInt tb); ("estancia_id", VInt e)]
                [("numero", VInt 1); ("tipo_base_id", VInt tb);
                 ("estancia_id", VInt e)]%string
                [("TipoBase", VInt tb); ("Estancia", VInt e)]%string)
      as (inst' & Hcr).
    + exact Hm.
    + reflexivity.
    + vm_compute. reflexivity.
    + vm_compute. reflexivity.
    + intros n. vm_compute. reflexivity.
    + intros n. vm_compute. reflexivity.
    + repeat constructor.
      * apply Exists_exists. exists rtb. split; done.
      * apply Exists_exists. exists re. split; done.
    + intros n colset Hin Hpk. vm_compute in Hin. set_unfold.
      destruct Hin as [->|[->|[]]]; [done|].
      apply Forall_forall. intros r Hr Hconf.
      apply (Hfree r Hr).
      split.
      * destruct (proj1 (conflicts_iff _ _ _) Hconf "tipo_base_id"%string)
          as (w & Hw & Hw' & _); [in_list|].
        vm_compute in Hw. congruence.
      * destruct (proj1 (conflicts_iff _ _ _) Hconf "estancia_id"%string)
          as (w & Hw & Hw' & _); [in_list|].
        vm_compute in Hw. congruence.
    + eexists _, inst', _. split; [exact Hcr|].
      rewrite table_insert_eq. split_and!; [done|..]; vm_compute; reflexivity.
Qed.

(** C6.  The primary key of [Portal] is its integer field [numero], the
    only column of the table (there is no automatic [id]); in every state of
    the database each row holds an integer there, no two rows hold the same,
    and creating a building under the number of an existing one fails. *)
Theorem Portal_numero_primary_key (db : database) :
  reachable str_upper site db ->
  pk_field Decl.Portal = with_primary_key (fld "numero" IntegerField)
  ∧ map attname (all_fields Decl.Portal) = ["numero"%string]
  ∧ (∀ r : row, r ∈ table db "Portal" -> ∃ z, r !! "numero" = Some (VInt z))
  ∧ (∀ i j (r1 r2 : row),
       table db "Portal" !! i = Some r1 ->
       table db "Portal" !! j = Some r2 ->
       r1 !! "numero" = r2 !! "numero" ->
       i = j)
  ∧ (∀ kwargs n (r0 : row),
       kwarg kwargs "numero" = Some (VInt n) ->
       r0 ∈ table db "Portal" -> r0 !! "numero" = Some (VInt n) ->
       is_ok (create str_upper site db "Portal" kwargs) = false).
Proof.
  intros Hreach. pose proof (site_reachable_ok _ _ Hreach) as Hok.
  assert (find_model site "Portal" = Some Decl.Portal) as Hm by reflexivity.
  split_and!; [reflexivity|reflexivity| | |].
  - intros r Hr.
    destruct (db_ok_column site db _ _
                (with_primary_key (fld "numero" IntegerField)) r Hok Hm)
      as (v & Hv & Ht & Hnn); [in_list|done|].
    destruct (int_column _ _ Ht (Hnn eq_refl)) as [z ->]; try done.
    by exists z.
  - intros i j r1 r2 Hi Hj Hn.
    eapply (db_ok_distinct site db _ _ ["numero"]%string);
      [exact Hok|exact Hm| |reflexivity|exact Hi|exact Hj|].
    + in_list.
    + intros c Hin. set_unfold. destruct Hin as [->|[]]; done.
  - intros kwargs n r0 Hk Hr0 Hr0n.
    destruct (create _ _ _ _ kwargs) as [[db' inst']|e] eqn:Hcr; [exfalso|done].
    apply (create_row _ _ site_wf _ _ _ _ _ _ Hm) in Hcr as (r & -> & Hchk & Hrow).
    assert (r !! "numero" = Some (VInt n)) as Hrn.
    { eapply (Hrow (with_primary_key (fld "numero" IntegerField)));
        [in_list|reflexivity|reflexivity|by rewrite Hk|
         reflexivity|reflexivity]. }
    unfold checks in Hchk. rewrite !andb_true_iff in Hchk.
    destruct Hchk as [[_ Hu] _].
    pose proof (unique_ok_spec _ _ _ ["numero"]%string Hu) as Hall.
    rewrite Forall_forall in Hall. eapply Hall; [in_list|exact Hr0|].
    apply conflicts_iff. intros a Ha. set_unfold.
    destruct Ha as [->|[]]; eexists; split_and!; done.
Qed.

(** An instance of [Portal] has the attribute [numero] and no attribute
    [id]: the text of a building, which reads [self.id], cannot be built. *)
Lemma Portal_str_no_id kwargs inst :
  init Decl.Portal kwargs = Ok inst ->
  Portal_str inst = Raise AttributeError.
Proof.
  unfold init. destruct (forallb _ kwargs); [|discriminate].
  intros [= <-]. reflexivity.
Qed.

(** C7.  In every state of the database the titles of the rows of
    [DocumentoPortalPromocion] are pairwise distinct and so are their
    document paths, and creating a document under a title or under a path
    that a row already holds fails. *)
Theorem DocumentoPortalPromocion_unique_titulo_ruta (db : database) :
  reachable str_upper site db ->
  (∀ i j (r1 r2 : row),
     table db "DocumentoPortalPromocion" !! i = Some r1 ->
     table db "DocumentoPortalPromocion" !! j = Some r2 ->
     r1 !! "titulo" = r2 !! "titulo" ->
     i = j)
  ∧ (∀ i j (r1 r2 : row),
       table db "DocumentoPortalPromocion" !! i = Some r1 ->
       table db "DocumentoPortalPromocion" !! j = Some r2 ->
       r1 !! "ruta_documento" = r2 !! "ruta_documento" ->
       i = j)
  ∧ (∀ kwargs t (r0 : row),
       kwarg kwargs "titulo" = Some (VStr t) ->
       r0 ∈ table db "DocumentoPortalPromocion" -> r0 !! "titulo" = Some (VStr t) ->
       is_ok (create str_upper site db "DocumentoPortalPromocion" kwargs) = false)
  ∧ (∀ kwargs p (r0 : row),
       kwarg kwargs "ruta_documento" = Some (VStr p) ->
       r0 ∈ table db "DocumentoPortalPromocion" ->
       r0 !! "ruta_documento" = Some (VStr p) ->
       is_ok (create str_upper site db "DocumentoPortalPromocion" kwargs) = false).
Proof.
  intros Hreach. pose proof (site_reachable_ok _ _ Hreach) as Hok.
  assert (find_model site "DocumentoPortalPromocion"
          = Some Decl.DocumentoPortalPromocion) as Hm by reflexivity.
  assert (∀ col, col ∈ ["titulo"; "ruta_documento"]%string ->
            ∀ i j (r1 r2 : row),
              table db "DocumentoPortalPromocion" !! i = Some r1 ->
              table db "DocumentoPortalPromocion" !! j = Some r2 ->
              r1 !! col = r2 !! col -> i = j) as Hdist.
  { intros col Hcol i j r1 r2 Hi Hj He.
    apply elem_of_cons in Hcol as [->|Hcol];
      [|apply list_elem_of_singleton in Hcol as ->].
    - eapply (db_ok_distinct site db _ _ ["titulo"%string]);
        [exact Hok|exact Hm|in_list|reflexivity|exact Hi|exact Hj|].
      intros c Hin; apply list_elem_of_singleton in Hin as ->; exact He.
    - eapply (db_ok_distinct site db _ _ ["ruta_documento"%string]);
        [exact Hok|exact Hm|in_list|reflexivity|exact Hi|exact Hj|].
      intros c Hin; apply list_elem_of_singleton in Hin as ->; exact He. }
  assert (∀ (f : field) col kwargs s (r0 : row),
            f ∈ [with_unique (fld "titulo" (CharField 100));
                 with_unique (fld "ruta_documento" (CharField 255))] ->
            attname f = col ->
            kwarg kwargs col = Some (VStr s) ->
            r0 ∈ table db "DocumentoPortalPromocion" -> r0 !! col = Some (VStr s) ->
            is_ok (create str_upper site db "DocumentoPortalPromocion" kwargs) = false)
    as Hfail.
  { intros f col kwargs s r0 Hf Hcol Hk Hr0 Hr0c.
    destruct (create _ _ _ _ kwargs) as [[db' inst']|e] eqn:Hcr; [exfalso|done].
    apply (create_row _ _ site_wf _ _ _ _ _ _ Hm) in Hcr as (r & -> & Hchk & Hrow).
    assert (f = with_unique (fld "titulo" (CharField 100))
            ∨ f = with_unique (fld "ruta_documento" (CharField 255))) as Hf'.
    { apply elem_of_cons in Hf as [->|Hf]; [by left|].
      apply list_elem_of_singleton in Hf as ->. by right. }
    assert (r !! col = Some (VStr s)) as Hrc.
    { destruct Hf' as [->| ->];
        (eapply (Hrow _ col (VStr s));
           [in_list|reflexivity|exact Hcol|by rewrite Hk|
            reflexivity|reflexivity]). }
    unfold checks in Hchk. rewrite !andb_true_iff in Hchk.
    destruct Hchk as [[_ Hu] _].
    pose proof (unique_ok_spec _ _ _ [col] Hu) as Hall.
    rewrite Forall_forall in Hall. eapply Hall; [|exact Hr0|].
    - subst col. destruct Hf' as [->| ->]; in_list.
    - apply conflicts_iff. intros a Ha. apply list_elem_of_singleton in Ha as ->.
      eexists; split_and!; done. }
  split_and!.
  - apply Hdist. in_list.
  - apply Hdist. in_list.
  - intros kwargs t r0.
    apply (Hfail (with_unique (fld "titulo" (CharField 100)))); [in_list|reflexivity].
  - intros kwargs p0 r0.
    apply (Hfail (with_unique (fld "ruta_documento" (CharField 255))));
      [in_list|reflexivity].
Qed.

End Tables.

(** ** Owners *)

Section Owners.

Variable str_upper : string -> string.

(** C8.  In every state of the database no two rows of [Cliente] hold the
    same account and no two hold the same [dni]; the account of every row
    is a row of the account table; and creating an owner for an account
    that has one, or under a [dni] that a row holds, fails. *)
Theorem Cliente_one_user_unique_dni (db : database) :
  reachable str_upper site db ->
  (∀ i j (r1 r2 : row),
     table db "Cliente" !! i = Some r1 -> table db "Cliente" !! j = Some r2 ->
     r1 !! "user_id" = r2 !! "user_id" -> i = j)
  ∧ (∀ i j (r1 r2 : row),
       table db "Cliente" !! i = Some r1 -> table db "Cliente" !! j = Some r2 ->
       r1 !! "dni" = r2 !! "dni" -> i = j)
  ∧ (∀ rc : row, rc ∈ table db "Cliente" ->
       ∃ u (ru : row), rc !! "user_id" = Some (VInt u)
         ∧ ru ∈ table db "User" ∧ ru !! "id" = Some (VInt u))
  ∧ (∀ kwargs u (r0 : row),
       kwarg kwargs "user_id" = Some (VInt u) ->
       r0 ∈ table db "Cliente" -> r0 !! "user_id" = Some (VInt u) ->
       is_ok (create str_upper site db "Cliente" kwargs) = false)
  ∧ (∀ kwargs d (r0 : row),
       kwarg kwargs "dni" = Some (VStr d) ->
       r0 ∈ table db "Cliente" -> r0 !! "dni" = Some (VStr d) ->
       is_ok (create str_upper site db "Cliente" kwargs) = false).
Proof.
  intros Hreach. pose proof (site_reachable_ok _ _ Hreach) as Hok.
  pose proof (site_reachable_refs_ok _ _ Hreach) as Hrefs.
  assert (find_model site "Cliente" = Some Decl.Cliente) as Hm by reflexivity.
  split_and!.
  - intros i j r1 r2 Hi Hj He.
    eapply (db_ok_distinct site db _ _ ["user_id"%string]);
      [exact Hok|exact Hm|in_list|reflexivity|exact Hi|exact Hj|].
    intros c Hin; apply list_elem_of_singleton in Hin as ->; exact He.
  - intros i j r1 r2 Hi Hj He.
    eapply (db_ok_distinct site db _ _ ["dni"%string]);
      [exact Hok|exact Hm|in_list|reflexivity|exact Hi|exact Hj|].
    intros c Hin; apply list_elem_of_singleton in Hin as ->; exact He.
  - intros rc Hrc.
    destruct (db_ok_column site db _ _
                (fld "user" (OneToOneField "User" CASCADE "cliente")) rc Hok Hm)
      as (v & Hv & Ht & Hnn); [in_list|done|].
    change (attname _) with "user_id"%string in Hv.
    destruct (int_column _ _ Ht (Hnn eq_refl)) as [u ->]; try done.
    pose proof (Hrefs _ _ _ Hm Hrc) as Hall. rewrite Forall_forall in Hall.
    assert (ref_ok site db ("User"%string, VInt u)) as Hu.
    { apply Hall. apply elem_of_fk_refs.
      exists (fld "user" (OneToOneField "User" CASCADE "cliente")), CASCADE.
      split_and!; [in_list|done..]. }
    unfold ref_ok in Hu. change (find_model site ("User"%string, VInt u).1)
      with (Some Decl.User) in Hu. simpl in Hu.
    apply Exists_exists in Hu as (ru & Hru & Hpk). by exists u, ru.
  - intros kwargs u r0 Hk Hr0 Hr0u.
    eapply (create_duplicate_fails str_upper site site_wf db "Cliente" Decl.Cliente
              (fld "user" (OneToOneField "User" CASCADE "cliente")) "user_id");
      [exact Hm|in_list|reflexivity|reflexivity|in_list|exact Hk|done|
       reflexivity|reflexivity|exact Hr0|exact Hr0u].
  - intros kwargs d r0 Hk Hr0 Hr0d.
    eapply (create_duplicate_fails str_upper site site_wf db "Cliente" Decl.Cliente
              (with_unique (fld "dni" (CharField 10))) "dni");
      [exact Hm|in_list|reflexivity|reflexivity|in_list|exact Hk|done|
       reflexivity|reflexivity|exact Hr0|exact Hr0d].
Qed.

End Owners.

(** ** Selections *)

Lemma models_fields_forall (P : model -> field -> Prop) (chk : model -> field -> bool) :
  (∀ m f, chk m f = true -> P m f) ->
  forallb (fun m => forallb (chk m) (m_fields m)) models_py = true ->
  ∀ m f, m ∈ models_py -> f ∈ m_fields m -> P m f.
Proof.
  intros Hchk H m f Hm Hf. apply Hchk.
  rewrite forallb_forall in H. specialize (H m (proj1 (list_elem_of_In _ _) Hm)).
  rewrite forallb_forall in H. apply H. by apply list_elem_of_In.
Qed.

Section Selections.

Variable str_upper : string -> string.


End Selections.

(** ** Deleting referenced rows *)

Lemma site_rel_forall (chk : string -> string -> string -> on_delete_t -> bool) :
  forallb (fun m =>
    forallb (fun f => match relation (f_kind f) with
                      | Some (to, od) => chk (m_name m) (attname f) to od
                      | None => true
                      end) (all_fields m)) site = true ->
  ∀ m f to od, m ∈ site -> f ∈ all_fields m ->
    relation (f_kind f) = Some (to, od) -> chk (m_name m) (attname f) to od = true.
Proof.
  intros H m f to od Hm Hf Hrel.
  rewrite forallb_forall in H. specialize (H m (proj1 (list_elem_of_In _ _) Hm)).
  rewrite forallb_forall in H. specialize (H f (proj1 (list_elem_of_In _ _) Hf)).
  by rewrite Hrel in H.
Qed.

(** The only CASCADE relation of the site is [Cliente.user]. *)
Lemma site_cascade m f to :
  m ∈ site -> f ∈ all_fields m -> relation (f_kind f) = Some (to, CASCADE) ->
  m = Decl.Cliente ∧ attname f = "user_id"%string ∧ to = "User"%string.
Proof.
  intros Hm Hf Hrel.
  pose proof (site_rel_forall
    (fun n a to od => match od with
                      | CASCADE => bool_decide (n = "Cliente" ∧ a = "user_id"
                                                ∧ to = "User")%string
                      | RESTRICT => true
                      end) eq_refl m f to CASCADE Hm Hf Hrel) as H.
  apply bool_decide_eq_true in H as (Hn & Ha & Hto).
  split_and!; [|done..].
  pose proof (site_find m Hm) as Hfind. rewrite Hn in Hfind.
  change (find_model site "Cliente") with (Some Decl.Cliente) in Hfind. congruence.
Qed.

(** A RESTRICT relation is not declared by [Cliente], does not point at its
    own class nor at [User], and points at [Cliente] only from
    [Inmueble.propietario] and [ClienteOpcionVoto.cliente]. *)
Lemma site_restrict m f to :
  m ∈ site -> f ∈ all_fields m -> relation (f_kind f) = Some (to, RESTRICT) ->
  m_name m ≠ "Cliente"%string ∧ m_name m ≠ to ∧ to ≠ "User"%string
  ∧ (to = "Cliente"%string ->
     (m_name m, attname f) ∈ [("Inmueble", "propietario_id");
                              ("ClienteOpcionVoto", "cliente_id")]%string).
Proof.
  intros Hm Hf Hrel.
  pose proof (site_rel_forall
    (fun n a to od =>
       match od with
       | RESTRICT =>
           bool_decide (n ≠ "Cliente" ∧ n ≠ to ∧ to ≠ "User"
                        ∧ (to = "Cliente" ->
                           (n, a) ∈ [("Inmueble", "propietario_id");
                                     ("ClienteOpcionVoto", "cliente_id")]))%string
       | CASCADE => true
       end) eq_refl m f to RESTRICT Hm Hf Hrel) as H.
  by apply bool_decide_eq_true in H.
Qed.

(** What the collector gathers on the site: the row itself and, for an
    account, the owners linked to it. *)
Lemma site_collect db name pk x :
  x ∈ collect site db (name, pk) ->
  x = (name, pk)
  ∨ (name = "User"%string ∧ x.1 = "Cliente"%string
     ∧ ∃ rc : row, rc ∈ table db "Cliente" ∧ rc !! "user_id" = Some pk
                   ∧ rc !! "id" = Some x.2).
Proof.
  revert x. apply collect_ind; [by left|].
  intros y x Hy Hx. right.
  apply elem_of_referrers in Hx as (m & r & Hm & Hr & Href & Hpk & Hname).
  unfold refers in Href. apply Exists_exists in Href as (f & Hf & Hrel & Hv).
  destruct (site_cascade _ _ _ Hm Hf Hrel) as (-> & Ha & Hto).
  rewrite Ha in Hv. simpl in Hr, Hpk, Hname.
  destruct Hy as [->|(_ & Hy1 & _)]; [|congruence].
  simpl in *. subst name. split_and!; [done..|]. by exists r.
Qed.

Lemma site_collect_owner db u (rc : row) cid :
  rc ∈ table db "Cliente" -> rc !! "user_id" = Some u -> rc !! "id" = Some cid ->
  ("Cliente"%string, cid) ∈ collect site db ("User"%string, u).
Proof.
  intros Hrc Hu Hid. apply elem_of_collect_step, elem_of_referrers.
  exists Decl.Cliente, rc. split_and!; [in_list|done| |done|done].
  unfold refers. apply Exists_exists.
  exists (fld "user" (OneToOneField "User" CASCADE "cliente")).
  split_and!; [in_list|done|done].
Qed.

(** A row that another row points at through a RESTRICT relation cannot be
    deleted. *)
Lemma site_delete_referenced db name tm pk n m f (r : row) :
  find_model site name = Some tm -> pk ≠ VNone ->
  find_model site n = Some m -> f ∈ all_fields m ->
  relation (f_kind f) = Some (name, RESTRICT) ->
  r ∈ table db n -> r !! attname f = Some pk ->
  delete site db name pk = Raise RestrictedError.
Proof.
  intros Htm Hpk Hm Hf Hrel Hr Hv.
  destruct (find_model_Some _ _ _ Hm) as [HmS Hname].
  destruct (site_restrict _ _ _ HmS Hf Hrel) as (HnC & Hnself & _ & _).
  eapply (delete_restricted site db name pk tm n r); [done..|].
  apply elem_of_blockers. exists m. rewrite Hname. split_and!; [done..| |].
  - unfold collected. destruct (r !! pk_attname m) as [v|]; [|tauto].
    intros Hin. apply site_collect in Hin as [Heq|(_ & Hc & _)].
    + by simplify_eq.
    + simpl in Hc. done.
  - apply Exists_exists. exists (name, pk). split; [apply elem_of_collect_seed|].
    unfold refers. apply Exists_exists. exists f. by split_and!.
Qed.

Section Deletion.

Variable str_upper : string -> string.

(** Deleting an account whose owners no unit and no cast vote points at
    deletes the account and its owners, and nothing else. *)
Lemma site_delete_user db u :
  reachable str_upper site db ->
  (∀ (rc : row) cid,
     rc ∈ table db "Cliente" -> rc !! "user_id" = Some (VInt u) ->
     rc !! "id" = Some cid ->
     (∀ r : row, r ∈ table db "Inmueble" -> r !! "propietario_id" ≠ Some cid)
     ∧ (∀ r : row, r ∈ table db "ClienteOpcionVoto" -> r !! "cliente_id" ≠ Some cid)) ->
  ∃ db',
    delete site db "User" (VInt u) = Ok db'
    ∧ (∀ r : row, r ∈ table db' "User" -> r !! "id" ≠ Some (VInt u))
    ∧ (∀ rc : row, rc ∈ table db' "Cliente" -> rc !! "user_id" ≠ Some (VInt u))
    ∧ (∀ r : row, r ∈ table db "User" -> r !! "id" ≠ Some (VInt u) ->
         r ∈ table db' "User")
    ∧ (∀ rc : row, rc ∈ table db "Cliente" -> rc !! "user_id" ≠ Some (VInt u) ->
         rc ∈ table db' "Cliente")
    ∧ (∀ n, n ≠ "User"%string -> n ≠ "Cliente"%string -> table db' n = table db n).
Proof.
  intros Hreach Hfree.
  pose proof (site_reachable_ok _ _ Hreach) as Hok.
  assert (find_model site "User" = Some Decl.User) as HmU by reflexivity.
  assert (find_model site "Cliente" = Some Decl.Cliente) as HmC by reflexivity.
  set (C := collect site db ("User"%string, VInt u)).
  assert (∀ rc : row, rc ∈ table db "Cliente" ->
            ∃ cid, rc !! "id" = Some cid) as Hcid.
  { intros rc Hrc.
    destruct (db_ok_column site db _ _ auto_id rc Hok HmC) as (v & Hv & _);
      [in_list|done|]. by exists v. }
  assert (∀ rc : row, rc ∈ table db "Cliente" -> rc !! "user_id" = Some (VInt u) ->
            collected C Decl.Cliente rc) as Hcol.
  { intros rc Hrc Hu. destruct (Hcid rc Hrc) as [cid Hid].
    unfold collected. change (pk_attname Decl.Cliente) with "id"%string.
    rewrite Hid. by eapply site_collect_owner. }
  exists (remove site C db). split_and!.
  - apply (delete_ok site db "User" (VInt u) Decl.User HmU); [done|].
    intros od n r Hb. apply elem_of_blockers in Hb as (m & Hm & -> & Hr & Hnc & Hex).
    apply Exists_exists in Hex as (y & Hy & Href).
    unfold refers in Href. apply Exists_exists in Href as (f & Hf & Hrel & Hv).
    apply site_collect in Hy as [->|(_ & Hy1 & rc & Hrc & Hrcu & Hrcid)].
    + simpl in *. destruct od.
      * destruct (site_cascade _ _ _ Hm Hf Hrel) as (-> & Ha & _).
        rewrite Ha in Hv. apply Hnc. by apply Hcol.
      * destruct (site_restrict _ _ _ Hm Hf Hrel) as (_ & _ & Hto & _). done.
    + destruct y as [y1 y2]. simpl in *. subst y1. destruct od.
      * destruct (site_cascade _ _ _ Hm Hf Hrel) as (_ & _ & Hto). done.
      * destruct (site_restrict _ _ _ Hm Hf Hrel) as (_ & _ & _ & Hfrom).
        specialize (Hfrom eq_refl).
        destruct (Hfree rc y2 Hrc Hrcu Hrcid) as [HI HV].
        apply elem_of_cons in Hfrom as [Hfrom|Hfrom];
          [|apply list_elem_of_singleton in Hfrom];
          injection Hfrom as Hn Ha; rewrite Hn in Hr; rewrite Ha in Hv.
        -- by apply (HI r Hr).
        -- by apply (HV r Hr).
  - intros r Hr Hid. apply (elem_of_table_remove site _ _ _ _ _ HmU) in Hr as [_ Hnc].
    apply Hnc. unfold collected. change (pk_attname Decl.User) with "id"%string.
    rewrite Hid. apply elem_of_collect_seed.
  - intros rc Hrc Hu. apply (elem_of_table_remove site _ _ _ _ _ HmC) in Hrc as [Hrc Hnc].
    apply Hnc. by apply Hcol.
  - intros r Hr Hid. apply (elem_of_table_remove site _ _ _ _ _ HmU). split; [done|].
    unfold collected. change (pk_attname Decl.User) with "id"%string.
    destruct (r !! "id") as [v|] eqn:Hv; [|tauto].
    intros Hin. apply site_collect in Hin as [Heq|(_ & Hc & _)]; [|done].
    congruence.
  - intros rc Hrc Hu. apply (elem_of_table_remove site _ _ _ _ _ HmC). split; [done|].
    unfold collected. change (pk_attname Decl.Cliente) with "id"%string.
    destruct (rc !! "id") as [v|] eqn:Hv; [|tauto].
    intros Hin. apply site_collect in Hin as [Heq|(_ & _ & rc' & Hrc' & Hu' & Hid')];
      [done|].
    simpl in Hid'.
    apply list_elem_of_lookup in Hrc as [i Hi]. apply list_elem_of_lookup in Hrc' as [j Hj].
    assert (i = j) as ->.
    { eapply (db_ok_distinct site db _ _ ["id"%string]);
        [exact Hok|exact HmC|in_list|reflexivity|exact Hi|exact Hj|].
      intros c Hin; apply list_elem_of_singleton in Hin as ->. congruence. }
    congruence.
  - intros n HnU HnC. apply table_remove_other. intros m Hm r Hr.
    unfold collected. destruct (r !! pk_attname m) as [v|]; [|tauto].
    destruct (find_model_Some _ _ _ Hm) as [_ Hname].
    intros Hin. apply site_collect in Hin as [Heq|(_ & Hc & _)]; simpl in *; congruence.
Qed.

(** C1.  Every relation of the module is declared RESTRICT except
    [Cliente.user], declared CASCADE.  Deleting a row that a row points at
    through one of the RESTRICT relations is refused.  Deleting an account
    deletes the owners linked to it with it, and is refused when a unit or
    a cast vote points at one of those owners. *)
Theorem on_delete_restrict_except_Cliente_user :
  (∀ m f to od,
     m ∈ models_py -> f ∈ m_fields m -> relation (f_kind f) = Some (to, od) ->
     od = if decide (m = Decl.Cliente ∧ f_name f = "user"%string)
          then CASCADE else RESTRICT)
  ∧ (∀ db name tm pk n m f (r : row),
       find_model site name = Some tm -> pk ≠ VNone ->
       find_model site n = Some m -> f ∈ all_fields m ->
       relation (f_kind f) = Some (name, RESTRICT) ->
       r ∈ table db n -> r !! attname f = Some pk ->
       delete site db name pk = Raise RestrictedError)
  ∧ (∀ db u,
       reachable str_upper site db ->
       (∀ (rc : row) cid,
          rc ∈ table db "Cliente" -> rc !! "user_id" = Some (VInt u) ->
          rc !! "id" = Some cid ->
          (∀ r : row, r ∈ table db "Inmueble" -> r !! "propietario_id" ≠ Some cid)
          ∧ (∀ r : row, r ∈ table db "ClienteOpcionVoto" ->
               r !! "cliente_id" ≠ Some cid)) ->
       ∃ db',
         delete site db "User" (VInt u) = Ok db'
         ∧ (∀ r : row, r ∈ table db' "User" -> r !! "id" ≠ Some (VInt u))
         ∧ (∀ rc : row, rc ∈ table db' "Cliente" -> rc !! "user_id" ≠ Some (VInt u))
         ∧ (∀ r : row, r ∈ table db "User" -> r !! "id" ≠ Some (VInt u) ->
              r ∈ table db' "User")
         ∧ (∀ rc : row, rc ∈ table db "Cliente" -> rc !! "user_id" ≠ Some (VInt u) ->
              rc ∈ table db' "Cliente")
         ∧ (∀ n, n ≠ "User"%string -> n ≠ "Cliente"%string ->
              table db' n = table db n))
  ∧ (∀ db u (rc r : row) cid a n,
       rc ∈ table db "Cliente" -> rc !! "user_id" = Some (VInt u) ->
       rc !! "id" = Some cid ->
       (n, a) ∈ [("Inmueble", "propietario_id");
                 ("ClienteOpcionVoto", "cliente_id")]%string ->
       r ∈ table db n -> r !! a = Some cid ->
       delete site db "User" (VInt u) = Raise RestrictedError).
Proof.
  split_and!.
  - intros m f to od Hmm Hf. revert to od. pattern m, f. revert m f Hmm Hf.
    apply (models_fields_forall _
      (fun m f => match relation (f_kind f) with
                  | None => true
                  | Some (_, od) =>
                      bool_decide
                        (od = if decide (m = Decl.Cliente ∧ f_name f = "user"%string)
                              then CASCADE else RESTRICT)
                  end)).
    + intros m f H to od Hrel. rewrite Hrel in H.
      by apply bool_decide_eq_true in H.
    + vm_compute. reflexivity.
  - intros db name tm pk n m f r. apply site_delete_referenced.
  - intros db u. apply site_delete_user.
  - intros db u rc r cid a n Hrc Hu Hid Hna Hr Hv.
    assert (∃ m f, find_model site n = Some m ∧ f ∈ all_fields m
                   ∧ relation (f_kind f) = Some ("Cliente"%string, RESTRICT)
                   ∧ attname f = a) as (m & f & Hm & Hf & Hrel & Ha).
    { apply elem_of_cons in Hna as [Hna|Hna];
        [|apply list_elem_of_singleton in Hna]; injection Hna as -> ->.
      - exists Decl.Inmueble, (fld "propietario" (ForeignKey "Cliente" RESTRICT)).
        split_and!; [reflexivity|in_list|reflexivity|reflexivity].
      - exists Decl.ClienteOpcionVoto, (fld "cliente" (ForeignKey "Cliente" RESTRICT)).
        split_and!; [reflexivity|in_list|reflexivity|reflexivity]. }
    destruct (find_model_Some _ _ _ Hm) as [HmS Hname].
    destruct (site_restrict _ _ _ HmS Hf Hrel) as (HnC & _ & _ & _).
    eapply (delete_restricted site db "User" (VInt u) Decl.User n r);
      [reflexivity|done|].
    apply elem_of_blockers. exists m. rewrite Hname. split_and!; [done..| |].
    + unfold collected. destruct (r !! pk_attname m) as [v|]; [|tauto].
      intros Hin. apply site_collect in Hin as [Heq|(_ & Hc & _)].
      * simplify_eq. apply elem_of_cons in Hna as [Hna|Hna];
          [|apply list_elem_of_singleton in Hna]; congruence.
      * simpl in Hc. congruence.
    + apply Exists_exists. exists ("Cliente"%string, cid).
      split; [by eapply site_collect_owner|].
      unfold refers. apply Exists_exists. exists f. rewrite Ha. by split_and!.
Qed.

End Deletion.

(** * The properties on the run of the site *)

Lemma elem_of_table_rows db name (r : row) :
  r ∈ table db name ->
  r ∈ map (row_at db name) (seq 0 (length (table db name))).
Proof.
  intros Hr. apply list_elem_of_lookup in Hr as [i Hi].
  apply list_elem_of_In, in_map_iff. exists i. split.
  - unfold row_at. by rewrite Hi.
  - apply in_seq. apply lookup_lt_Some in Hi. lia.
Qed.

Lemma EstanciaTipoBase_unique_pair_numero_witness :
  reachable ascii_upper site demo_db
  ∧ (∃ z, row_at demo_db "EstanciaTipoBase" 0 !! "numero" = Some (VInt z))
  ∧ (∃ db' inst' (r : row),
       create ascii_upper site demo_db "EstanciaTipoBase"
         [("tipo_base_id", VInt 1); ("estancia_id", VInt 2)] = Ok (db', inst')
       ∧ table db' "EstanciaTipoBase" = r :: table demo_db "EstanciaTipoBase"
       ∧ r !! "numero" = Some (VInt 1)
       ∧ r !! "tipo_base_id" = Some (VInt 1)
       ∧ r !! "estancia_id" = Some (VInt 2)).
Proof.
  destruct (EstanciaTipoBase_unique_pair_numero ascii_upper demo_db demo_reachable)
    as (_ & HB & _ & HD).
  split_and!; [exact demo_reachable| |].
  - apply HB. by apply row_at_elem.
  - apply (HD 1 2 (row_at demo_db "TipoBase" 0) (row_at demo_db "Estancia" 0));
      try (by apply row_at_elem); try (vm_compute; reflexivity).
    apply Forall_forall. apply (bool_decide_unpack _). vm_compute. exact I.
Defined.

Lemma Portal_numero_primary_key_witness :
  reachable ascii_upper site demo_db
  ∧ (∃ z, row_at demo_db "Portal" 0 !! "numero" = Some (VInt z))
  ∧ is_ok (create ascii_upper site demo_db "Portal" [("numero", VInt 7)]) = false.
Proof.
  destruct (Portal_numero_primary_key ascii_upper demo_db demo_reachable)
    as (_ & _ & HB & _ & HD).
  split_and!; [exact demo_reachable| |].
  - apply HB. by apply row_at_elem.
  - apply (HD _ 7 (row_at demo_db "Portal" 0));
      [reflexivity|by apply row_at_elem|vm_compute; reflexivity].
Defined.

Lemma DocumentoPortalPromocion_unique_titulo_ruta_witness :
  reachable ascii_upper site demo_db
  ∧ is_ok (create ascii_upper site demo_db "DocumentoPortalPromocion"
             [("titulo", VStr "Plano"); ("ruta_documento", VStr "/docs/otro.pdf");
              ("portal_id", VInt 7); ("fecha_creacion", VDate "2021-04-01")]) = false
  ∧ is_ok (create ascii_upper site demo_db "DocumentoPortalPromocion"
             [("titulo", VStr "Otro"); ("ruta_documento", VStr "/docs/plano.pdf");
              ("portal_id", VInt 7); ("fecha_creacion", VDate "2021-04-01")]) = false.
Proof.
  destruct (DocumentoPortalPromocion_unique_titulo_ruta ascii_upper demo_db
              demo_reachable) as (_ & _ & HC & HD).
  split_and!; [exact demo_reachable| |].
  - apply (HC _ "Plano"%string (row_at demo_db "DocumentoPortalPromocion" 0));
      [reflexivity|by apply row_at_elem|vm_compute; reflexivity].
  - apply (HD _ "/docs/plano.pdf"%string (row_at demo_db "DocumentoPortalPromocion" 0));
      [reflexivity|by apply row_at_elem|vm_compute; reflexivity].
Defined.

Lemma Cliente_one_user_unique_dni_witness :
  reachable ascii_upper site demo_db
  ∧ (∃ u (ru : row), row_at demo_db "Cliente" 0 !! "user_id" = Some (VInt u)
       ∧ ru ∈ table demo_db "User" ∧ ru !! "id" = Some (VInt u))
  ∧ is_ok (create ascii_upper site demo_db "Cliente"
             [("user_id", VInt 1); ("telefono", VStr "600100400"); ("dni", VStr "3Z")])
    = false
  ∧ is_ok (create ascii_upper site demo_db "Cliente"
             [("user_id", VInt 3); ("telefono", VStr "600100400"); ("dni", VStr "1X")])
    = false.
Proof.
  destruct (Cliente_one_user_unique_dni ascii_upper demo_db demo_reachable)
    as (_ & _ & HB & HC & HD).
  split_and!; [exact demo_reachable| | |].
  - apply HB. by apply row_at_elem.
  - apply (HC _ 1 (row_at demo_db "Cliente" 1));
      [reflexivity|by apply row_at_elem|vm_compute; reflexivity].
  - apply (HD _ "1X"%string (row_at demo_db "Cliente" 1));
      [reflexivity|by apply row_at_elem|vm_compute; reflexivity].
Defined.


(** The second account of the run has an owner that nothing points at. *)
Lemma demo_second_owner_free (rc : row) cid :
  rc ∈ table demo_db "Cliente" -> rc !! "user_id" = Some (VInt 2) ->
  rc !! "id" = Some cid ->
  (∀ r : row, r ∈ table demo_db "Inmueble" -> r !! "propietario_id" ≠ Some cid)
  ∧ (∀ r : row, r ∈ table demo_db "ClienteOpcionVoto" -> r !! "cliente_id" ≠ Some cid).
Proof.
  intros Hrc Hu Hid. apply elem_of_table_rows in Hrc.
  change (length (table demo_db "Cliente")) with 2%nat in Hrc. simpl in Hrc.
  apply elem_of_cons in Hrc as [->|Hrc];
    [|apply list_elem_of_singleton in Hrc as ->].
  - vm_compute in Hid. injection Hid as <-.
    split; apply Forall_forall; apply (bool_decide_unpack _); vm_compute; exact I.
  - vm_compute in Hu. discriminate Hu.
Qed.

Lemma on_delete_restrict_except_Cliente_user_witness :
  reachable ascii_upper site demo_db
  ∧ delete site demo_db "Portal" (VInt 7) = Raise RestrictedError
  ∧ (∃ db',
       delete site demo_db "User" (VInt 2) = Ok db'
       ∧ (∀ r : row, r ∈ table db' "User" -> r !! "id" ≠ Some (VInt 2))
       ∧ (∀ rc : row, rc ∈ table db' "Cliente" -> rc !! "user_id" ≠ Some (VInt 2))
       ∧ row_at demo_db "User" 1 ∈ table db' "User"
       ∧ row_at demo_db "Cliente" 1 ∈ table db' "Cliente"
       ∧ table db' "Inmueble" = table demo_db "Inmueble")
  ∧ delete site demo_db "User" (VInt 1) = Raise RestrictedError.
Proof.
  destruct (on_delete_restrict_except_Cliente_user ascii_upper)
    as (_ & HB & HC & HD).
  split_and!; [exact demo_reachable| | |].
  - apply (HB demo_db "Portal"%string Decl.Portal (VInt 7) "TipoBasePortal"%string
             Decl.TipoBasePortal (fld "portal" (ForeignKey "Portal" RESTRICT))
             (row_at demo_db "TipoBasePortal" 0));
      [reflexivity|done|reflexivity|in_list|reflexivity|by apply row_at_elem|
       vm_compute; reflexivity].
  - destruct (HC demo_db 2 demo_reachable demo_second_owner_free)
      as (db' & Hdel & HU & HCl & HU' & HCl' & Hother).
    exists db'. split_and!; [exact Hdel|exact HU|exact HCl| | |].
    + apply HU'; [by apply row_at_elem|]. vm_compute. discriminate.
    + apply HCl'; [by apply row_at_elem|]. vm_compute. discriminate.
    + by apply Hother.
  - apply (HD demo_db 1 (row_at demo_db "Cliente" 1) (row_at demo_db "Inmueble" 0)
             (VInt 1) "propietario_id"%string "Inmueble"%string);
      [by apply row_at_elem|vm_compute; reflexivity|vm_compute; reflexivity|
       in_list|by apply row_at_elem|vm_compute; reflexivity].
Defined.

(** * The methods of the module *)

(** ** Fetched rows *)

Lemma bind_Returns {A B : Type} (r : outcome A) (k : A -> outcome B) (b : B) :
  r ≫= k = Returns b -> ∃ a, r = Returns a ∧ k a = Returns b.
Proof. destruct r as [a|e]; [eauto | discriminate]. Qed.

Lemma lift_Returns {A : Type} (r : result A) (a : A) :
  lift r = Returns a -> r = Ok a.
Proof. destruct r; simpl; congruence. Qed.

Lemma from_db_lookup m (r : row) f :
  wf_model m = true -> f ∈ all_fields m ->
  from_db m r !! attname f = Some (default VNone (r !! attname f)).
Proof.
  intros Hwf Hf. unfold from_db. apply elem_of_list_to_map_1.
  - rewrite <- list_fmap_compose. simpl. by apply wf_model_NoDup.
  - apply list_elem_of_fmap. by exists f.
Qed.

Lemma from_db_other m (r : row) a :
  a ∉ map attname (all_fields m) -> from_db m r !! a = None.
Proof.
  intros Ha. unfold from_db. apply not_elem_of_list_to_map_1.
  by rewrite <- list_fmap_compose.
Qed.

(** A value of the type of its column is stored as it is. *)
Lemma prep_scalar_typed k v : has_type k v -> prep_scalar k v = Ok v.
Proof.
  destruct v, k; simpl; try done; try (intros [? [? ?]]; done).
Qed.

Lemma filter_has_pk_unique col v (rows : list row) (r : row) :
  distinct_on [col] rows -> r ∈ rows -> r !! col = Some v -> v ≠ VNone ->
  filter (has_pk col v) rows = [r].
Proof.
  intros Hd Hin Hr Hv.
  assert (∀ r' : row, r' !! col = Some v -> conflicts [col] r r') as Hconf.
  { intros r' Hr'. apply conflicts_iff. intros c Hc.
    apply list_elem_of_singleton in Hc as ->. by exists v. }
  induction rows as [|r0 rows IH]; [by apply elem_of_nil in Hin|].
  destruct Hd as [Hall Hd]. rewrite Forall_forall in Hall.
  rewrite filter_cons. apply elem_of_cons in Hin as [<-|Hin].
  - rewrite decide_True by done. f_equal.
    clear IH Hd. induction rows as [|r1 rows IH]; [done|].
    rewrite filter_cons, decide_False.
    + apply IH. intros x Hx. apply Hall. by apply list_elem_of_further.
    + intros H1. eapply Hall; [apply list_elem_of_here|]. by apply Hconf.
  - rewrite decide_False; [by apply IH|].
    intros H0. apply (Hall r Hin). apply conflicts_sym. by apply Hconf.
Qed.

Lemma objects_get_inv db m col v o :
  objects_get db m col v = Returns o ->
  ∃ r : row, r ∈ table db (m_name m) ∧ r !! col = Some v ∧ o = from_db m r.
Proof.
  unfold objects_get.
  destruct (filter _ _) as [|r [|r' l]] eqn:Hf; [done| |done].
  intros [= <-]. exists r.
  assert (r ∈ filter (has_pk col v) (table db (m_name m))) as Hin.
  { rewrite Hf. apply list_elem_of_here. }
  apply list_elem_of_filter in Hin as [Hpk Hin]. by split_and!.
Qed.

Lemma objects_get_found db m col v (r : row) :
  distinct_on [col] (table db (m_name m)) ->
  r ∈ table db (m_name m) -> r !! col = Some v -> v ≠ VNone ->
  objects_get db m col v = Returns (from_db m r).
Proof.
  intros Hd Hin Hr Hv. unfold objects_get.
  by rewrite (filter_has_pk_unique _ _ _ _ Hd Hin Hr Hv).
Qed.

Lemma objects_get_none db m col v :
  (∀ r : row, r ∈ table db (m_name m) -> r !! col ≠ Some v) ->
  objects_get db m col v = Raises (DoesNotExist (m_name m)).
Proof.
  intros H. unfold objects_get.
  destruct (filter _ _) as [|r l] eqn:Hf; [done|]. exfalso.
  assert (r ∈ filter (has_pk col v) (table db (m_name m))) as Hin.
  { rewrite Hf. apply list_elem_of_here. }
  apply list_elem_of_filter in Hin as [Hpk Hin]. by apply (H r Hin).
Qed.

Lemma is_unique_constraint m f :
  f ∈ all_fields m -> is_unique f = true -> [attname f] ∈ constraints m.
Proof.
  intros Hf Hu. unfold constraints. apply elem_of_app. left.
  apply list_elem_of_fmap. exists f. split; [done|].
  apply list_elem_of_In, filter_In. split; [by apply list_elem_of_In | done].
Qed.

Lemma pk_constraint m : wf_model m = true -> [pk_attname m] ∈ constraints m.
Proof.
  intros Hwf. destruct (wf_model_pk_in _ Hwf) as [Hin Hpk].
  apply is_unique_constraint; [done|].
  unfold is_unique. rewrite Hpk. by rewrite orb_true_r.
Qed.

Section FetchFacts.

Variable S : list model.
Hypothesis S_wf : Forall (fun m => wf_model m = true) S.

(** What a relation attribute returned. *)
Lemma related_inv db m name self o :
  related S db m name self = Returns o ->
  ∃ f to od,
    field_named m name = Some f ∧ relation (f_kind f) = Some (to, od)
    ∧ match o with
      | None => f_null f = true ∧ self !! attname f = Some VNone
      | Some obj =>
          ∃ tm (r : row), find_model S to = Some tm
            ∧ r ∈ table db (m_name tm) ∧ obj = from_db tm r
      end.
Proof.
  unfold related. destruct (field_named m name) as [f|]; [|done].
  destruct (relation (f_kind f)) as [[to od]|] eqn:Hrel; [|done].
  intros H. exists f, to, od. split_and!; [done..|].
  apply bind_Returns in H as (v & Hv & H). apply lift_Returns in Hv.
  unfold getattr in Hv. destruct (self !! attname f) as [w|] eqn:Hw; simplify_eq.
  destruct (decide (v = VNone)) as [->|Hne].
  - destruct (f_null f); by simplify_eq.
  - destruct (find_model S to) as [tm|]; [|done].
    apply bind_Returns in H as (pk & _ & H).
    apply bind_Returns in H as (obj & Hget & H). simpl in H. simplify_eq.
    apply objects_get_inv in Hget as (r & Hr & _ & ->). by exists tm, r.
Qed.

(** The relation attribute of a fetched row, when the column is NOT NULL:
    the row of the target table the column points at. *)
Lemma related_stored db name m fname f to od tm (r : row) :
  db_ok S db -> refs_ok S db ->
  find_model S name = Some m -> r ∈ table db name ->
  field_named m fname = Some f -> relation (f_kind f) = Some (to, od) ->
  f_null f = false -> find_model S to = Some tm ->
  ∃ (r' : row) v,
    r' ∈ table db to ∧ r !! attname f = Some v ∧ v ≠ VNone
    ∧ r' !! pk_attname tm = Some v
    ∧ related S db m fname (from_db m r) = Returns (Some (from_db tm r')).
Proof.
  intros Hok Hrefs Hm Hr Hfn Hrel Hnull Htm.
  pose proof (find_model_wf _ S_wf _ _ Hm) as Hwf.
  pose proof (find_model_wf _ S_wf _ _ Htm) as Hwft.
  destruct (find_model_Some _ _ _ Htm) as [_ Hto].
  assert (f ∈ all_fields m) as Hf.
  { unfold field_named in Hfn. apply find_some in Hfn as [Hin _].
    by apply list_elem_of_In. }
  destruct (db_ok_column _ _ _ _ _ _ Hok Hm Hf Hr) as (v & Hv & Ht & Hnn).
  specialize (Hnn Hnull).
  assert (Exists (has_pk (pk_attname tm) v) (table db to)) as Hex.
  { specialize (Hrefs _ _ _ Hm Hr). rewrite Forall_forall in Hrefs.
    specialize (Hrefs (to, v)). unfold ref_ok in Hrefs. simpl in Hrefs.
    rewrite Htm in Hrefs. apply Hrefs. apply elem_of_fk_refs.
    exists f, od. by split_and!. }
  apply Exists_exists in Hex as (r' & Hr' & Hpk).
  exists r', v. split_and!; [done..|].
  unfold related. rewrite Hfn, Hrel.
  unfold getattr. rewrite (from_db_lookup _ _ _ Hwf Hf), Hv. simpl.
  rewrite decide_False by done. rewrite Htm.
  unfold col_kind in Ht. rewrite Hrel, Htm in Ht.
  rewrite (prep_scalar_typed _ _ Ht). simpl.
  rewrite (objects_get_found db tm (pk_attname tm) v r'); [done| |by rewrite Hto|done..].
  rewrite Hto. destruct (Hok _ _ Htm) as [_ Hd]. apply Hd. by apply pk_constraint.
Qed.

End FetchFacts.

(** ** The columns of the site *)

Lemma from_db_attr m (r : row) a :
  wf_model m = true -> bool_decide (a ∈ map attname (all_fields m)) = true ->
  from_db m r !! a = Some (default VNone (r !! a)).
Proof.
  intros Hwf Ha. apply bool_decide_eq_true in Ha.
  apply list_elem_of_fmap in Ha as (f & -> & Hf). by apply from_db_lookup.
Qed.

Lemma str_column (k : field_kind) (v : value) :
  has_type k v -> v ≠ VNone -> empty_strings_allowed k = true -> ∃ s, v = VStr s.
Proof.
  destruct v; simpl; intros; try done; try (subst k; done).
  - destruct H as [H _]. congruence.
  - by eexists.
Qed.

Section SiteColumns.

Variable str_upper : string -> string.

(** In every state of the site a NOT NULL column of a numeric field or of a
    relation holds an integer, and a NOT NULL text column holds a text. *)
Lemma site_int_column db name m f (r : row) :
  reachable str_upper site db -> find_model site name = Some m ->
  f ∈ all_fields m -> r ∈ table db name -> f_null f = false ->
  empty_strings_allowed (col_kind site f) = false ->
  col_kind site f ≠ BooleanField -> col_kind site f ≠ DateField ->
  ∃ z, r !! attname f = Some (VInt z).
Proof.
  intros Hreach Hm Hf Hr Hnull H1 H2 H3.
  destruct (db_ok_column site db _ _ f r (site_reachable_ok _ _ Hreach) Hm Hf Hr)
    as (v & Hv & Ht & Hnn).
  destruct (int_column _ _ Ht (Hnn Hnull) H1 H2 H3) as [z ->]. by exists z.
Qed.

Lemma site_str_column db name m f (r : row) :
  reachable str_upper site db -> find_model site name = Some m ->
  f ∈ all_fields m -> r ∈ table db name -> f_null f = false ->
  empty_strings_allowed (col_kind site f) = true ->
  ∃ s, r !! attname f = Some (VStr s).
Proof.
  intros Hreach Hm Hf Hr Hnull H1.
  destruct (db_ok_column site db _ _ f r (site_reachable_ok _ _ Hreach) Hm Hf Hr)
    as (v & Hv & Ht & Hnn).
  destruct (str_column _ _ Ht (Hnn Hnull) H1) as [s ->]. by exists s.
Qed.

End SiteColumns.

(** ** The texts of the instances *)

Section Texts.

Variable str_upper : string -> string.


(** X2.  In every state of the database [TipoBase.__str__] returns, for a
    row of the table, its name followed by its habitable area in
    parentheses. *)
Theorem TipoBase_str_of_stored (db : database) (r : row) :
  reachable str_upper site db -> r ∈ table db "TipoBase" ->
  ∃ s z, r !! "nombre" = Some (VStr s) ∧ r !! "metros_habitables" = Some (VInt z)
    ∧ TipoBase_str (from_db Decl.TipoBase r)
      = Returns (s +:+ " (" +:+ pretty z +:+ " m2)").
Proof.
  intros Hreach Hr.
  destruct (site_str_column str_upper db "TipoBase" Decl.TipoBase
              (fld "nombre" (CharField 50)) r Hreach eq_refl) as [s Hs];
    [in_list|done..|].
  destruct (site_int_column str_upper db "TipoBase" Decl.TipoBase
              (fld "metros_habitables" IntegerField) r Hreach eq_refl) as [z Hz];
    [in_list|done..|].
  change (attname _) with "nombre"%string in Hs.
  change (attname _) with "metros_habitables"%string in Hz.
  exists s, z. split_and!; [done..|].
  unfold TipoBase_str, getattr.
  rewrite !from_db_attr by reflexivity. by rewrite Hs, Hz.
Qed.

(** X3.  In every state of the database [Estancia.__str__] returns, for a
    row of the table, the name of its room type (the row of [TipoEstancia]
    its [tipo_id] points at) followed by its area in parentheses. *)
Theorem Estancia_str_of_stored (db : database) (r : row) :
  reachable str_upper site db -> r ∈ table db "Estancia" ->
  ∃ (rt : row) t s z,
    rt ∈ table db "TipoEstancia"
    ∧ r !! "tipo_id" = Some (VInt t) ∧ rt !! "id" = Some (VInt t)
    ∧ rt !! "nombre" = Some (VStr s) ∧ r !! "superficie" = Some (VInt z)
    ∧ Estancia_str db (from_db Decl.Estancia r)
      = Returns (s +:+ " (" +:+ pretty z +:+ " m2)").
Proof.
  intros Hreach Hr.
  destruct (related_stored site site_wf db "Estancia" Decl.Estancia "tipo"
              (fld "tipo" (ForeignKey "TipoEstancia" RESTRICT)) "TipoEstancia" RESTRICT
              Decl.TipoEstancia r
              (site_reachable_ok _ _ Hreach) (site_reachable_refs_ok _ _ Hreach))
    as (rt & v & Hrt & Hv & Hne & Hpk & Hrel); [done..|].
  destruct (site_int_column str_upper db "Estancia" Decl.Estancia
              (fld "tipo" (ForeignKey "TipoEstancia" RESTRICT)) r Hreach eq_refl)
    as [t Ht]; [in_list|done..|].
  destruct (site_int_column str_upper db "Estancia" Decl.Estancia
              (fld "superficie" IntegerField) r Hreach eq_refl) as [z Hz];
    [in_list|done..|].
  destruct (site_str_column str_upper db "TipoEstancia" Decl.TipoEstancia
              (fld "nombre" (CharField 25)) rt Hreach eq_refl) as [s Hs];
    [in_list|done..|].
  change (attname _) with "tipo_id"%string in Hv, Ht.
  change (attname _) with "superficie"%string in Hz.
  change (attname _) with "nombre"%string in Hs.
  change (pk_attname _) with "id"%string in Hpk.
  rewrite Ht in Hv. simplify_eq.
  exists rt, t, s, z. split_and!; [done..|].
  unfold Estancia_str. rewrite Hrel. simpl.
  unfold TipoEstancia_str, getattr.
  rewrite !from_db_attr by reflexivity. rewrite Hs, Hz. done.
Qed.


(** X5.  In every state of the database [Cliente.__str__] returns, for a
    row of the table, the first and the last name of its account (the row
    of [User] its [user_id] points at) and its [dni]. *)
Theorem Cliente_str_of_stored (db : database) (r : row) :
  reachable str_upper site db -> r ∈ table db "Cliente" ->
  ∃ (ru : row) u first_name last_name dni,
    ru ∈ table db "User"
    ∧ r !! "user_id" = Some (VInt u) ∧ ru !! "id" = Some (VInt u)
    ∧ ru !! "first_name" = Some (VStr first_name)
    ∧ ru !! "last_name" = Some (VStr last_name)
    ∧ r !! "dni" = Some (VStr dni)
    ∧ Cliente_str db (from_db Decl.Cliente r)
      = Returns (first_name +:+ " " +:+ last_name +:+ " - " +:+ dni).
Proof.
  intros Hreach Hr.
  destruct (related_stored site site_wf db "Cliente" Decl.Cliente "user"
              (fld "user" (OneToOneField "User" CASCADE "cliente")) "User" CASCADE
              Decl.User r
              (site_reachable_ok _ _ Hreach) (site_reachable_refs_ok _ _ Hreach))
    as (ru & v & Hru & Hv & Hne & Hpk & Hrel); [done..|].
  destruct (site_int_column str_upper db "Cliente" Decl.Cliente
              (fld "user" (OneToOneField "User" CASCADE "cliente")) r Hreach eq_refl)
    as [u Hu]; [in_list|done..|].
  destruct (site_str_column str_upper db "Cliente" Decl.Cliente
              (with_unique (fld "dni" (CharField 10))) r Hreach eq_refl) as [d Hd];
    [in_list|done..|].
  destruct (site_str_column str_upper db "User" Decl.User
              (with_blank (fld "first_name" (CharField 150))) ru Hreach eq_refl)
    as [fn Hfn]; [in_list|done..|].
  destruct (site_str_column str_upper db "User" Decl.User
              (with_blank (fld "last_name" (CharField 150))) ru Hreach eq_refl)
    as [ln Hln]; [in_list|done..|].
  change (attname _) with "user_id"%string in Hv, Hu.
  change (attname _) with "dni"%string in Hd.
  change (attname _) with "first_name"%string in Hfn.
  change (attname _) with "last_name"%string in Hln.
  change (pk_attname _) with "id"%string in Hpk.
  rewrite Hu in Hv. simplify_eq.
  exists ru, u, fn, ln, d. split_and!; [done..|].
  unfold Cliente_str. rewrite Hrel. simpl.
  unfold getattr. rewrite !from_db_attr by reflexivity.
  rewrite Hfn, Hln, Hd. done.
Qed.

End Texts.

(** ** Texts that cannot be built *)

Lemma Portal_str_from_db (r : row) :
  Portal_str (from_db Decl.Portal r) = Raise AttributeError.
Proof.
  unfold Portal_str, getattr. rewrite from_db_other; [done|].
  change (map attname (all_fields Decl.Portal)) with ["numero"%string].
  intros Hin. by apply list_elem_of_singleton in Hin.
Qed.

Lemma TipoBasePortal_str_raises db self s : TipoBasePortal_str db self ≠ Returns s.
Proof.
  unfold TipoBasePortal_str. intros H.
  apply bind_Returns in H as (o1 & _ & H).
  apply bind_Returns in H as (s1 & _ & H).
  apply bind_Returns in H as (o2 & Ho2 & H).
  apply bind_Returns in H as (s2 & Hs2 & _).
  apply related_inv in Ho2 as (f & to & od & Hf & Hrel & Ho).
  change (field_named Decl.TipoBasePortal "portal")
    with (Some (fld "portal" (ForeignKey "Portal" RESTRICT))) in Hf.
  simplify_eq. simpl in Hrel. simplify_eq.
  destruct o2 as [obj|].
  - destruct Ho as (tm & r & Htm & _ & ->).
    change (find_model site "Portal") with (Some Decl.Portal) in Htm.
    assert (tm = Decl.Portal) as -> by congruence.
    simpl in Hs2. rewrite Portal_str_from_db in Hs2. discriminate Hs2.
  - by destruct Ho.
Qed.

(** X6.  [TipoBasePortal.__str__] returns for no instance and in no state
    of the database: the building it formats is an instance of [Portal],
    which has no attribute [id], and [Portal.__str__] reads [self.id]. *)
Theorem TipoBasePortal_str_never_returns (db : database) (self : instance) (s : string) :
  (∀ r : row, Portal_str (from_db Decl.Portal r) = Raise AttributeError)
  ∧ (∀ kwargs inst, init Decl.Portal kwargs = Ok inst ->
       Portal_str inst = Raise AttributeError)
  ∧ TipoBasePortal_str db self ≠ Returns s.
Proof.
  split_and!.
  - apply Portal_str_from_db.
  - intros kwargs inst. unfold init. destruct (forallb _ kwargs); [|discriminate].
    intros [= <-]. reflexivity.
  - apply TipoBasePortal_str_raises.
Qed.

(** X7.  Neither [Inmueble.__str__] nor
    [Inmueble.to_str_inmuebles_propietario] returns, for any instance and in
    any state of the database: both format the unit type of the building,
    whose text cannot be built. *)
Theorem Inmueble_str_never_returns (db : database) (self : instance) (s : string) :
  Inmueble_str db self ≠ Returns s
  ∧ Inmueble_to_str_inmuebles_propietario db self ≠ Returns s.
Proof.
  assert (∀ o s1, related site db Decl.Inmueble "tipo" self = Returns o ->
                  format_related (TipoBasePortal_str db) o ≠ Returns s1) as Hno.
  { intros o s1 Ho. apply related_inv in Ho as (f & to & od & Hf & Hrel & Ho).
    change (field_named Decl.Inmueble "tipo")
      with (Some (fld "tipo" (ForeignKey "TipoBasePortal" RESTRICT))) in Hf.
    simplify_eq. destruct o as [obj|]; simpl.
    - apply TipoBasePortal_str_raises.
    - by destruct Ho. }
  split.
  - unfold Inmueble_str. intros H.
    apply bind_Returns in H as (piso & _ & H).
    destruct (eq_zero piso);
      apply bind_Returns in H as (o & Ho & H);
      apply bind_Returns in H as (s1 & Hs1 & _); by eapply Hno.
  - unfold Inmueble_to_str_inmuebles_propietario. intros H.
    apply bind_Returns in H as (piso & _ & H).
    destruct (eq_zero piso);
      apply bind_Returns in H as (o & Ho & H);
      apply bind_Returns in H as (s1 & Hs1 & _); by eapply Hno.
Qed.

Section TextsRaise.

Variable str_upper : string -> string.

(** X8.  In every state of the database the text of a row of
    [TipoBasePortal] and the two texts of a row of [Inmueble] raise
    [AttributeError]: the rows their relations point at are found, the floor
    plan is formatted, and the failure is the one of [Portal.__str__]. *)
Theorem stored_unit_texts_raise_AttributeError (db : database) :
  reachable str_upper site db ->
  (∀ r : row, r ∈ table db "TipoBasePortal" ->
     TipoBasePortal_str db (from_db Decl.TipoBasePortal r)
     = Raises (Builtin AttributeError))
  ∧ (∀ r : row, r ∈ table db "Inmueble" ->
       Inmueble_str db (from_db Decl.Inmueble r) = Raises (Builtin AttributeError)
       ∧ Inmueble_to_str_inmuebles_propietario db (from_db Decl.Inmueble r)
         = Raises (Builtin AttributeError)).
Proof.
  intros Hreach.
  pose proof (site_reachable_ok _ _ Hreach) as Hok.
  pose proof (site_reachable_refs_ok _ _ Hreach) as Hrefs.
  assert (∀ r : row, r ∈ table db "TipoBasePortal" ->
            TipoBasePortal_str db (from_db Decl.TipoBasePortal r)
            = Raises (Builtin AttributeError)) as Htbp.
  { intros r Hr.
    destruct (related_stored site site_wf db "TipoBasePortal" Decl.TipoBasePortal
                "tipo_base" (fld "tipo_base" (ForeignKey "TipoBase" RESTRICT))
                "TipoBase" RESTRICT Decl.TipoBase r Hok Hrefs)
      as (rtb & v & Hrtb & _ & _ & _ & Hrel); [done..|].
    destruct (related_stored site site_wf db "TipoBasePortal" Decl.TipoBasePortal
                "portal" (fld "portal" (ForeignKey "Portal" RESTRICT))
                "Portal" RESTRICT Decl.Portal r Hok Hrefs)
      as (rp & w & Hrp & _ & _ & _ & Hrelp); [done..|].
    destruct (site_str_column str_upper db "TipoBase" Decl.TipoBase
                (fld "nombre" (CharField 50)) rtb Hreach eq_refl) as [s Hs];
      [in_list|done..|].
    destruct (site_int_column str_upper db "TipoBase" Decl.TipoBase
                (fld "metros_habitables" IntegerField) rtb Hreach eq_refl) as [z Hz];
      [in_list|done..|].
    change (attname _) with "nombre"%string in Hs.
    change (attname _) with "metros_habitables"%string in Hz.
    unfold TipoBasePortal_str. rewrite Hrel. simpl.
    unfold TipoBase_str, getattr. rewrite !from_db_attr by reflexivity.
    rewrite Hs, Hz. simpl. rewrite Hrelp. simpl.
    by rewrite Portal_str_from_db. }
  split; [exact Htbp|].
  intros r Hr.
  destruct (related_stored site site_wf db "Inmueble" Decl.Inmueble
              "tipo" (fld "tipo" (ForeignKey "TipoBasePortal" RESTRICT))
              "TipoBasePortal" RESTRICT Decl.TipoBasePortal r Hok Hrefs)
    as (rt & v & Hrt & _ & _ & _ & Hrel); [done..|].
  destruct (site_int_column str_upper db "Inmueble" Decl.Inmueble
              (fld "piso" IntegerField) r Hreach eq_refl) as [z Hz];
    [in_list|done..|].
  change (attname _) with "piso"%string in Hz.
  unfold Inmueble_str, Inmueble_to_str_inmuebles_propietario, getattr.
  rewrite !from_db_attr by reflexivity. rewrite Hz. simpl.
  rewrite Hrel. simpl. rewrite (Htbp rt Hrt).
  by destruct (z =? 0).
Qed.

(** X9.  Round trip of the one-to-one relation: in every state of the
    database, the account a row of [Cliente] points at is found by
    [cliente.user], and [user.cliente] on that account gives the row back;
    on an account that no owner points at, [user.cliente] raises
    [RelatedObjectDoesNotExist]. *)
Theorem Cliente_user_round_trip (db : database) :
  reachable str_upper site db ->
  (∀ r : row, r ∈ table db "Cliente" ->
     ∃ ru : row, ru ∈ table db "User"
       ∧ r !! "user_id" = ru !! "id"
       ∧ related site db Decl.Cliente "user" (from_db Decl.Cliente r)
         = Returns (Some (from_db Decl.User ru))
       ∧ User_cliente db (from_db Decl.User ru) = Returns (from_db Decl.Cliente r))
  ∧ (∀ ru : row, ru ∈ table db "User" ->
       (∀ r : row, r ∈ table db "Cliente" -> r !! "user_id" ≠ ru !! "id") ->
       User_cliente db (from_db Decl.User ru)
       = Raises (RelatedObjectDoesNotExist "User" "cliente")).
Proof.
  intros Hreach.
  pose proof (site_reachable_ok _ _ Hreach) as Hok.
  pose proof (site_reachable_refs_ok _ _ Hreach) as Hrefs.
  assert (∀ ru : row, ru ∈ table db "User" ->
            ∃ u, ru !! "id" = Some (VInt u)
              ∧ User_cliente db (from_db Decl.User ru)
                = match objects_get db Decl.Cliente "user_id" (VInt u) with
                  | Returns rel_obj => Returns rel_obj
                  | Raises (DoesNotExist _) =>
                      Raises (RelatedObjectDoesNotExist "User" "cliente")
                  | Raises e => Raises e
                  end) as Hrev.
  { intros ru Hru.
    destruct (site_int_column str_upper db "User" Decl.User auto_id ru Hreach eq_refl)
      as [u Hu]; [in_list|done..|].
    change (attname _) with "id"%string in Hu.
    exists u. split; [done|].
    unfold User_cliente, reverse_related.
    change (field_named Decl.Cliente "user")
      with (Some (fld "user" (OneToOneField "User" CASCADE "cliente"))).
    change (pk_attname Decl.User) with "id"%string.
    unfold getattr. rewrite from_db_attr by reflexivity. rewrite Hu. reflexivity. }
  split.
  - intros r Hr.
    destruct (related_stored site site_wf db "Cliente" Decl.Cliente "user"
                (fld "user" (OneToOneField "User" CASCADE "cliente")) "User" CASCADE
                Decl.User r Hok Hrefs)
      as (ru & v & Hru & Hv & Hne & Hpk & Hrel); [done..|].
    change (attname _) with "user_id"%string in Hv.
    change (pk_attname _) with "id"%string in Hpk.
    exists ru. split_and!; [done|congruence|done|].
    destruct (Hrev ru Hru) as (u & Hu & ->).
    rewrite Hpk in Hu. simplify_eq.
    rewrite (objects_get_found db Decl.Cliente "user_id" (VInt u) r); [done| |done..].
    destruct (Hok "Cliente"%string Decl.Cliente eq_refl) as [_ Hd].
    apply Hd. in_list.
  - intros ru Hru Hnone.
    destruct (Hrev ru Hru) as (u & Hu & ->).
    rewrite objects_get_none; [done|].
    intros r Hr. rewrite <- Hu. by apply Hnone.
Qed.

End TextsRaise.

(** ** Seeding the room types *)

Lemma save_unkeyed str_upper S db name inst force_insert m :
  find_model S name = Some m ->
  getattr_default inst (pk_attname m) VNone = VNone ->
  save str_upper S db name inst force_insert = db_insert str_upper S db m inst.
Proof.
  intros Hm Hpk. unfold save. rewrite Hm, Hpk.
  by rewrite bool_decide_eq_false_2 by (intros H; by apply H).
Qed.


Section SeedFacts.

Variable str_upper : string -> string.









End SeedFacts.

(** ** The constraints of all the tables *)

Lemma site_fields_forall (chk : model -> field -> bool) :
  forallb (fun m => forallb (chk m) (all_fields m)) site = true ->
  ∀ m f, m ∈ site -> f ∈ all_fields m -> chk m f = true.
Proof.
  intros H m f Hm Hf.
  rewrite forallb_forall in H. specialize (H m (proj1 (list_elem_of_In _ _) Hm)).
  rewrite forallb_forall in H. apply H. by apply list_elem_of_In.
Qed.


Section Constraints.

Variable str_upper : string -> string.

(** X13.  In every state of the database, no two rows of a table hold the
    same value in a column declared unique (a primary key, [unique=True] or
    a one-to-one relation); beside the primary keys, the unique columns of
    the module are the ones listed: the document of a customization has a
    unique title and no unique path. *)
Theorem unique_columns_distinct (db : database) :
  reachable str_upper site db ->
  (∀ m f i j (r1 r2 : row),
     m ∈ site -> f ∈ all_fields m -> is_unique f = true ->
     table db (m_name m) !! i = Some r1 -> table db (m_name m) !! j = Some r2 ->
     r1 !! attname f = r2 !! attname f -> i = j)
  ∧ (m ← models_py;
     f ← List.filter (fun f => is_unique f && negb (f_primary_key f)) (all_fields m);
     [(m_name m, attname f)])
    = [ ("Cliente", "user_id"); ("Cliente", "dni");
        ("DocumentoPortalPromocion", "titulo");
        ("DocumentoPortalPromocion", "ruta_documento");
        ("DocumentoTipoBasePortal", "titulo");
        ("DocumentoTipoBasePortal", "ruta_documento");
        ("DocumentoInmueble", "titulo");
        ("DocumentoInmueble", "ruta_documento");
        ("DocumentoConfiguracionInmueble", "titulo") ]%string.
Proof.
  intros Hreach. split; [|reflexivity].
  intros m f i j r1 r2 Hm Hf Hu Hi Hj He.
  pose proof (site_fields_forall
                (fun _ f => implb (is_unique f) (negb (f_null f))) eq_refl m f Hm Hf)
    as Hnn.
  cbv beta in Hnn. rewrite Hu in Hnn. simpl in Hnn. apply negb_true_iff in Hnn.
  eapply (db_ok_distinct site db (m_name m) m [attname f]);
    [by eapply site_reachable_ok|by apply site_find|by apply is_unique_constraint|
     |exact Hi|exact Hj|].
  - simpl. rewrite andb_true_r. apply existsb_exists. exists f.
    split; [by apply list_elem_of_In|].
    rewrite bool_decide_eq_true_2 by done. by rewrite Hnn.
  - intros c Hc. by apply list_elem_of_singleton in Hc as ->.
Qed.

(** X14.  In every state of the database, the column of a relation to a
    class of the site holds NULL, and then the relation is declared
    [null=True], or the primary key of a row of the table of that class. *)
Theorem references_resolve (db : database) :
  reachable str_upper site db ->
  ∀ m f to od tm (r : row),
    m ∈ site -> f ∈ all_fields m -> relation (f_kind f) = Some (to, od) ->
    find_model site to = Some tm -> r ∈ table db (m_name m) ->
    ∃ v, r !! attname f = Some v
      ∧ ((v = VNone ∧ f_null f = true)
         ∨ ∃ r' : row, r' ∈ table db to ∧ r' !! pk_attname tm = Some v).
Proof.
  intros Hreach m f to od tm r Hm Hf Hrel Htm Hr.
  pose proof (site_find m Hm) as Hfind.
  destruct (db_ok_column site db _ _ f r (site_reachable_ok _ _ Hreach) Hfind Hf Hr)
    as (v & Hv & _ & Hnn).
  exists v. split; [done|].
  destruct (decide (v = VNone)) as [->|Hne].
  - left. split; [done|]. destruct (f_null f); [done|]. by destruct Hnn.
  - right.
    pose proof (site_reachable_refs_ok _ _ Hreach _ _ _ Hfind Hr) as Hrefs.
    rewrite Forall_forall in Hrefs. specialize (Hrefs (to, v)).
    unfold ref_ok in Hrefs. cbn [fst snd] in Hrefs. rewrite Htm in Hrefs.
    apply Exists_exists. apply Hrefs. apply elem_of_fk_refs.
    exists f, od. by split_and!.
Qed.


End Constraints.

(** ** What a create stores for a column left out *)

Section CreateFacts.

Variable str_upper : string -> string.
Variable S : list model.
Hypothesis S_wf : Forall (fun m => wf_model m = true) S.





End CreateFacts.

Section Creates.

Variable str_upper : string -> string.




End Creates.

(** ** What a save does to the instance *)

Section SaveFacts.

Variable str_upper : string -> string.
Variable S : list model.
Hypothesis S_wf : Forall (fun m => wf_model m = true) S.

Lemma pre_save_plain f inst add :
  (∀ n, f_kind f ≠ UpperCaseCharField n) ->
  pre_save str_upper f inst add = (getattr inst (attname f), inst).
Proof.
  intros Hk. unfold pre_save, Field_pre_save.
  destruct (f_kind f) eqn:Hf; try done. by destruct (Hk max_length).
Qed.

(** The hooks leave alone every attribute that is not the attribute of an
    uppercase field. *)
Lemma prepare_unchanged fs inst add cols inst' a :
  prepare str_upper S fs inst add = Ok (cols, inst') ->
  (∀ f n, f ∈ fs -> attname f = a -> f_kind f ≠ UpperCaseCharField n) ->
  inst' !! a = inst !! a.
Proof.
  revert inst cols. induction fs as [|f0 fs IH]; intros inst cols Hp Ha.
  { simpl in Hp. by simplify_eq. }
  simpl in Hp. destruct (pre_save str_upper f0 inst add) as [r inst1] eqn:Hps.
  apply bind_Ok in Hp as (v & -> & Hp).
  apply bind_Ok in Hp as (v' & _ & Hp).
  apply bind_Ok in Hp as ([cols0 inst2] & Hrec & Hp).
  simpl in Hp. simplify_eq.
  rewrite (IH _ _ Hrec).
  - destruct (decide (attname f0 = a)) as [He|Hne].
    + rewrite pre_save_plain in Hps; [by simplify_eq|].
      intros n. apply Ha; [apply list_elem_of_here | done].
    + apply pre_save_value in Hps as (_ & _ & _ & Hframe). by apply Hframe.
  - intros f n Hf. apply Ha. by apply list_elem_of_further.
Qed.

Lemma db_insert_instance db m inst db' inst' a :
  db_insert str_upper S db m inst = Ok (db', inst') ->
  a ≠ pk_attname m ->
  (∀ f n, f ∈ all_fields m -> attname f = a -> f_kind f ≠ UpperCaseCharField n) ->
  inst' !! a = inst !! a.
Proof.
  unfold db_insert. intros H Hne Ha.
  apply bind_Ok in H as ([cols inst1] & Hp & H). simpl in H.
  assert (inst1 !! a = inst !! a) as Hi.
  { apply (prepare_unchanged _ _ _ _ _ _ Hp). intros f n Hf. apply Ha.
    destruct (bool_decide _); [done|].
    apply list_elem_of_In, filter_In in Hf as [Hf _]. by apply list_elem_of_In. }
  destruct (negb _ && is_auto _); simpl in H;
    match type of H with (if ?c then _ else _) = _ => destruct c end; simplify_eq;
    [unfold setattr; by rewrite lookup_insert_ne | done].
Qed.

Lemma save_instance db name inst force_insert db' inst' m a :
  save str_upper S db name inst force_insert = Ok (db', inst') ->
  find_model S name = Some m -> a ≠ pk_attname m ->
  (∀ f n, f ∈ all_fields m -> attname f = a -> f_kind f ≠ UpperCaseCharField n) ->
  inst' !! a = inst !! a.
Proof.
  intros H Hm Hne Ha. unfold save in H. rewrite Hm in H.
  destruct (bool_decide _ && negb force_insert); [|by eapply db_insert_instance].
  apply bind_Ok in H as (pkv & _ & H).
  apply bind_Ok in H as ([cols inst1] & Hp & H). simpl in H.
  assert (inst1 !! a = inst !! a) as Hi.
  { apply (prepare_unchanged _ _ _ _ _ _ Hp). intros f n Hf. apply Ha.
    apply list_elem_of_In, filter_In in Hf as [Hf _]. by apply list_elem_of_In. }
  destruct (bool_decide (Exists _ _)).
  - match type of H with (if ?c then _ else _) = _ => destruct c end; by simplify_eq.
  - rewrite <- Hi. by eapply db_insert_instance.
Qed.

(** Saving an instance without a key on a class with the automatic key sets
    the key of the instance to the id of the row it stores. *)
Lemma save_new_key db name inst force_insert db' inst' m :
  save str_upper S db name inst force_insert = Ok (db', inst') ->
  find_model S name = Some m ->
  getattr_default inst (pk_attname m) VNone = VNone ->
  is_auto (f_kind (pk_field m)) = true ->
  ∃ (r : row) z, table db' name = r :: table db name
    ∧ r !! pk_attname m = Some (VInt z) ∧ inst' !! pk_attname m = Some (VInt z)
    ∧ ∀ r' : row, r' ∈ table db name -> r' !! pk_attname m ≠ Some (VInt z).
Proof.
  intros H Hm Hpk Hauto. rewrite (save_unkeyed _ _ _ _ _ _ _ Hm Hpk) in H.
  destruct (find_model_Some _ _ _ Hm) as [_ Hname].
  unfold db_insert in H. rewrite Hpk in H.
  rewrite bool_decide_eq_false_2 in H by (intros Hx; by apply Hx).
  apply bind_Ok in H as ([cols inst1] & _ & H). simpl in H.
  rewrite Hauto in H. simpl in H.
  match type of H with (if ?c then _ else _) = _ => destruct c end; simplify_eq.
  eexists _, _. rewrite table_insert_eq. split_and!; [done|..].
  - by rewrite lookup_insert_eq.
  - unfold setattr. by rewrite lookup_insert_eq.
  - intros r' Hr' Hid. pose proof (pk_int_le_next (pk_attname m) _ r' Hr') as Hlt.
    unfold pk_int in Hlt. rewrite Hid in Hlt. lia.
Qed.

End SaveFacts.

Section Saves.

Variable str_upper : string -> string.

(** X19.  A save changes the instance in two places at most: the
    attribute of the primary key, and [letra] on an [Inmueble]; every other
    attribute is after the save what it was before.  The save of an
    instance without a key, on a class with the automatic [id], sets [id]
    to the id of the row it stores, which no row of the table had. *)
Theorem save_changes_key_and_letra_only (db : database) name inst force_insert
    db' inst' m :
  save str_upper site db name inst force_insert = Ok (db', inst') ->
  find_model site name = Some m ->
  (∀ a, a ≠ pk_attname m -> (name, a) ≠ ("Inmueble", "letra")%string ->
        inst' !! a = inst !! a)
  ∧ (getattr_default inst (pk_attname m) VNone = VNone ->
     is_auto (f_kind (pk_field m)) = true ->
     ∃ (r : row) z, table db' name = r :: table db name
       ∧ r !! pk_attname m = Some (VInt z)
       ∧ inst' !! pk_attname m = Some (VInt z)
       ∧ ∀ r' : row, r' ∈ table db name -> r' !! pk_attname m ≠ Some (VInt z)).
Proof.
  intros Hsave Hm. split.
  - intros a Hpk Hletra.
    apply (save_instance str_upper site _ _ _ _ _ _ _ _ Hsave Hm Hpk).
    intros f n Hf Ha Hk.
    destruct (find_model_Some _ _ _ Hm) as [Hin Hname].
    pose proof (site_fields_forall
      (fun m f => match f_kind f with
                  | UpperCaseCharField _ =>
                      bool_decide (m_name m = "Inmueble" ∧ attname f = "letra")%string
                  | _ => true
                  end) eq_refl m f Hin Hf) as Hchk.
    cbv beta in Hchk. rewrite Hk in Hchk.
    apply bool_decide_eq_true in Hchk as [Hn Hl].
    apply Hletra. congruence.
  - intros Hnone Hauto.
    by apply (save_new_key str_upper site _ _ _ _ _ _ _ Hsave Hm Hnone Hauto).
Qed.

End Saves.

(** ** The letters the table of units holds *)

Section Letters.

Variable str_upper : string -> string.

(** A value the hook of [letra] returned: an uppercase text, or the falsy
    value it was given. *)
Lemma letra_hook_value v0 v1 :
  (∀ t, str_upper (str_upper t) = str_upper t) ->
  hook_value str_upper Decl.Inmueble_letra v0 = Ok v1 ->
  (∃ s, v1 = VStr s ∧ str_upper s = s) ∨ (truthy v1 = false).
Proof.
  intros Hidem. unfold hook_value. simpl.
  destruct (truthy v0) eqn:Ht.
  - destruct v0; simpl; intros H; simplify_eq. left. eauto.
  - intros H. simplify_eq. by right.
Qed.

Lemma letra_stored_text v t :
  (∃ s, v = VStr s ∧ str_upper s = s) ∨ (truthy v = false) ->
  get_prep_value site Decl.Inmueble_letra v = Ok (VStr t) ->
  str_upper t = t ∨ t ∈ [""; "0"; "False"]%string.
Proof.
  change (get_prep_value site Decl.Inmueble_letra v) with (to_str v).
  intros [(s & -> & Hs)|Hf] H.
  - simpl in H. left. congruence.
  - right. destruct v as [|[]|z|s|]; simpl in *; simplify_eq.
    + apply list_elem_of_further, list_elem_of_further, list_elem_of_here.
    + apply negb_false_iff, Z.eqb_eq in Hf. subst z.
      apply list_elem_of_further, list_elem_of_here.
    + apply negb_false_iff, bool_decide_eq_true in Hf. subst.
      apply list_elem_of_here.
Qed.

(** X20.  When [str.upper] leaves an uppercase text as it is, the [letra]
    of every row of [Inmueble], in every state of the database, is a text
    that [str.upper] leaves as it is, or one of the texts a falsy attribute
    is stored as (the empty string, and the text of [0] and of [False]). *)
Theorem Inmueble_letra_stored_uppercase (db : database) :
  (∀ t, str_upper (str_upper t) = str_upper t) ->
  reachable str_upper site db ->
  ∀ r : row, r ∈ table db "Inmueble" ->
    ∃ t, r !! "letra" = Some (VStr t)
         ∧ (str_upper t = t ∨ t ∈ [""; "0"; "False"]%string).
Proof.
  intros Hidem Hreach.
  induction Hreach as [|db name inst fi db' inst' Hreach IH Hs|db name pk db' Hreach IH Hd].
  - intros r Hr. unfold table in Hr. rewrite lookup_total_empty in Hr.
    by apply elem_of_nil in Hr.
  - intros r Hr.
    pose proof (reach_save _ _ _ _ _ _ _ _ Hreach Hs) as Hreach'.
    destruct (site_str_column str_upper db' "Inmueble" Decl.Inmueble Decl.Inmueble_letra
                r Hreach' eq_refl) as [t Ht]; [in_list|done..|].
    change (attname _) with "letra"%string in Ht.
    exists t. split; [done|].
    pose proof (save_shape _ _ site_wf _ _ _ _ _ _ Hs)
      as (m & r1 & others1 & Hm1 & Heq1 & Hsub & _).
    destruct (decide (name = "Inmueble"%string)) as [->|Hne].
    + destruct (save_stored str_upper site site_wf _ _ _ _ _ _ Decl.Inmueble
                  Decl.Inmueble_letra Hs eq_refl) as
        (r0 & others & v0 & v1 & Heq0 & H0 & H1 & Hst); [in_list|done|].
      assert (r0 :: others = r1 :: others1) as Hrows.
      { rewrite <- (table_insert_eq db "Inmueble" (r0 :: others)), <- Heq0, Heq1.
        apply table_insert_eq. }
      injection Hrows as <- <-.
      rewrite Heq0, table_insert_eq in Hr.
      apply elem_of_cons in Hr as [->|Hr].
      * pose proof (letra_hook_value _ _ Hidem H1) as Hv1.
        change (attname _) with "letra"%string in Hst.
        destruct Hst as [(v' & Hp & Hl)|(v2 & v' & H2 & Hp & Hl)];
          rewrite Ht in Hl; simplify_eq.
        -- by eapply letra_stored_text.
        -- eapply letra_stored_text; [|done]. by eapply letra_hook_value.
      * destruct (IH r) as (t' & Ht' & Hup); [by eapply elem_of_sublist|].
        rewrite Ht in Ht'. by simplify_eq.
    + rewrite Heq1, table_insert_ne in Hr by done.
      destruct (IH r Hr) as (t' & Ht' & Hup). rewrite Ht in Ht'. by simplify_eq.
  - intros r Hr. apply IH.
    apply delete_shape in Hd as [-> _].
    eapply elem_of_sublist; [exact Hr|]. apply table_remove.
Qed.

(** X21.  When the [letra] of an instance is truthy and is not a text (a
    number other than 0, [True], a date) the hook raises [AttributeError]
    and leaves the instance as it was, and no save of the instance on
    [Inmueble] succeeds, in any state of the database. *)
Theorem Inmueble_letra_not_text (inst : instance) (v : value) (add : bool) :
  inst !! "letra" = Some v -> truthy v = true -> (∀ s, v ≠ VStr s) ->
  UpperCaseCharField_pre_save str_upper "letra" inst add = (Raise AttributeError, inst)
  ∧ pre_save str_upper Decl.Inmueble_letra inst add = (Raise AttributeError, inst)
  ∧ ∀ db force_insert,
      is_ok (save str_upper site db "Inmueble" inst force_insert) = false.
Proof.
  intros Hl Ht Hv.
  assert (upper str_upper v = Raise AttributeError) as Hup.
  { destruct v; try done. by destruct (Hv s). }
  assert (UpperCaseCharField_pre_save str_upper "letra" inst add
          = (Raise AttributeError, inst)) as Hps.
  { unfold UpperCaseCharField_pre_save, getattr_default. rewrite Hl. simpl.
    by rewrite Ht, Hup. }
  split_and!; [exact Hps | exact Hps |].
  intros db fi.
  destruct (save _ _ _ _ _ _) as [[db' inst']|e] eqn:Hs; [exfalso|done].
  destruct (save_stored str_upper site site_wf _ _ _ _ _ _ Decl.Inmueble
              Decl.Inmueble_letra Hs eq_refl) as
    (r0 & others & v0 & v1 & _ & H0 & H1 & _); [in_list|done|].
  change (attname _) with "letra"%string in H0. rewrite Hl in H0. simplify_eq.
  unfold hook_value in H1. simpl in H1. rewrite Ht, Hup in H1. discriminate H1.
Qed.

End Letters.

(** ** Saving a fetched row back *)

Lemma omap_ext_in {A B : Type} (f g : A -> option B) (l : list A) :
  (∀ x, x ∈ l -> f x = g x) -> omap f l = omap g l.
Proof.
  induction l as [|x l IH]; intros H; [done|].
  assert (omap f l = omap g l) as IH'.
  { apply IH. intros y Hy. apply H. by apply list_elem_of_further. }
  simpl. rewrite (H x) by apply list_elem_of_here.
  destruct (g x); [f_equal|]; exact IH'.
Qed.

Lemma fk_refs_ext m (r1 r2 : row) :
  (∀ f, f ∈ all_fields m -> r1 !! attname f = r2 !! attname f) ->
  fk_refs m r1 = fk_refs m r2.
Proof.
  intros H. unfold fk_refs. apply omap_ext_in. intros f Hf. by rewrite (H f Hf).
Qed.

Section RoundTrip.

Variable str_upper : string -> string.
Variable S : list model.
Hypothesis S_wf : Forall (fun m => wf_model m = true) S.

Lemma get_prep_value_typed f v :
  has_type (col_kind S f) v -> get_prep_value S f v = Ok v.
Proof.
  unfold get_prep_value, col_kind.
  destruct (relation (f_kind f)) as [[to od]|]; [|apply prep_scalar_typed].
  destruct (find_model S to); apply prep_scalar_typed.
Qed.

Lemma hook_value_plain f v :
  (∀ n, f_kind f ≠ UpperCaseCharField n) -> hook_value str_upper f v = Ok v.
Proof.
  intros Hk. unfold hook_value. destruct (f_kind f) eqn:Hf; try done.
  by destruct (Hk max_length).
Qed.

(** The values [prepare] computes on a fetched row are the values of the
    row. *)
Lemma stored_values_from_db m (r : row) fs :
  wf_model m = true ->
  (∀ f, f ∈ fs -> f ∈ all_fields m ∧ (∀ n, f_kind f ≠ UpperCaseCharField n)
                  ∧ ∃ v, r !! attname f = Some v ∧ has_type (col_kind S f) v) ->
  stored_values str_upper S fs (from_db m r)
  = Ok (map (fun f => (attname f, default VNone (r !! attname f))) fs).
Proof.
  intros Hwf. induction fs as [|f fs IH]; intros H; [done|].
  destruct (H f) as (Hf & Hk & v & Hv & Ht); [apply list_elem_of_here|].
  simpl. unfold stored_value, getattr.
  rewrite (from_db_lookup _ _ _ Hwf Hf), Hv. simpl.
  rewrite (hook_value_plain _ _ Hk). simpl.
  rewrite (get_prep_value_typed _ _ Ht). simpl.
  rewrite IH; [done|]. intros g Hg. apply H. by apply list_elem_of_further.
Qed.

(** Saving the instance of a fetched row, on a class without an uppercase
    field: an UPDATE that puts a row with the same columns in the place of
    the row. *)
Lemma save_from_db db name m (r : row) :
  db_ok S db -> refs_ok S db ->
  find_model S name = Some m -> r ∈ table db name ->
  (∀ f n, f ∈ all_fields m -> f_kind f ≠ UpperCaseCharField n) ->
  f_null (pk_field m) = false ->
  (∀ cols c, cols ∈ constraints m -> c ∈ cols -> c ∈ map attname (all_fields m)) ->
  ∃ v inst' (r' : row),
    r !! pk_attname m = Some v
    ∧ save str_upper S db name (from_db m r) false
      = Ok (<[name := r' :: filter (fun r0 : row => ¬ has_pk (pk_attname m) v r0)
                                   (table db name)]> db, inst')
    ∧ ∀ f, f ∈ all_fields m -> r' !! attname f = r !! attname f.
Proof.
  intros Hok Hrefs Hm Hr Hplain Hpknull Hcols.
  pose proof (find_model_wf _ S_wf _ _ Hm) as Hwf.
  destruct (wf_model_pk_in _ Hwf) as [Hpkin Hpkpk].
  pose proof (wf_model_NoDup _ Hwf) as Hnd.
  assert (∀ f, f ∈ all_fields m ->
            ∃ v, r !! attname f = Some v ∧ has_type (col_kind S f) v
                 ∧ (f_null f = false -> v ≠ VNone)) as Hrow.
  { intros f Hf. by eapply db_ok_column. }
  destruct (Hrow _ Hpkin) as (v & Hv & Htv & Hvn). specialize (Hvn Hpknull).
  fold (pk_attname m) in Hv.
  set (l := map (fun f => (attname f, default VNone (r !! attname f))) (non_pks m)).
  assert (NoDup (map attname (non_pks m))) as Hndn by by apply NoDup_map_filter.
  assert (∀ f, f ∈ non_pks m -> f ∈ all_fields m ∧ f_primary_key f = false) as Hnp.
  { intros f Hf. apply list_elem_of_In, filter_In in Hf as [Hf Hp].
    split; [by apply list_elem_of_In | by apply negb_true_iff]. }
  destruct (prepare_stored str_upper S (non_pks m) (from_db m r) false l Hndn)
    as (inst' & Hprep).
  { apply stored_values_from_db; [done|]. intros f Hf.
    destruct (Hnp f Hf) as [Hfa _]. split_and!; [done|by intros n; apply Hplain|].
    destruct (Hrow f Hfa) as (w & Hw & Htw & _). eauto. }
  set (r' := <[pk_attname m := v]> (list_to_map l : row)).
  assert (∀ f, f ∈ all_fields m -> r' !! attname f = r !! attname f) as Hsame.
  { intros f Hf. destruct (f_primary_key f) eqn:Hfp.
    - rewrite (wf_model_pk _ _ Hwf Hf Hfp). fold (pk_attname m).
      unfold r'. by rewrite lookup_insert_eq.
    - assert (attname f ≠ pk_attname m) as Hne.
      { intros He. unfold pk_attname in He.
        apply (attname_inj_in m) in He; [|done..]. congruence. }
      unfold r'. rewrite lookup_insert_ne by done.
      destruct (Hrow f Hf) as (w & Hw & _). rewrite Hw.
      apply elem_of_list_to_map_1.
      + unfold l. rewrite <- list_fmap_compose. exact Hndn.
      + unfold l. apply list_elem_of_fmap. exists f. rewrite Hw. split; [done|].
        apply list_elem_of_In, filter_In. split; [by apply list_elem_of_In|].
        by rewrite Hfp. }
  exists v, inst', r'. split_and!; [done| |done].
  assert (from_db m r !! pk_attname m = Some v) as Hfrom.
  { unfold pk_attname. rewrite (from_db_lookup _ _ _ Hwf Hpkin).
    fold (pk_attname m). by rewrite Hv. }
  unfold save. rewrite Hm.
  unfold getattr_default. rewrite Hfrom. simpl.
  rewrite bool_decide_eq_true_2 by done. simpl.
  rewrite (get_prep_value_typed _ _ Htv). simpl.
  rewrite Hprep. simpl.
  rewrite bool_decide_eq_true_2 by (apply Exists_exists; by exists r).
  fold r'. rewrite checks_intro; [done| | |].
  - unfold not_null_ok. apply forallb_forall. intros f Hf.
    apply list_elem_of_In in Hf. destruct (f_null f) eqn:Hn; [done|]. simpl.
    apply bool_decide_eq_true. rewrite (Hsame f Hf).
    destruct (Hrow f Hf) as (w & Hw & _ & Hwn). rewrite Hw.
    split; [by eexists|]. intros [= ->]. by apply Hwn.
  - intros cols Hc. apply Forall_forall. intros r0 Hr0 Hconf.
    apply list_elem_of_filter in Hr0 as [Hnpk Hr0].
    assert (conflicts cols r r0) as Hconf'.
    { apply conflicts_iff. intros c Hcc.
      destruct (proj1 (conflicts_iff _ _ _) Hconf c Hcc) as (w & Hw & Hw0 & Hwn).
      exists w. split_and!; [|done..].
      specialize (Hcols cols c Hc Hcc).
      apply list_elem_of_fmap in Hcols as (f & -> & Hf). by rewrite <- (Hsame f Hf). }
    apply list_elem_of_lookup in Hr as [i Hi].
    apply list_elem_of_lookup in Hr0 as [j Hj].
    destruct (Hok _ _ Hm) as [_ Hd].
    assert (i = j) as Hij.
    { eapply (distinct_on_lookup cols); [by apply Hd|exact Hi|exact Hj|exact Hconf']. }
    subst j. rewrite Hi in Hj. injection Hj as <-. by apply Hnpk.
  - rewrite (fk_refs_ext m r' r Hsame). by eapply Hrefs.
Qed.

End RoundTrip.

Lemma site_models_check m :
  m ∈ site ->
  f_null (pk_field m) = false
  ∧ forallb (fun cols =>
       forallb (fun c => bool_decide (c ∈ map attname (all_fields m))) cols)
       (constraints m) = true.
Proof.
  revert m. apply Forall_forall.
  repeat (constructor; [split; vm_compute; reflexivity|]). constructor.
Qed.

Section FetchedRows.

Variable str_upper : string -> string.

(** X22.  Round trip of a row: in every state of the database, saving the
    instance fetched for a row of a class other than [Inmueble] succeeds as
    an UPDATE; the table then holds, in the place of the row, a row with
    the same value in the column of every field, and the other rows of the
    table as they were. *)
Theorem save_of_fetched_row (db : database) m (r : row) :
  reachable str_upper site db -> m ∈ site -> m_name m ≠ "Inmueble"%string ->
  r ∈ table db (m_name m) ->
  ∃ v inst' (r' : row) others,
    r !! pk_attname m = Some v
    ∧ others = filter (fun r0 : row => ¬ has_pk (pk_attname m) v r0)
                      (table db (m_name m))
    ∧ save str_upper site db (m_name m) (from_db m r) false
      = Ok (<[m_name m := r' :: others]> db, inst')
    ∧ (∀ f, f ∈ all_fields m -> r' !! attname f = r !! attname f)
    ∧ table db (m_name m) ≡ₚ r :: others.
Proof.
  intros Hreach Hm Hname Hr.
  pose proof (site_reachable_ok _ _ Hreach) as Hok.
  pose proof (site_reachable_refs_ok _ _ Hreach) as Hrefs.
  pose proof (site_find m Hm) as Hfind.
  destruct (site_models_check m Hm) as [Hpk Hcols].
  destruct (save_from_db str_upper site site_wf db (m_name m) m r Hok Hrefs Hfind Hr)
    as (v & inst' & r' & Hv & Hsave & Hsame); [|done|..].
  - intros f n Hf Hk.
    pose proof (site_fields_forall
      (fun m f => match f_kind f with
                  | UpperCaseCharField _ => bool_decide (m_name m = "Inmueble"%string)
                  | _ => true
                  end) eq_refl m f Hm Hf) as Hchk.
    cbv beta in Hchk. rewrite Hk in Hchk. by apply bool_decide_eq_true in Hchk.
  - intros cols c Hc Hcc. rewrite forallb_forall in Hcols.
    specialize (Hcols cols (proj1 (list_elem_of_In _ _) Hc)).
    rewrite forallb_forall in Hcols.
    specialize (Hcols c (proj1 (list_elem_of_In _ _) Hcc)).
    by apply bool_decide_eq_true in Hcols.
  - exists v, inst', r',
      (filter (fun r0 : row => ¬ has_pk (pk_attname m) v r0) (table db (m_name m))).
    split_and!; [done|reflexivity|done..|].
    destruct (db_ok_column site db _ _ (pk_field m) r Hok Hfind) as (w & Hw & _ & Hwn);
      [by apply wf_model_pk_in, (find_model_wf site site_wf _ _ Hfind)|done|].
    fold (pk_attname m) in Hw. rewrite Hv in Hw. injection Hw as <-.
    specialize (Hwn Hpk).
    rewrite <- (filter_app_complement (has_pk (pk_attname m) v) (table db (m_name m)))
      at 1.
    rewrite (filter_has_pk_unique (pk_attname m) v _ r); [done| |done..].
    destruct (Hok _ _ Hfind) as [_ Hd]. apply Hd.
    apply pk_constraint. by apply (find_model_wf site site_wf _ _ Hfind).
Qed.




End FetchedRows.

(** * The methods on the run of the site *)

Lemma demo_documents_run :
  run ascii_upper site demo_documents demo_db = Ok demo_db_documents.
Proof. apply is_ok_state_of. vm_compute. reflexivity. Qed.

Lemma demo_documents_reachable : reachable ascii_upper site demo_db_documents.
Proof.
  eapply run_reachable; [exact demo_reachable | exact demo_documents_run].
Qed.


Lemma TipoBase_str_of_stored_witness :
  reachable ascii_upper site demo_db_documents
  ∧ row_at demo_db_documents "TipoBase" 0 ∈ table demo_db_documents "TipoBase"
  ∧ (∃ s z,
       row_at demo_db_documents "TipoBase" 0 !! "nombre" = Some (VStr s)
       ∧ row_at demo_db_documents "TipoBase" 0 !! "metros_habitables" = Some (VInt z)
       ∧ TipoBase_str (from_db Decl.TipoBase (row_at demo_db_documents "TipoBase" 0))
         = Returns (s +:+ " (" +:+ pretty z +:+ " m2)"))
  ∧ TipoBase_str (from_db Decl.TipoBase (row_at demo_db_documents "TipoBase" 0))
    = Returns "A3 (80 m2)"%string.
Proof.
  assert (row_at demo_db_documents "TipoBase" 0 ∈ table demo_db_documents "TipoBase")
    as Hr by by apply row_at_elem.
  split_and!; [exact demo_documents_reachable | exact Hr | |vm_compute; reflexivity].
  exact (TipoBase_str_of_stored ascii_upper demo_db_documents _
           demo_documents_reachable Hr).
Defined.

Lemma Estancia_str_of_stored_witness :
  reachable ascii_upper site demo_db_documents
  ∧ row_at demo_db_documents "Estancia" 0 ∈ table demo_db_documents "Estancia"
  ∧ (∃ (rt : row) t s z,
       rt ∈ table demo_db_documents "TipoEstancia"
       ∧ row_at demo_db_documents "Estancia" 0 !! "tipo_id" = Some (VInt t)
       ∧ rt !! "id" = Some (VInt t)
       ∧ rt !! "nombre" = Some (VStr s)
       ∧ row_at demo_db_documents "Estancia" 0 !! "superficie" = Some (VInt z)
       ∧ Estancia_str demo_db_documents
           (from_db Decl.Estancia (row_at demo_db_documents "Estancia" 0))
         = Returns (s +:+ " (" +:+ pretty z +:+ " m2)"))
  ∧ Estancia_str demo_db_documents
      (from_db Decl.Estancia (row_at demo_db_documents "Estancia" 0))
    = Returns "Dormitorio (9 m2)"%string.
Proof.
  assert (row_at demo_db_documents "Estancia" 0 ∈ table demo_db_documents "Estancia")
    as Hr by by apply row_at_elem.
  split_and!; [exact demo_documents_reachable | exact Hr | |vm_compute; reflexivity].
  exact (Estancia_str_of_stored ascii_upper demo_db_documents _
           demo_documents_reachable Hr).
Defined.


Lemma Cliente_str_of_stored_witness :
  reachable ascii_upper site demo_db_documents
  ∧ row_at demo_db_documents "Cliente" 0 ∈ table demo_db_documents "Cliente"
  ∧ (∃ (ru : row) u first_name last_name dni,
       ru ∈ table demo_db_documents "User"
       ∧ row_at demo_db_documents "Cliente" 0 !! "user_id" = Some (VInt u)
       ∧ ru !! "id" = Some (VInt u)
       ∧ ru !! "first_name" = Some (VStr first_name)
       ∧ ru !! "last_name" = Some (VStr last_name)
       ∧ row_at demo_db_documents "Cliente" 0 !! "dni" = Some (VStr dni)
       ∧ Cliente_str demo_db_documents
           (from_db Decl.Cliente (row_at demo_db_documents "Cliente" 0))
         = Returns (first_name +:+ " " +:+ last_name +:+ " - " +:+ dni))
  ∧ Cliente_str demo_db_documents
      (from_db Decl.Cliente (row_at demo_db_documents "Cliente" 0))
    = Returns "Carla Ruiz - 3Z"%string.
Proof.
  assert (row_at demo_db_documents "Cliente" 0 ∈ table demo_db_documents "Cliente")
    as Hr by by apply row_at_elem.
  split_and!; [exact demo_documents_reachable | exact Hr | |vm_compute; reflexivity].
  exact (Cliente_str_of_stored ascii_upper demo_db_documents _
           demo_documents_reachable Hr).
Defined.

Lemma TipoBasePortal_str_never_returns_witness :
  Portal_str (from_db Decl.Portal (row_at demo_db_documents "Portal" 0))
  = Raise AttributeError
  ∧ init Decl.Portal [("numero"%string, VInt 7)] = Ok {[ "numero"%string := VInt 7 ]}
  ∧ Portal_str {[ "numero"%string := VInt 7 ]} = Raise AttributeError
  ∧ TipoBasePortal_str demo_db_documents
      (from_db Decl.TipoBasePortal (row_at demo_db_documents "TipoBasePortal" 0))
    ≠ Returns "A3 (80 m2) - Portal 7"%string.
Proof.
  destruct (TipoBasePortal_str_never_returns demo_db_documents
              (from_db Decl.TipoBasePortal (row_at demo_db_documents "TipoBasePortal" 0))
              "A3 (80 m2) - Portal 7") as (H1 & H2 & H3).
  assert (init Decl.Portal [("numero"%string, VInt 7)]
          = Ok {[ "numero"%string := VInt 7 ]}) as Hi by (vm_compute; reflexivity).
  split_and!; [apply H1 | exact Hi | exact (H2 _ _ Hi) | exact H3].
Defined.

Lemma Inmueble_str_never_returns_witness :
  Inmueble_str demo_db_documents
    (from_db Decl.Inmueble (row_at demo_db_documents "Inmueble" 0))
  ≠ Returns "A3 (80 m2) - Portal 7 - 1º BC      - 1X"%string
  ∧ Inmueble_to_str_inmuebles_propietario demo_db_documents
      (from_db Decl.Inmueble (row_at demo_db_documents "Inmueble" 0))
    ≠ Returns "A3 (80 m2) - Portal 7 - 1º BC"%string.
Proof.
  split.
  - exact (proj1 (Inmueble_str_never_returns demo_db_documents
                    (from_db Decl.Inmueble (row_at demo_db_documents "Inmueble" 0))
                    "A3 (80 m2) - Portal 7 - 1º BC      - 1X")).
  - exact (proj2 (Inmueble_str_never_returns demo_db_documents
                    (from_db Decl.Inmueble (row_at demo_db_documents "Inmueble" 0))
                    "A3 (80 m2) - Portal 7 - 1º BC")).
Defined.

Lemma stored_unit_texts_raise_AttributeError_witness :
  reachable ascii_upper site demo_db_documents
  ∧ TipoBasePortal_str demo_db_documents
      (from_db Decl.TipoBasePortal (row_at demo_db_documents "TipoBasePortal" 0))
    = Raises (Builtin AttributeError)
  ∧ Inmueble_str demo_db_documents
      (from_db Decl.Inmueble (row_at demo_db_documents "Inmueble" 0))
    = Raises (Builtin AttributeError)
  ∧ Inmueble_to_str_inmuebles_propietario demo_db_documents
      (from_db Decl.Inmueble (row_at demo_db_documents "Inmueble" 0))
    = Raises (Builtin AttributeError).
Proof.
  destruct (stored_unit_texts_raise_AttributeError ascii_upper demo_db_documents
              demo_documents_reachable) as (H1 & H2).
  assert (row_at demo_db_documents "Inmueble" 0 ∈ table demo_db_documents "Inmueble")
    as Hr by by apply row_at_elem.
  split_and!.
  - exact demo_documents_reachable.
  - apply H1. by apply row_at_elem.
  - exact (proj1 (H2 _ Hr)).
  - exact (proj2 (H2 _ Hr)).
Defined.

Lemma Cliente_user_round_trip_witness :
  reachable ascii_upper site demo_db_documents
  ∧ (∃ ru : row, ru ∈ table demo_db_documents "User"
       ∧ row_at demo_db_documents "Cliente" 0 !! "user_id" = ru !! "id"
       ∧ related site demo_db_documents Decl.Cliente "user"
           (from_db Decl.Cliente (row_at demo_db_documents "Cliente" 0))
         = Returns (Some (from_db Decl.User ru))
       ∧ User_cliente demo_db_documents (from_db Decl.User ru)
         = Returns (from_db Decl.Cliente (row_at demo_db_documents "Cliente" 0)))
  ∧ User_cliente (db_of (create ascii_upper site demo_db_documents "User"
                           [("username"%string, VStr "dora")]))
      (from_db Decl.User
         (row_at (db_of (create ascii_upper site demo_db_documents "User"
                           [("username"%string, VStr "dora")])) "User" 0))
    = Raises (RelatedObjectDoesNotExist "User" "cliente").
Proof.
  destruct (Cliente_user_round_trip ascii_upper demo_db_documents
              demo_documents_reachable) as (H1 & _).
  split_and!.
  - exact demo_documents_reachable.
  - apply H1. by apply row_at_elem.
  - assert (create ascii_upper site demo_db_documents "User"
              [("username"%string, VStr "dora")]
            = Ok (db_of (create ascii_upper site demo_db_documents "User"
                           [("username"%string, VStr "dora")]),
                  inst_of (create ascii_upper site demo_db_documents "User"
                             [("username"%string, VStr "dora")]))) as Hcr.
    { apply is_ok_db_of. vm_compute. reflexivity. }
    assert (reachable ascii_upper site
              (db_of (create ascii_upper site demo_db_documents "User"
                        [("username"%string, VStr "dora")]))) as Hreach.
    { eapply (run_reachable ascii_upper site
                [Create "User" [("username"%string, VStr "dora")]]);
        [exact demo_documents_reachable|].
      simpl. rewrite Hcr. reflexivity. }
    apply (Cliente_user_round_trip ascii_upper _ Hreach).
    + by apply row_at_elem.
    + apply Forall_forall. apply (bool_decide_unpack _). vm_compute. exact I.
Defined.




Lemma unique_columns_distinct_witness :
  reachable ascii_upper site demo_db_documents
  ∧ row_at demo_db_documents "Cliente" 0 !! "dni"
    ≠ row_at demo_db_documents "Cliente" 1 !! "dni"
  ∧ row_at demo_db_documents "Cliente" 0 !! "user_id"
    ≠ row_at demo_db_documents "Cliente" 1 !! "user_id".
Proof.
  destruct (unique_columns_distinct ascii_upper demo_db_documents
              demo_documents_reachable) as (H & _).
  split_and!; [exact demo_documents_reachable | |].
  - intros He.
    assert (0%nat = 1%nat) as Hij; [|discriminate Hij].
    apply (H Decl.Cliente (with_unique (fld "dni" (CharField 10))) 0%nat 1%nat
             (row_at demo_db_documents "Cliente" 0)
             (row_at demo_db_documents "Cliente" 1)).
    + in_list.
    + in_list.
    + reflexivity.
    + vm_compute. reflexivity.
    + vm_compute. reflexivity.
    + exact He.
  - intros He.
    assert (0%nat = 1%nat) as Hij; [|discriminate Hij].
    apply (H Decl.Cliente (fld "user" (OneToOneField "User" CASCADE "cliente"))
             0%nat 1%nat
             (row_at demo_db_documents "Cliente" 0)
             (row_at demo_db_documents "Cliente" 1)).
    + in_list.
    + in_list.
    + reflexivity.
    + vm_compute. reflexivity.
    + vm_compute. reflexivity.
    + exact He.
Defined.

Lemma references_resolve_witness :
  reachable ascii_upper site demo_db_documents
  ∧ (∃ v, row_at demo_db_documents "Inmueble" 0 !! "tipo_id" = Some v
       ∧ ((v = VNone ∧ false = true)
          ∨ ∃ r' : row, r' ∈ table demo_db_documents "TipoBasePortal"
                        ∧ r' !! "id" = Some v))
  ∧ (∃ v, row_at demo_db_documents "OpcionConfiguracionSeleccionada" 0
            !! "opcion_configuracion_id" = Some v
       ∧ ((v = VNone ∧ true = true)
          ∨ ∃ r' : row, r' ∈ table demo_db_documents "OpcionConfiguracion"
                        ∧ r' !! "id" = Some v)).
Proof.
  pose proof (references_resolve ascii_upper demo_db_documents
                demo_documents_reachable) as H.
  split_and!; [exact demo_documents_reachable | |].
  - apply (H Decl.Inmueble (fld "tipo" (ForeignKey "TipoBasePortal" RESTRICT))
             "TipoBasePortal"%string RESTRICT Decl.TipoBasePortal
             (row_at demo_db_documents "Inmueble" 0)).
    + in_list.
    + in_list.
    + reflexivity.
    + reflexivity.
    + by apply row_at_elem.
  - apply (H Decl.OpcionConfiguracionSeleccionada
             (with_null (fld "opcion_configuracion"
                           (ForeignKey "OpcionConfiguracion" RESTRICT)))
             "OpcionConfiguracion"%string RESTRICT Decl.OpcionConfiguracion
             (row_at demo_db_documents "OpcionConfiguracionSeleccionada" 0)).
    + in_list.
    + in_list.
    + reflexivity.
    + reflexivity.
    + by apply row_at_elem.
Defined.





Lemma save_changes_key_and_letra_only_witness :
  save ascii_upper site demo_db_documents "Inmueble" demo_inmueble false
  = Ok (db_of (save ascii_upper site demo_db_documents "Inmueble" demo_inmueble false),
        inst_of (save ascii_upper site demo_db_documents "Inmueble" demo_inmueble false))
  ∧ inst_of (save ascii_upper site demo_db_documents "Inmueble" demo_inmueble false)
      !! "piso" = demo_inmueble !! "piso"
  ∧ ∃ (r : row) z,
      table (db_of (save ascii_upper site demo_db_documents "Inmueble" demo_inmueble
                      false)) "Inmueble"
      = r :: table demo_db_documents "Inmueble"
      ∧ r !! "id" = Some (VInt z)
      ∧ inst_of (save ascii_upper site demo_db_documents "Inmueble" demo_inmueble false)
          !! "id" = Some (VInt z)
      ∧ ∀ r' : row, r' ∈ table demo_db_documents "Inmueble" ->
          r' !! "id" ≠ Some (VInt z).
Proof.
  assert (save ascii_upper site demo_db_documents "Inmueble" demo_inmueble false
          = Ok (db_of (save ascii_upper site demo_db_documents "Inmueble"
                         demo_inmueble false),
                inst_of (save ascii_upper site demo_db_documents "Inmueble"
                           demo_inmueble false))) as Hs.
  { apply is_ok_db_of. vm_compute. reflexivity. }
  destruct (save_changes_key_and_letra_only ascii_upper demo_db_documents
              "Inmueble" demo_inmueble false _ _ Decl.Inmueble Hs eq_refl)
    as (H1 & H2).
  split_and!; [exact Hs | |].
  - apply H1; [done|]. intros He. discriminate He.
  - apply H2; [vm_compute; reflexivity | reflexivity].
Defined.

Lemma Inmueble_letra_stored_uppercase_witness :
  (∀ t, ascii_upper (ascii_upper t) = ascii_upper t)
  ∧ reachable ascii_upper site demo_db_documents
  ∧ ∃ t, row_at demo_db_documents "Inmueble" 0 !! "letra" = Some (VStr t)
         ∧ (ascii_upper t = t ∨ t ∈ [""; "0"; "False"]%string).
Proof.
  split_and!; [exact ascii_upper_idem | exact demo_documents_reachable |].
  apply (Inmueble_letra_stored_uppercase ascii_upper demo_db_documents
           ascii_upper_idem demo_documents_reachable).
  by apply row_at_elem.
Defined.

Lemma Inmueble_letra_not_text_witness :
  UpperCaseCharField_pre_save ascii_upper "letra"
    (<["letra"%string := VInt 5]> demo_inmueble) true
  = (Raise AttributeError, <["letra"%string := VInt 5]> demo_inmueble)
  ∧ is_ok (save ascii_upper site demo_db_documents "Inmueble"
             (<["letra"%string := VInt 5]> demo_inmueble) false) = false.
Proof.
  destruct (Inmueble_letra_not_text ascii_upper
              (<["letra"%string := VInt 5]> demo_inmueble) (VInt 5) true)
    as (H1 & _ & H3).
  - vm_compute. reflexivity.
  - reflexivity.
  - intros s H. discriminate H.
  - split; [exact H1 | apply H3].
Defined.

Lemma save_of_fetched_row_witness :
  reachable ascii_upper site demo_db_documents
  ∧ row_at demo_db_documents "Cliente" 0 ∈ table demo_db_documents "Cliente"
  ∧ ∃ v inst' (r' : row) others,
      row_at demo_db_documents "Cliente" 0 !! pk_attname Decl.Cliente = Some v
      ∧ others = filter (fun r0 : row => ¬ has_pk (pk_attname Decl.Cliente) v r0)
                        (table demo_db_documents (m_name Decl.Cliente))
      ∧ save ascii_upper site demo_db_documents (m_name Decl.Cliente)
          (from_db Decl.Cliente (row_at demo_db_documents "Cliente" 0)) false
        = Ok (<[m_name Decl.Cliente := r' :: others]> demo_db_documents, inst')
      ∧ (∀ f, f ∈ all_fields Decl.Cliente ->
           r' !! attname f = row_at demo_db_documents "Cliente" 0 !! attname f)
      ∧ table demo_db_documents (m_name Decl.Cliente)
        ≡ₚ row_at demo_db_documents "Cliente" 0 :: others.
Proof.
  assert (row_at demo_db_documents "Cliente" 0 ∈ table demo_db_documents "Cliente")
    as Hr by by apply row_at_elem.
  split_and!; [exact demo_documents_reachable | exact Hr |].
  assert (Decl.Cliente ∈ site) as Hm by in_list.
  assert (m_name Decl.Cliente ≠ "Inmueble"%string) as Hn by done.
  exact (save_of_fetched_row ascii_upper demo_db_documents Decl.Cliente
           (row_at demo_db_documents "Cliente" 0) demo_documents_reachable Hm Hn Hr).
Defined.

